(** * Secure SMS forwarding backend: ingestion pipeline

    A shallow embedding of the Python backend (crypto_service.py,
    message_classifier.py, template_manager.py, storage_service.py,
    whatsapp_service.py, main.py) together with the properties of its
    specification.

    Conventions.
    - A Python [str] is a list of Unicode code points ([list N]).
    - The regular expressions of the source are values of [regex], run by a
      backtracking matcher with the priorities of Python's [re] (leftmost
      match, alternatives left to right, greedy and lazy repetition).
    - Character classes are exact on ASCII; what CPython's Unicode database
      answers for the other code points is a parameter ([unicode_db]).
    - Exceptions are values of [exn]; a call that may raise returns
      [result].  [time.time()] readings are rationals, handed to the code
      by the caller; a sum of floats is rounded to the nearest double.
    - The cryptographic primitives, the Redis server and the HTTP client
      are external libraries: their outcomes are parameters. *)

From Stdlib Require Import ZArith NArith QArith Qround Qabs Qpower Lqa.
From Stdlib Require Import Bool String Ascii List.
From stdpp Require Import gmap list.

Local Open Scope N_scope.

(** ** Python strings *)

Abbreviation pystr := (list N).

(** [py "abc"] is the Python literal ['abc'] (ASCII source text). *)
Definition py (s : string) : pystr :=
  List.map N_of_ascii (list_ascii_of_string s).

Definition pystr_eqb (a b : pystr) : bool := bool_decide (a = b).

Fixpoint startswith (p s : pystr) : bool :=
  match p, s with
  | [], _ => true
  | _ :: _, [] => false
  | a :: p', b :: s' => (a =? b) && startswith p' s'
  end.

(** [contains w s] is Python's [w in s] on strings. *)
Fixpoint contains (w s : pystr) : bool :=
  startswith w s ||
  match s with
  | [] => false
  | _ :: s' => contains w s'
  end.

(** What CPython's Unicode database says about code points outside ASCII. *)
Record unicode_db := {
  uni_isdecimal : N -> bool;          (* [\d]: Py_UNICODE_ISDECIMAL *)
  uni_isalnum : N -> bool;            (* [\w]: Py_UNICODE_ISALNUM *)
  uni_isspace : N -> bool;            (* [\s]: Py_UNICODE_ISSPACE *)
  uni_ignorecase_eq : N -> N -> bool; (* literal vs text char, re.IGNORECASE *)
  uni_lower : pystr -> pystr          (* str.lower() of a non-ASCII string *)
}.

Definition is_ascii (c : N) : bool := c <? 128.

Definition ascii_isdigit (c : N) : bool := (48 <=? c) && (c <=? 57).
Definition ascii_isupper (c : N) : bool := (65 <=? c) && (c <=? 90).
Definition ascii_islower (c : N) : bool := (97 <=? c) && (c <=? 122).
Definition ascii_isspace (c : N) : bool :=
  ((9 <=? c) && (c <=? 13)) || ((28 <=? c) && (c <=? 32)).
Definition ascii_isword (c : N) : bool :=
  ascii_isdigit c || ascii_isupper c || ascii_islower c || (c =? 95).
Definition ascii_lower (c : N) : N :=
  if ascii_isupper c then c + 32 else c.

Section Text.
Variable U : unicode_db.

Definition isdigit (c : N) : bool :=
  if is_ascii c then ascii_isdigit c else uni_isdecimal U c.
Definition isspace (c : N) : bool :=
  if is_ascii c then ascii_isspace c else uni_isspace U c.
Definition isword (c : N) : bool :=
  if is_ascii c then ascii_isword c else uni_isalnum U c.

(** [s.lower()] *)
Definition lower (s : pystr) : pystr :=
  if forallb is_ascii s then List.map ascii_lower s else uni_lower U s.

(** ** Regular expressions *)

(** One-character matchers: a literal, [\d], [\s], [.], and a bracket
    class as the union of its members. *)
Inductive cset :=
| CLit (c : N)
| CDigit
| CSpace
| CAny
| CUnion (a b : cset).

Inductive regex :=
| REps
| RChar (cs : cset)
| RWordB                                    (* \b *)
| RSeq (a b : regex)
| RAlt (a b : regex)                        (* a|b *)
| RRep (greedy : bool) (lo : nat) (hi : option nat) (r : regex).

(** [ic] is the re.IGNORECASE flag. *)
Fixpoint cset_match (ic : bool) (cs : cset) (c : N) : bool :=
  match cs with
  | CLit p =>
      if ic then
        if is_ascii p && is_ascii c then ascii_lower p =? ascii_lower c
        else uni_ignorecase_eq U p c
      else p =? c
  | CDigit => isdigit c
  | CSpace => isspace c
  | CAny => negb (c =? 10)
  | CUnion a b => cset_match ic a c || cset_match ic b c
  end.

Definition opt_isword (o : option N) : bool :=
  match o with Some c => isword c | None => false end.

(** [\b] between the previous character and the rest of the text. *)
Definition at_boundary (prev : option N) (s : pystr) : bool :=
  xorb (opt_isword prev) (opt_isword (head s)).

Definition below (n : nat) (hi : option nat) : bool :=
  match hi with Some h => (n <? h)%nat | None => true end.

(** The loop of a repetition [r{lo,hi}]: [body] matches one [r], [n]
    counts the iterations done.  A greedy loop tries one more iteration
    before it tries to go on with [k]; a lazy one the other way round.
    An iteration has to consume a character. *)
Fixpoint rep_loop
    (body : (option N -> pystr -> option pystr)
            -> option N -> pystr -> option pystr)
    (greedy : bool) (lo : nat) (hi : option nat)
    (k : option N -> pystr -> option pystr)
    (fuel n : nat) (prev : option N) (s : pystr) {struct fuel}
  : option pystr :=
  match fuel with
  | O => None
  | S fuel' =>
      let more (_ : unit) :=
        if below n hi then
          body (fun p' s' =>
                  if (length s' <? length s)%nat
                  then rep_loop body greedy lo hi k fuel' (S n) p' s'
                  else None)
            prev s
        else None in
      let stop (_ : unit) :=
        if (lo <=? n)%nat then k prev s else None in
      if greedy then
        match more tt with Some x => Some x | None => stop tt end
      else
        match stop tt with Some x => Some x | None => more tt end
  end.

(** Backtracking matcher in continuation-passing style.  [prev] is the
    character before the current position, [s] the text from it on, and
    the result is the text left after the first match in priority
    order. *)
Fixpoint rmatch (ic : bool) (r : regex)
    (k : option N -> pystr -> option pystr)
    (prev : option N) (s : pystr) {struct r} : option pystr :=
  match r with
  | REps => k prev s
  | RChar cs =>
      match s with
      | c :: s' => if cset_match ic cs c then k (Some c) s' else None
      | [] => None
      end
  | RWordB => if at_boundary prev s then k prev s else None
  | RSeq a b => rmatch ic a (rmatch ic b k) prev s
  | RAlt a b =>
      match rmatch ic a k prev s with
      | Some x => Some x
      | None => rmatch ic b k prev s
      end
  | RRep greedy lo hi r' =>
      rep_loop (rmatch ic r') greedy lo hi k (S (length s)) O prev s
  end.

Definition accept : option N -> pystr -> option pystr :=
  fun _ rest => Some rest.

(** [match_at ic r prev s]: the text matched by [r] at the start of [s]
    and the text after it. *)
Definition match_at (ic : bool) (r : regex) (prev : option N) (s : pystr)
  : option (pystr * pystr) :=
  match rmatch ic r accept prev s with
  | Some rest => Some (take (length s - length rest)%nat s, rest)
  | None => None
  end.

(** [re.search]: the leftmost match, as the matched text. *)
Fixpoint search_from (ic : bool) (r : regex) (prev : option N) (s : pystr)
  : option pystr :=
  match match_at ic r prev s with
  | Some (m, _) => Some m
  | None =>
      match s with
      | [] => None
      | c :: s' => search_from ic r (Some c) s'
      end
  end.

Definition re_search (ic : bool) (r : regex) (s : pystr) : option pystr :=
  search_from ic r None s.

(** [bool(re.search(...))] *)
Definition re_found (ic : bool) (r : regex) (s : pystr) : bool :=
  match re_search ic r s with Some _ => true | None => false end.

(** [re.sub(r, repl, s)] with a literal replacement: scan left to right;
    [skip] counts the characters of the current match still to drop.  An
    empty match puts [repl] and keeps the character. *)
Fixpoint sub_from (r : regex) (repl : pystr) (skip : nat)
    (prev : option N) (s : pystr) {struct s} : pystr :=
  match skip with
  | S n =>
      match s with
      | c :: s' => sub_from r repl n (Some c) s'
      | [] => []
      end
  | O =>
      match rmatch false r accept prev s with
      | Some rest =>
          match (length s - length rest)%nat, s with
          | S n, c :: s' => repl ++ sub_from r repl n (Some c) s'
          | _, c :: s' => repl ++ c :: sub_from r repl O (Some c) s'
          | _, [] => repl
          end
      | None =>
          match s with
          | c :: s' => c :: sub_from r repl O (Some c) s'
          | [] => []
          end
      end
  end.

Definition re_sub (r : regex) (repl s : pystr) : pystr :=
  sub_from r repl O None s.

(** Pattern syntax helpers. *)
Definition chr (c : N) : regex := RChar (CLit c).
Definition lit (w : string) : regex :=
  fold_right (fun c r => RSeq (chr c) r) REps (py w).
Definition seq (rs : list regex) : regex := fold_right RSeq REps rs.
Fixpoint alts (rs : list regex) : regex :=
  match rs with
  | [] => RRep true 1 (Some O) REps     (* matches nothing *)
  | [r] => r
  | r :: rs' => RAlt r (alts rs')
  end.
Definition digit : regex := RChar CDigit.
Definition space : regex := RChar CSpace.
Definition star (r : regex) : regex := RRep true 0 None r.      (* r* *)
Definition plus (r : regex) : regex := RRep true 1 None r.      (* r+ *)
Definition opt (r : regex) : regex := RRep true 0 (Some 1%nat) r. (* r? *)
Definition lazy_star (r : regex) : regex := RRep false 0 None r. (* r*? *)
Definition rep (lo : nat) (hi : option nat) (r : regex) : regex :=
  RRep true lo hi r.                                            (* r{lo,hi} *)

End Text.

(** ** message_classifier.py *)

Inductive MessageType := OTP | TRANSACTION | BILL | SECURITY_ALERT | UNKNOWN.

#[global] Instance MessageType_eq_dec : EqDecision MessageType.
Proof. solve_decision. Defined.

(** [MessageType.value] *)
Definition MessageType_value (t : MessageType) : pystr :=
  match t with
  | OTP => py "OTP"
  | TRANSACTION => py "TRANSACTION"
  | BILL => py "BILL"
  | SECURITY_ALERT => py "SECURITY_ALERT"
  | UNKNOWN => py "UNKNOWN"
  end.

(** Values of the metadata dictionary. *)
Inductive pyval :=
| VBool (b : bool)
| VStr (s : pystr).

Record ClassificationResult := {
  message_type : MessageType;
  confidence : Q;
  metadata : list (pystr * pyval)
}.

Section Classifier.
Variable U : unicode_db.

Definition rupee : N := 8377.   (* U+20B9 *)

Definition otp_keyword : regex :=
  alts [lit "OTP"; lit "otp"; lit "code"; lit "verification";
        lit "PIN"; lit "pin"].

Definition OTP_PATTERNS : list regex :=
  [ (* \b(?:OTP|otp|code|verification|PIN|pin)\b.*?(\d{4,8})\b *)
    seq [RWordB; otp_keyword; RWordB; lazy_star (RChar CAny);
         rep 4 (Some 8%nat) digit; RWordB];
    (* \b(\d{4,8})\b.*?(?:OTP|otp|code|verification|PIN|pin)\b *)
    seq [RWordB; rep 4 (Some 8%nat) digit; RWordB; lazy_star (RChar CAny);
         otp_keyword; RWordB];
    (* \b(?:your|the)\s+(?:OTP|code|PIN)\s+(?:is|:)\s*(\d{4,8})\b *)
    seq [RWordB; alts [lit "your"; lit "the"]; plus space;
         alts [lit "OTP"; lit "code"; lit "PIN"]; plus space;
         alts [lit "is"; lit ":"]; star space;
         rep 4 (Some 8%nat) digit; RWordB] ].

(** \bXX\d+\b *)
Definition masked_account : regex :=
  seq [RWordB; lit "XX"; plus digit; RWordB].

Definition TRANSACTION_KEYWORDS : list regex :=
  [ (* \b(?:debited|credited|withdrawn|deposited|transferred)\b *)
    seq [RWordB;
         alts [lit "debited"; lit "credited"; lit "withdrawn";
               lit "deposited"; lit "transferred"];
         RWordB];
    (* \b(?:debit|credit|withdrawal|deposit|transfer)\b *)
    seq [RWordB;
         alts [lit "debit"; lit "credit"; lit "withdrawal";
               lit "deposit"; lit "transfer"];
         RWordB];
    (* \bA/c\b *)
    seq [RWordB; lit "A/c"; RWordB];
    (* \baccount\b.*?\bXX\d+\b *)
    seq [RWordB; lit "account"; RWordB; lazy_star (RChar CAny);
         masked_account];
    (* \bcard\b.*?\bXX\d+\b *)
    seq [RWordB; lit "card"; RWordB; lazy_star (RChar CAny);
         masked_account] ].

(** (?:Rs\.?|INR|₹) *)
Definition currency : regex :=
  alts [seq [lit "Rs"; opt (lit ".")]; lit "INR"; chr rupee].

(** [\d,]+(?:\.\d{2})? *)
Definition number : regex :=
  seq [plus (RChar (CUnion CDigit (CLit 44)));
       opt (seq [lit "."; rep 2 (Some 2%nat) digit])].

Definition AMOUNT_PATTERNS : list regex :=
  [ (* (?:Rs\.?|INR|₹)\s*[\d,]+(?:\.\d{2})? *)
    seq [currency; star space; number];
    (* [\d,]+(?:\.\d{2})?\s*(?:Rs\.?|INR|₹) *)
    seq [number; star space; currency] ].

Definition BILL_KEYWORDS : list regex :=
  [ (* \b(?:bill|invoice|payment|due|overdue)\b *)
    seq [RWordB;
         alts [lit "bill"; lit "invoice"; lit "payment"; lit "due";
               lit "overdue"];
         RWordB];
    (* \bpay\s+(?:by|before)\b *)
    seq [RWordB; lit "pay"; plus space; alts [lit "by"; lit "before"];
         RWordB];
    (* \bdue\s+(?:date|on)\b *)
    seq [RWordB; lit "due"; plus space; alts [lit "date"; lit "on"];
         RWordB] ].

Definition SECURITY_KEYWORDS : list regex :=
  [ (* \b(?:alert|security|suspicious|unauthorized|blocked|locked)\b *)
    seq [RWordB;
         alts [lit "alert"; lit "security"; lit "suspicious";
               lit "unauthorized"; lit "blocked"; lit "locked"];
         RWordB];
    (* \b(?:fraud|scam|phishing)\b *)
    seq [RWordB; alts [lit "fraud"; lit "scam"; lit "phishing"]; RWordB];
    (* \bnew\s+(?:device|location|login)\b *)
    seq [RWordB; lit "new"; plus space;
         alts [lit "device"; lit "location"; lit "login"]; RWordB];
    (* \b(?:verify|confirm)\s+(?:identity|account)\b *)
    seq [RWordB; alts [lit "verify"; lit "confirm"]; plus space;
         alts [lit "identity"; lit "account"]; RWordB] ].

(** \b\d{4,8}\b *)
Definition otp_digits : regex :=
  seq [RWordB; rep 4 (Some 8%nat) digit; RWordB].

Definition otp_context_words : list pystr :=
  [py "otp"; py "code"; py "verification"; py "pin"; py "password"].

Definition _check_otp (message message_lower : pystr)
  : option ClassificationResult :=
  if existsb (fun pattern => re_found U true pattern message) OTP_PATTERNS
  then
    Some {| message_type := OTP; confidence := 0.95;
            metadata := [(py "has_otp", VBool true);
                         (py "urgency", VStr (py "high"))] |}
  else if re_found U false otp_digits message
          && existsb (fun word => contains word message_lower)
               otp_context_words
  then
    Some {| message_type := OTP; confidence := 0.85;
            metadata := [(py "has_otp", VBool true);
                         (py "urgency", VStr (py "high"))] |}
  else None.

(** Number of patterns of the list found in the message (the score
    loops of the source add one per pattern found). *)
Definition count_found (ic : bool) (patterns : list regex)
    (message : pystr) : nat :=
  length (List.filter (fun pattern => re_found U ic pattern message)
            patterns).

(** The amount loop: the first pattern found sets the flag, adds one and
    breaks. *)
Definition amount_found (message : pystr) : bool :=
  existsb (fun pattern => re_found U false pattern message)
    AMOUNT_PATTERNS.

Definition _check_transaction (message message_lower : pystr)
  : option ClassificationResult :=
  let has_amount := amount_found message in
  let transaction_score :=
    (count_found true TRANSACTION_KEYWORDS message
     + (if has_amount then 1 else 0))%nat in
  if (2 <=? transaction_score)%nat then
    Some {| message_type := TRANSACTION;
            confidence := if has_amount then 0.9 else 0.75;
            metadata := [(py "has_amount", VBool has_amount);
                         (py "urgency", VStr (py "medium"))] |}
  else None.

Definition _check_security_alert (message message_lower : pystr)
  : option ClassificationResult :=
  let security_score := count_found true SECURITY_KEYWORDS message in
  if (1 <=? security_score)%nat then
    Some {| message_type := SECURITY_ALERT; confidence := 0.85;
            metadata := [(py "urgency", VStr (py "high"))] |}
  else None.

Definition _check_bill (message message_lower : pystr)
  : option ClassificationResult :=
  let has_amount := amount_found message in
  let bill_score :=
    (count_found true BILL_KEYWORDS message
     + (if has_amount then 1 else 0))%nat in
  if (2 <=? bill_score)%nat then
    Some {| message_type := BILL; confidence := 0.8;
            metadata := [(py "has_amount", VBool has_amount);
                         (py "urgency", VStr (py "low"))] |}
  else None.

Definition classify (message_body sender : pystr) : ClassificationResult :=
  let message_lower := lower U message_body in
  match _check_otp message_body message_lower with
  | Some otp_result => otp_result
  | None =>
  match _check_transaction message_body message_lower with
  | Some transaction_result => transaction_result
  | None =>
  match _check_security_alert message_body message_lower with
  | Some security_result => security_result
  | None =>
  match _check_bill message_body message_lower with
  | Some bill_result => bill_result
  | None =>
      {| message_type := UNKNOWN; confidence := 0.0;
         metadata := [(py "reason", VStr (py "No matching patterns"))] |}
  end end end end.

End Classifier.

(** ** config.py: the settings the pipeline reads *)

Record Settings := {
  whatsapp_recipient_number : pystr;
  whatsapp_template_otp : pystr;
  whatsapp_template_transaction : pystr;
  whatsapp_template_bill : pystr;
  whatsapp_template_security : pystr;
  ttl_otp : Z;
  ttl_transaction : Z;
  ttl_bill : Z;
  ttl_security : Z
}.

(** ** template_manager.py *)

(** One entry of the parameter list: [{"type": "text", "text": v}]. *)
Record template_param := { param_type : pystr; param_text : pystr }.

Definition text_param (v : pystr) : template_param :=
  {| param_type := py "text"; param_text := v |}.

Section TemplateManager.
Variable U : unicode_db.
Variable settings : Settings.

(** [self.templates.get(message_type)]: no template for UNKNOWN, which
    falls back to the OTP one. *)
Definition get_template_name (message_type : MessageType) : pystr :=
  match message_type with
  | OTP => whatsapp_template_otp settings
  | TRANSACTION => whatsapp_template_transaction settings
  | BILL => whatsapp_template_bill settings
  | SECURITY_ALERT => whatsapp_template_security settings
  | UNKNOWN => whatsapp_template_otp settings
  end.

(** \b\d{4,}\b *)
Definition large_number : regex :=
  seq [RWordB; RRep true 4 None digit; RWordB].

Definition _mask_sensitive_data (text : pystr) : pystr :=
  let masked := text in
  (* amounts *)
  let masked :=
    re_sub U (seq [currency; star space; number]) (py "Rs ****") masked in
  (* account numbers *)
  let masked := re_sub U masked_account (py "XX****") masked in
  (* standalone large numbers *)
  let masked := re_sub U large_number (py "****") masked in
  if (200 <? length masked)%nat then take 197 masked ++ py "..."
  else masked.

Definition _render_otp_params (sender message_content : pystr)
  : list template_param :=
  let otp_value :=
    match re_search U false otp_digits message_content with
    | Some digits => digits
    | None => py "******"
    end in
  [text_param sender; text_param otp_value].

Definition _render_transaction_params (sender message_content : pystr)
  : list template_param :=
  let message_lower := lower U message_content in
  let transaction_type :=
    if contains (py "debit") message_lower
       || contains (py "withdrawn") message_lower
    then py "Debit Alert"
    else if contains (py "credit") message_lower
            || contains (py "deposit") message_lower
    then py "Credit Alert"
    else py "Transaction Alert" in
  let summary := _mask_sensitive_data message_content in
  [text_param transaction_type; text_param sender; text_param summary].

Definition _render_bill_params (sender message_content : pystr)
  : list template_param :=
  let summary := _mask_sensitive_data message_content in
  [text_param sender; text_param summary].

Definition _render_security_params (sender message_content : pystr)
  : list template_param :=
  let summary :=
    if (200 <? length message_content)%nat then take 200 message_content
    else message_content in
  [text_param sender; text_param summary].

Definition _render_generic_params (sender message_content : pystr)
  : list template_param :=
  let summary :=
    if (200 <? length message_content)%nat then take 200 message_content
    else message_content in
  [text_param sender; text_param summary].

Definition render_template_params (message_type : MessageType)
    (sender message_content : pystr) : list template_param :=
  match message_type with
  | OTP => _render_otp_params sender message_content
  | TRANSACTION => _render_transaction_params sender message_content
  | BILL => _render_bill_params sender message_content
  | SECURITY_ALERT => _render_security_params sender message_content
  | UNKNOWN => _render_generic_params sender message_content
  end.

End TemplateManager.

(** ** Exceptions *)

Inductive exn :=
| ValueError (msg : pystr)
| InvalidTag                                   (* cryptography.exceptions *)
| HTTPException (status_code : Z) (detail : pystr)
| OtherException.                              (* any other Exception *)

Inductive result (A : Type) :=
| Ok (a : A)
| Raise (e : exn).
Arguments Ok {A} a.
Arguments Raise {A} e.

#[global] Instance result_ret : MRet result := @Ok.
#[global] Instance result_bind : MBind result :=
  fun A B f m => match m with Ok a => f a | Raise e => Raise e end.

(** [try: body except Exception as e: handler(e)] *)
Definition try_except {A : Type} (body : result A) (handler : exn -> result A)
  : result A :=
  match body with
  | Ok a => Ok a
  | Raise e => handler e
  end.

Definition raised {A : Type} (r : result A) : Prop :=
  match r with Ok _ => False | Raise _ => True end.

(** ** crypto_service.py *)

Abbreviation bytes := (list Byte.byte).

(** The library calls of the service, with both keys already bound. *)
Record crypto_lib := {
  (* hmac.new(self.hmac_key, payload.encode('utf-8'), sha256).hexdigest() *)
  hmac_hexdigest : pystr -> result pystr;
  (* base64.b64decode *)
  b64decode : pystr -> result bytes;
  (* self.cipher.decrypt(iv, data, None) *)
  cipher_decrypt : bytes -> bytes -> result bytes;
  (* bytes.decode('utf-8') *)
  decode_utf8 : bytes -> result pystr;
  (* hashlib.sha256(s.encode()).hexdigest() *)
  sha256_hexdigest : pystr -> result pystr
}.

(** [hmac.compare_digest] on two strings: both have to be ASCII. *)
Definition compare_digest (a b : pystr) : result bool :=
  if forallb is_ascii a && forallb is_ascii b then Ok (pystr_eqb a b)
  else Raise OtherException.

Section CryptoService.
Variable L : crypto_lib.

Definition verify_hmac (payload signature : pystr) : bool :=
  match
    expected_signature ← hmac_hexdigest L payload;
    compare_digest expected_signature signature
  with
  | Ok b => b
  | Raise _ => false
  end.

Definition decrypt_otp (encrypted_payload : pystr) : result pystr :=
  try_except
    (encrypted_data ← b64decode L encrypted_payload;
     let iv := take 12 encrypted_data in
     let ciphertext_with_tag := drop 12 encrypted_data in
     plaintext ← cipher_decrypt L iv ciphertext_with_tag;
     decode_utf8 L plaintext)
    (fun e =>
       match e with
       | InvalidTag =>
           Raise (ValueError
                    (py "Decryption failed: Invalid authentication tag"))
       | _ => Raise (ValueError (py "Decryption failed"))
       end).

Definition validate_and_decrypt (encrypted_payload hmac_signature : pystr)
  : result pystr :=
  if negb (verify_hmac encrypted_payload hmac_signature) then
    Raise (ValueError (py "HMAC verification failed"))
  else decrypt_otp encrypted_payload.

End CryptoService.

(** ** Floats

    [time.time() + ttl] adds two IEEE-754 doubles: the exact sum is
    rounded to the nearest double, ties going to the even significand.
    Doubles are kept as the rationals they denote; sums of magnitude
    2^1024 and more, which a double holds as [inf], are out of the reach
    of clock readings and are not modelled. *)

(** The nearest integer, a tie going to the even one. *)
Definition round_half_even (x : Q) : Z :=
  let f := Qfloor x in
  match Qcompare (x - inject_Z f)%Q (1 # 2)%Q with
  | Lt => f
  | Gt => (f + 1)%Z
  | Eq => if Z.even f then f else (f + 1)%Z
  end.

(** The exponent [e] with [2^e <= |x| < 2^(e+1)], for [x] other than 0. *)
Definition binade (x : Q) : Z :=
  let e := (Z.log2 (Z.abs (Qnum x)) - Z.log2 (Zpos (Qden x)))%Z in
  if Qle_bool (2 ^ e)%Q (Qabs x) then e else (e - 1)%Z.

(** The distance between neighbouring doubles around [x]: 52 bits below
    its exponent, and 2^-1074 in the subnormal range. *)
Definition ulp (x : Q) : Q := (2 ^ (Z.max (binade x) (-1022) - 52))%Q.

Definition float_round (x : Q) : Q :=
  if Qeq_bool x 0 then 0%Q
  else (inject_Z (round_half_even (x / ulp x)) * ulp x)%Q.

(** [t + ttl] for a float [t] and an int [ttl]: the int is converted to
    a float first, which changes nothing below 2^53, and config.py keeps
    every TTL at 1800 or less. *)
Definition float_add (t : Q) (ttl : Z) : Q :=
  float_round (t + inject_Z ttl)%Q.

(** ** storage_service.py *)

(** [await value] where [value] is what a method of the client built by
    [redis.from_url] returned.  That client is the synchronous one: its
    methods run the command and return a plain [int] or [bool], which is
    not awaitable, so the [await] raises TypeError; an exception of the
    command itself propagates. *)
Definition await_sync {A : Type} (returned : result A) : result A :=
  match returned with
  | Ok _ => Raise OtherException
  | Raise e => Raise e
  end.

(** A value of [memory_store]. *)
Record entry := {
  entry_sender : pystr;
  entry_message_type : pystr;
  expires_at : Q
}.

(** [redis] tells whether [self.redis] is set. *)
Record StorageService := {
  redis : bool;
  memory_store : gmap pystr entry
}.

(** What one call of [store_message] gets from outside: the readings of
    [time.time()] and what the two Redis commands return. *)
Record store_env := {
  time_exists : Q;            (* read by the sweep inside exists *)
  time_sweep : Q;             (* read by the sweep before the write *)
  time_write : Q;             (* read for expires_at *)
  redis_exists : result Z;    (* self.redis.exists(key) *)
  redis_setex : result unit   (* self.redis.setex(key, ttl, value) *)
}.

Section Storage.
Variable settings : Settings.

Definition _get_ttl_for_type (message_type : MessageType) : Z :=
  match message_type with
  | OTP => ttl_otp settings
  | TRANSACTION => ttl_transaction settings
  | BILL => ttl_bill settings
  | SECURITY_ALERT => ttl_security settings
  | UNKNOWN => ttl_otp settings
  end.

(** An entry is dropped when [current_time >= expires_at]. *)
Definition live (current_time : Q) (kd : pystr * entry) : Prop :=
  Qle_bool (expires_at kd.2) current_time = false.

#[global] Instance live_dec (current_time : Q) (kd : pystr * entry)
  : Decision (live current_time kd).
Proof. unfold live. apply _. Defined.

Definition _cleanup_expired (current_time : Q) (store : gmap pystr entry)
  : gmap pystr entry :=
  filter (live current_time) store.

(** [exists]: the answer and the service after the sweep. *)
Definition exists_ (self : StorageService) (env : store_env) (key : pystr)
  : bool * StorageService :=
  if redis self then
    match await_sync (redis_exists env) with
    | Ok n => ((0 <? n)%Z, self)
    | Raise _ => (false, self)
    end
  else
    let store := _cleanup_expired (time_exists env) (memory_store self) in
    (bool_decide (is_Some (store !! key)),
     {| redis := redis self; memory_store := store |}).

(** The dictionary written for a first-seen hash. *)
Definition new_entry (env : store_env) (sender : pystr)
    (message_type : MessageType) : entry :=
  let ttl := _get_ttl_for_type message_type in
  {| entry_sender := sender;
     entry_message_type := MessageType_value message_type;
     expires_at := float_add (time_write env) ttl |}.

(** The part of [store_message] after the duplicate check. *)
Definition write_message (self : StorageService) (env : store_env)
    (message_hash sender : pystr) (message_type : MessageType)
  : bool * StorageService :=
  if redis self then
    match await_sync (redis_setex env) with
    | Ok _ => (true, self)
    | Raise _ => (false, self)
    end
  else
    let store := _cleanup_expired (time_sweep env) (memory_store self) in
    (true,
     {| redis := redis self;
        memory_store :=
          <[message_hash := new_entry env sender message_type]> store |}).

Definition store_message (self : StorageService) (env : store_env)
    (message_hash sender : pystr) (message_type : MessageType)
  : bool * StorageService :=
  let (found, self) := exists_ self env message_hash in
  if found then (false, self)
  else write_message self env message_hash sender message_type.

End Storage.

(** ** whatsapp_service.py *)

(** The body posted to the Graph API. *)
Record whatsapp_payload := {
  payload_to : pystr;
  payload_template : pystr;
  payload_parameters : list template_param
}.

(** Outcome of the POST: a response (status code and, for a 200, the id
    read from its JSON body) or an exception (timeout or other). *)
Inductive http_outcome :=
| Response (status_code : Z) (message_id : option pystr)
| HttpRaised.

Section WhatsApp.
Variable U : unicode_db.
Variable settings : Settings.

Definition build_payload (message_content sender : pystr)
    (message_type : MessageType) : whatsapp_payload :=
  {| payload_to := whatsapp_recipient_number settings;
     payload_template := get_template_name settings message_type;
     payload_parameters :=
       render_template_params U message_type sender message_content |}.

(** [send_message]: the id returned and the body that was posted. *)
Definition send_message (post : whatsapp_payload -> http_outcome)
    (message_content sender : pystr) (message_type : MessageType)
  : option pystr * whatsapp_payload :=
  let payload := build_payload message_content sender message_type in
  (match post payload with
   | Response status_code message_id =>
       if (status_code =? 200)%Z then message_id else None
   | HttpRaised => None
   end, payload).

End WhatsApp.

(** ** models.py *)

(** models.py and message_classifier.py each declare the enumeration
    [MessageType(str, Enum)] with the same members; members of the two
    compare and hash as their string values, so one type stands for
    both.  The request's field [message_type] is [req_message_type]
    here. *)
Record EncryptedMessageRequest := {
  encrypted_payload : pystr;
  hmac_signature : pystr;
  sender : pystr;
  req_message_type : MessageType;
  timestamp : Z;
  message_hash : option pystr
}.

Record ForwardResponse := {
  success : bool;
  message : pystr;
  whatsapp_message_id : option pystr
}.

(** ** main.py *)

(** What one request gets from outside. *)
Record request_env := {
  time_request : Q;                               (* time.time() at step 1 *)
  storage_env : store_env;
  whatsapp_post : whatsapp_payload -> http_outcome
}.

(** [int(x)] of a float: truncation towards zero. *)
Definition py_int (x : Q) : Z := Z.quot (Qnum x) (Zpos (Qden x)).

(** Truth value of an [Optional[str]]. *)
Definition truthy (o : option pystr) : bool :=
  match o with
  | Some (_ :: _) => true
  | _ => false
  end.

Section Main.
Variable U : unicode_db.
Variable settings : Settings.
Variable L : crypto_lib.
(** [f"{message_type}"]; its text depends on the Python version. *)
Variable format_type : MessageType -> pystr.

Definition max_time_diff (message_type : MessageType) : Z :=
  if decide (message_type = OTP) then 300 else 600.

(** Step 1: [true] when the request goes on, [false] when it is rejected
    with the 400 response. *)
Definition timestamp_ok (current_time : Z) (message_type : MessageType)
    (timestamp : Z) : bool :=
  let time_diff := Z.abs (current_time - timestamp) in
  negb (time_diff >? max_time_diff message_type)%Z.

Definition internal_error : exn :=
  HTTPException 500 (py "Internal server error").

(** The outer handlers: an HTTPException is re-raised, any other
    exception becomes the 500 response. *)
Definition pipeline_boundary (e : exn) : exn :=
  match e with
  | HTTPException status_code detail => HTTPException status_code detail
  | _ => internal_error
  end.

(** Step 3: the type declared, or the classifier's when none is. *)
Definition effective_type (message_request : EncryptedMessageRequest)
    (decrypted_message : pystr) : MessageType :=
  if decide (req_message_type message_request = UNKNOWN)
  then message_type
         (classify U decrypted_message (sender message_request))
  else req_message_type message_request.

(** Step 4: the hash supplied, or the digest of the plaintext. *)
Definition fingerprint (message_request : EncryptedMessageRequest)
    (decrypted_message : pystr) : result pystr :=
  if truthy (message_hash message_request)
  then Ok (default [] (message_hash message_request))
  else sha256_hexdigest L decrypted_message.

(** The result, the storage service afterwards and the bodies posted to
    the outbound channel. *)
Definition forward_message (storage : StorageService) (env : request_env)
    (message_request : EncryptedMessageRequest)
  : result ForwardResponse * StorageService * list whatsapp_payload :=
  (* Step 1 *)
  let current_time := py_int (time_request env) in
  if negb (timestamp_ok current_time (req_message_type message_request)
             (timestamp message_request))
  then (Raise (HTTPException 400 (py "Request timestamp is invalid")),
        storage, [])
  else
  (* Step 2 *)
  match
    try_except
      (validate_and_decrypt L (encrypted_payload message_request)
         (hmac_signature message_request))
      (fun e =>
         match e with
         | ValueError _ =>
             Raise (HTTPException 401 (py "Authentication failed"))
         | _ => Raise e
         end)
  with
  | Raise e => (Raise (pipeline_boundary e), storage, [])
  | Ok decrypted_message =>
  (* Step 3 *)
  let message_type := effective_type message_request decrypted_message in
  (* Step 4 *)
  match fingerprint message_request decrypted_message with
  | Raise e => (Raise (pipeline_boundary e), storage, [])
  | Ok message_hash =>
  (* Step 5 *)
  let (is_new, storage) :=
    store_message settings storage (storage_env env) message_hash
      (sender message_request) message_type in
  if negb is_new then
    (Ok {| success := true;
           message := format_type message_type
                        ++ py " message already forwarded";
           whatsapp_message_id := None |},
     storage, [])
  else
  (* Step 6 *)
  let (whatsapp_message_id, posted) :=
    send_message U settings (whatsapp_post env) decrypted_message
      (sender message_request) message_type in
  if negb (truthy whatsapp_message_id) then
    (Raise (HTTPException 500 (py "Failed to send WhatsApp message")),
     storage, [posted])
  else
    (Ok {| success := true;
           message := format_type message_type
                        ++ py " message forwarded successfully";
           whatsapp_message_id := whatsapp_message_id |},
     storage, [posted])
  end end.

(** The legacy endpoint forces the type to OTP. *)
Definition forward_otp_legacy (storage : StorageService) (env : request_env)
    (message_request : EncryptedMessageRequest) :=
  forward_message storage env
    {| encrypted_payload := encrypted_payload message_request;
       hmac_signature := hmac_signature message_request;
       sender := sender message_request;
       req_message_type := OTP;
       timestamp := timestamp message_request;
       message_hash := message_hash message_request |}.

(** The request gets past steps 1 and 2 with plaintext [m]. *)
Definition authenticated (env : request_env)
    (message_request : EncryptedMessageRequest) (m : pystr) : Prop :=
  timestamp_ok (py_int (time_request env))
    (req_message_type message_request) (timestamp message_request) = true
  /\ validate_and_decrypt L (encrypted_payload message_request)
       (hmac_signature message_request) = Ok m.

End Main.

(** ** Concurrent arrivals

    Each request runs [store_message] as one task of the event loop.  A
    task gives way to the others only where an [await] suspends it, and
    [store_message] has no such place: the in-memory branch awaits only
    the coroutine [exists], which awaits nothing itself; with Redis the
    client is the synchronous one, so each command blocks the loop until
    the server has answered and the [await] of what it returned raises at
    once.  A task therefore runs the whole call in one stretch. *)

(** Where a task stands in [store_message]. *)
Inductive progress :=
| Arrived                       (* the call has not started *)
| Finished (first_seen : bool).

Record arrival := {
  arrival_hash : pystr;
  arrival_sender : pystr;
  arrival_type : MessageType
}.

Definition with_replies (env : store_env) (e : result Z) (s : result unit)
  : store_env :=
  {| time_exists := time_exists env; time_sweep := time_sweep env;
     time_write := time_write env; redis_exists := e; redis_setex := s |}.

Section Tasks.
Variable settings : Settings.

(** One stretch of a task; [env] gives the clock readings of the stretch
    and what the Redis commands return in it. *)
Definition task_step (a : arrival) (env : store_env) (self : StorageService)
    (p : progress) : StorageService * progress :=
  match p with
  | Arrived =>
      let (is_new, self) :=
        store_message settings self env (arrival_hash a)
          (arrival_sender a) (arrival_type a) in
      (self, Finished is_new)
  | Finished first_seen => (self, Finished first_seen)
  end.

(** Two tasks [a1] and [a2] on one service; the schedule says which one
    runs next ([true] for the first) and what it gets from outside. *)
Fixpoint run (a1 a2 : arrival) (schedule : list (bool * store_env))
    (self : StorageService) (p1 p2 : progress)
  : StorageService * progress * progress :=
  match schedule with
  | [] => (self, p1, p2)
  | (true, env) :: schedule' =>
      let (self', p1') := task_step a1 env self p1 in
      run a1 a2 schedule' self' p1' p2
  | (false, env) :: schedule' =>
      let (self', p2') := task_step a2 env self p2 in
      run a1 a2 schedule' self' p1 p2'
  end.

End Tasks.

(** ** Concrete instances

    Stand-ins for the outside world, used to run the definitions on
    concrete inputs. *)

(** A database that knows no digit, letter or space outside ASCII. *)
Definition ascii_only : unicode_db :=
  {| uni_isdecimal := fun _ => false;
     uni_isalnum := fun _ => false;
     uni_isspace := fun _ => false;
     uni_ignorecase_eq := fun p c => p =? c;
     uni_lower := fun s => s |}.

(** The defaults of config.py. *)
Definition default_settings : Settings :=
  {| whatsapp_recipient_number := py "1234567890";
     whatsapp_template_otp := py "otp_notification";
     whatsapp_template_transaction := py "transaction_alert";
     whatsapp_template_bill := py "bill_notification";
     whatsapp_template_security := py "security_alert";
     ttl_otp := 300;
     ttl_transaction := 600;
     ttl_bill := 900;
     ttl_security := 600 |}.

Definition byte_of_char (c : N) : Byte.byte :=
  default Byte.x00 (Byte.of_N c).

(** A toy library: the MAC of [p] is ["mac:" + p]; the transport encoding
    is the identity on ASCII; the cipher wants a 12-byte nonce and a
    ciphertext that ends in the one-byte tag ['!'], and returns what
    precedes the tag. *)
Definition toy_lib : crypto_lib :=
  {| hmac_hexdigest := fun p => Ok (py "mac:" ++ p);
     b64decode := fun s =>
       if forallb is_ascii s then Ok (List.map byte_of_char s)
       else Raise OtherException;
     cipher_decrypt := fun iv data =>
       if (length iv <? 12)%nat then Raise OtherException
       else match rev data with
            | Byte.x21 :: body => Ok (rev body)
            | _ => Raise InvalidTag
            end;
     decode_utf8 := fun b => Ok (List.map Byte.to_N b);
     sha256_hexdigest := fun s => Ok (py "sha:" ++ s) |}.

(** A request that [toy_lib] accepts, carrying [text]. *)
Definition toy_request (text : string) (message_type : MessageType)
    (timestamp : Z) (message_hash : option pystr) : EncryptedMessageRequest :=
  let payload := py "000000000000" ++ py text ++ py "!" in
  {| encrypted_payload := payload;
     hmac_signature := py "mac:" ++ payload;
     sender := py "BANK";
     req_message_type := message_type;
     timestamp := timestamp;
     message_hash := message_hash |}.

(** A call of the store at clock reading [t], the Redis server out of
    reach. *)
Definition env_at (t : Q) : store_env :=
  {| time_exists := t; time_sweep := t; time_write := t;
     redis_exists := Raise OtherException;
     redis_setex := Raise OtherException |}.

(** A request at clock reading [t], the outbound channel answering 200. *)
Definition world_at (t : Q) : request_env :=
  {| time_request := t;
     storage_env := env_at t;
     whatsapp_post := fun _ => Response 200 (Some (py "wamid.1")) |}.

(** A request at clock reading [t] with the Redis server in reach: it
    answers that the key is absent, and stores it. *)
Definition world_with_redis (t : Q) : request_env :=
  {| time_request := t;
     storage_env :=
       {| time_exists := t; time_sweep := t; time_write := t;
          redis_exists := Ok 0%Z; redis_setex := Ok tt |};
     whatsapp_post := fun _ => Response 200 (Some (py "wamid.1")) |}.

Definition memory_service (store : gmap pystr entry) : StorageService :=
  {| redis := false; memory_store := store |}.

Definition redis_service : StorageService :=
  {| redis := true; memory_store := ∅ |}.

(** [d.get(k)] on a dictionary kept as an association list. *)
Fixpoint dict_get (k : pystr) (d : list (pystr * pyval)) : option pyval :=
  match d with
  | [] => None
  | (k', v) :: d' => if pystr_eqb k k' then Some v else dict_get k d'
  end.


(** The store left by a first OTP request carrying "Your code is 1234". *)
Definition seen_once : StorageService :=
  (forward_message ascii_only default_settings toy_lib MessageType_value
     (memory_service ∅) (world_at 1000)
     (toy_request "Your code is 1234" OTP 1000 None)).1.2.

(** Two arrivals with the fingerprint "c0ffee". *)
Definition first_arrival : arrival :=
  {| arrival_hash := py "c0ffee"; arrival_sender := py "BANK";
     arrival_type := OTP |}.
Definition second_arrival : arrival :=
  {| arrival_hash := py "c0ffee"; arrival_sender := py "BANK";
     arrival_type := OTP |}.

(** The outcomes of two finished tasks: exactly one saw the fingerprint
    first. *)
Definition exactly_one_first_seen (p1 p2 : progress) : Prop :=
  match p1, p2 with
  | Finished b1, Finished b2 => b1 = negb b2
  | _, _ => False
  end.

(** Every stretch of the schedule reads the clock before [deadline], and
    the expiry stored with an entry written in it is [deadline] or
    later. *)
Definition within_ttl (settings : Settings) (a1 a2 : arrival) (deadline : Q)
    (schedule : list (bool * store_env)) : Prop :=
  Forall (fun step : bool * store_env =>
            (time_exists step.2 < deadline)%Q
            /\ (deadline
                <= float_add (time_write step.2)
                     (_get_ttl_for_type settings (arrival_type a1)))%Q
            /\ (deadline
                <= float_add (time_write step.2)
                     (_get_ttl_for_type settings (arrival_type a2)))%Q)
    schedule.

(** What holds between two stretches of a run of the in-memory store. *)
Definition handed_out (a1 : arrival) (deadline : Q) (self : StorageService)
    (p1 p2 : progress) : Prop :=
  redis self = false
  /\ ((p1 = Arrived /\ p2 = Arrived
       /\ memory_store self !! arrival_hash a1 = None)
      \/ ((exists e, memory_store self !! arrival_hash a1 = Some e
                     /\ (deadline <= expires_at e)%Q)
          /\ ((p1 = Finished true /\ p2 = Arrived)
              \/ (p1 = Arrived /\ p2 = Finished true)
              \/ (p1 = Finished true /\ p2 = Finished false)
              \/ (p1 = Finished false /\ p2 = Finished true)))).

(** Number of digits at the start of [s]. *)
Fixpoint leading_digits (U : unicode_db) (s : pystr) : nat :=
  match s with
  | c :: s' => if isdigit U c then S (leading_digits U s') else O
  | [] => O
  end.

(** Every digit of the database counts as a word character, as in
    CPython, where an alphanumeric is a letter, decimal, digit or
    numeric. *)
Definition digits_are_word (U : unicode_db) : Prop :=
  forall c, isdigit U c = true -> isword U c = true.

(** The closing word boundary of [large_number], as the continuation of
    its digit loop. *)
Definition closing (U : unicode_db) : option N -> pystr -> option pystr :=
  rmatch U false (RSeq RWordB REps) accept.

(** Where the scan of [sub_from] stands: [skip] characters of a match are
    still to drop, [prev_in] precedes the position in the text and
    [prev_out] precedes it in the output.  Either the two agree on being
    a word character, or the output ends in a placeholder and what
    follows the match is not a word character. *)
Definition scanning (U : unicode_db) (skip : nat)
    (prev_in prev_out : option N) (s : pystr) : Prop :=
  (skip = O /\ opt_isword U prev_out = opt_isword U prev_in)
  \/ (opt_isword U prev_out = false
      /\ (skip <= leading_digits U s)%nat
      /\ opt_isword U (head (drop skip s)) = false).

(** ** What a pattern matches

    A description of the matches of a pattern that leaves the order of
    preference out, and what can be read off a pattern about them. *)

(** The character before the position reached after [w]. *)
Definition prev_after (prev : option N) (w : pystr) : option N :=
  match last w with Some c => Some c | None => prev end.

Section Lang.
Variable U : unicode_db.

(** What a pattern matches, without the order of preference: [w] matches
    [r] when [prev] precedes it and [t] follows it. *)
Inductive lang : regex -> option N -> pystr -> pystr -> Prop :=
| lang_eps p t : lang REps p [] t
| lang_char cs c p t :
    cset_match U false cs c = true -> lang (RChar cs) p [c] t
| lang_wordb p t : at_boundary U p t = true -> lang RWordB p [] t
| lang_seq a b p w1 w2 t :
    lang a p w1 (w2 ++ t) -> lang b (prev_after p w1) w2 t ->
    lang (RSeq a b) p (w1 ++ w2) t
| lang_alt_l a b p w t : lang a p w t -> lang (RAlt a b) p w t
| lang_alt_r a b p w t : lang b p w t -> lang (RAlt a b) p w t
| lang_rep g lo hi r p w t :
    reps r lo hi O p w t -> lang (RRep g lo hi r) p w t
with reps : regex -> nat -> option nat -> nat -> option N -> pystr -> pystr
            -> Prop :=
| reps_stop r lo hi n p t : (lo <= n)%nat -> reps r lo hi n p [] t
| reps_more r lo hi n p w1 w2 t :
    below n hi = true -> w1 <> [] ->
    lang r p w1 (w2 ++ t) -> reps r lo hi (S n) (prev_after p w1) w2 t ->
    reps r lo hi n p (w1 ++ w2) t.

End Lang.

Scheme lang_ind' := Minimality for lang Sort Prop
  with reps_ind' := Minimality for reps Sort Prop.
Combined Scheme lang_reps_ind from lang_ind', reps_ind'.

Section Static.
Variable U : unicode_db.

(** Whether a pattern can match the empty text. *)
Fixpoint nullable (r : regex) : bool :=
  match r with
  | REps | RWordB => true
  | RChar _ => false
  | RSeq a b => nullable a && nullable b
  | RAlt a b => nullable a || nullable b
  | RRep _ lo _ _ => (lo =? 0)%nat
  end.

(** The characters a match can contain, start with and end with. *)
Fixpoint touches (r : regex) (c : N) : bool :=
  match r with
  | REps | RWordB => false
  | RChar cs => cset_match U false cs c
  | RSeq a b | RAlt a b => touches a c || touches b c
  | RRep _ _ _ r => touches r c
  end.

Fixpoint first_can (r : regex) (c : N) : bool :=
  match r with
  | REps | RWordB => false
  | RChar cs => cset_match U false cs c
  | RSeq a b => first_can a c || (nullable a && first_can b c)
  | RAlt a b => first_can a c || first_can b c
  | RRep _ _ _ r => first_can r c
  end.

Fixpoint last_can (r : regex) (c : N) : bool :=
  match r with
  | REps | RWordB => false
  | RChar cs => cset_match U false cs c
  | RSeq a b => last_can b c || (nullable b && last_can a c)
  | RAlt a b => last_can a c || last_can b c
  | RRep _ _ _ r => last_can r c
  end.

(** The pattern opens, or closes, with [\b]. *)
Fixpoint starts_b (r : regex) : bool :=
  match r with
  | RWordB => true
  | RSeq a _ => starts_b a
  | _ => false
  end.

Fixpoint ends_b (r : regex) : bool :=
  match r with
  | RWordB => true
  | RSeq a REps => ends_b a
  | RSeq _ b => ends_b b
  | _ => false
  end.

Fixpoint boundary_free (r : regex) : bool :=
  match r with
  | REps | RChar _ => true
  | RWordB => false
  | RSeq a b | RAlt a b => boundary_free a && boundary_free b
  | RRep _ _ _ r => boundary_free r
  end.

End Static.

(** ** Substitution, piece by piece *)

(** What [re.sub] does with a text, piece by piece: a character it keeps,
    or a match [m] it replaces. *)
Inductive piece :=
| Keep (c : N)
| Swap (m : pystr).

(** The text the pieces come from, and the text they are turned into. *)
Fixpoint taken (ps : list piece) : pystr :=
  match ps with
  | [] => []
  | Keep c :: ps' => c :: taken ps'
  | Swap m :: ps' => m ++ taken ps'
  end.

Fixpoint put (repl : pystr) (ps : list piece) : pystr :=
  match ps with
  | [] => []
  | Keep c :: ps' => c :: put repl ps'
  | Swap _ :: ps' => repl ++ put repl ps'
  end.

(** The pieces of a scan by [r] that starts after [prev]: where a
    character is kept [r] does not match, and a replaced [m] is what [r]
    matches there. *)
Inductive scan (U : unicode_db) (r : regex) : option N -> list piece -> Prop :=
| scan_nil p : scan U r p []
| scan_keep p c ps :
    rmatch U false r accept p (c :: taken ps) = None ->
    scan U r (Some c) ps -> scan U r p (Keep c :: ps)
| scan_swap p m ps :
    m <> [] ->
    rmatch U false r accept p (m ++ taken ps) = Some (taken ps) ->
    scan U r (prev_after p m) ps -> scan U r p (Swap m :: ps).

(** The placeholder character of the three replacements. *)
Definition star_char : N := 42.

(** A replaced match ends right before [following]; [po] is its last
    character. *)
Definition swapped_before (U : unicode_db) (r : regex) (po : option N)
    (following : pystr) : Prop :=
  exists p0 m, m <> [] /\ po = last m
    /\ rmatch U false r accept p0 (m ++ following) = Some following.

(** The characters before a position of the output ([qo]) and before the
    same position of the text ([po]): the same, or the output has the end
    of a replacement there. *)
Definition left_of (U : unicode_db) (r : regex) (qo po : option N)
    (following : pystr) : Prop :=
  qo = po \/ (qo = Some star_char /\ swapped_before U r po following).

(** A replaced match starts [s2]. *)
Definition swapped_after (U : unicode_db) (r : regex) (prev : option N)
    (s2 : pystr) : Prop :=
  exists m rest, m <> [] /\ s2 = m ++ rest
    /\ rmatch U false r accept prev (m ++ rest) = Some rest.

(** What follows a position in the output ([o2]) and in the text ([s2]):
    the same character, or the output has the start of a replacement. *)
Definition right_of (U : unicode_db) (r : regex) (repl : pystr)
    (prev : option N) (o2 s2 : pystr) : Prop :=
  head o2 = head s2
  \/ (head o2 = head repl /\ swapped_after U r prev s2).

(** Every character that [f] accepts is a word character. *)
Definition word_chars (U : unicode_db) (f : N -> bool) : Prop :=
  forall c, f c = true -> isword U c = true.

(** A pattern of the form [\b...\b] that starts and ends with a word
    character. *)
Definition bounded (U : unicode_db) (r : regex) : Prop :=
  nullable r = false /\ starts_b r = true /\ ends_b r = true
  /\ word_chars U (first_can U r) /\ word_chars U (last_can U r).

(** No match of [watched] contains the placeholder or ends with a
    character of [repl]. *)
Definition apart (U : unicode_db) (watched : regex) (repl : pystr) : Prop :=
  last repl = Some star_char
  /\ nullable watched = false
  /\ touches U watched star_char = false
  /\ Forall (fun c => last_can U watched c = false) repl.

(** The first pattern of the masking pass:
    [(?:Rs\.?|INR|\u20b9)\s*[\d,]+(?:\.\d{2})?]. *)
Definition currency_first_amount : regex :=
  seq [currency; star space; number].

(** [s] shows a currency sign, any white space, and then a digit or a
    comma. *)
Definition shows_amount (U : unicode_db) (s : pystr) : Prop :=
  exists pre sign sp c post,
    s = pre ++ sign ++ sp ++ c :: post
    /\ sign ∈ [py "Rs"; py "Rs."; py "INR"; [rupee]]
    /\ Forall (fun x => isspace U x = true) sp
    /\ (isdigit U c = true \/ c = 44).

(** [s] shows [digits] after the characters [lead], the whole standing
    between two word boundaries. *)
Definition shows_number (U : unicode_db) (lead : pystr) (least : nat)
    (s : pystr) : Prop :=
  exists pre digits post,
    s = pre ++ lead ++ digits ++ post
    /\ (least <= length digits)%nat
    /\ Forall (fun x => isdigit U x = true) digits
    /\ opt_isword U (last pre) = false
    /\ opt_isword U (head post) = false.

(** ** config.py: field constraints *)

(** The bounds [ge]/[le] declared for the four TTL fields. *)
Definition ttl_in_range (settings : Settings) : Prop :=
  (60 <= ttl_otp settings <= 600)%Z
  /\ (60 <= ttl_transaction settings <= 900)%Z
  /\ (60 <= ttl_bill settings <= 1800)%Z
  /\ (60 <= ttl_security settings <= 900)%Z.

(** A request at clock reading [t] whose POST is answered with [status]
    and no id. *)
Definition world_down (t : Q) (status : Z) : request_env :=
  {| time_request := t;
     storage_env := env_at t;
     whatsapp_post := fun _ => Response status None |}.

(** ** message_classifier.py: the results the classifier builds *)

Definition otp_metadata : list (pystr * pyval) :=
  [(py "has_otp", VBool true); (py "urgency", VStr (py "high"))].

Definition classification_results : list ClassificationResult :=
  [ {| message_type := OTP; confidence := 0.95; metadata := otp_metadata |};
    {| message_type := OTP; confidence := 0.85; metadata := otp_metadata |};
    {| message_type := TRANSACTION; confidence := 0.9;
       metadata := [(py "has_amount", VBool true);
                    (py "urgency", VStr (py "medium"))] |};
    {| message_type := TRANSACTION; confidence := 0.75;
       metadata := [(py "has_amount", VBool false);
                    (py "urgency", VStr (py "medium"))] |};
    {| message_type := SECURITY_ALERT; confidence := 0.85;
       metadata := [(py "urgency", VStr (py "high"))] |};
    {| message_type := BILL; confidence := 0.8;
       metadata := [(py "has_amount", VBool true);
                    (py "urgency", VStr (py "low"))] |};
    {| message_type := BILL; confidence := 0.8;
       metadata := [(py "has_amount", VBool false);
                    (py "urgency", VStr (py "low"))] |};
    {| message_type := UNKNOWN; confidence := 0.0;
       metadata := [(py "reason", VStr (py "No matching patterns"))] |} ].

(** ** Patterns that cannot match without a character of some kind *)

(** [must_consume U ic P r]: read off the shape of [r], every match of
    [r] consumes a character that satisfies [P]. *)
Fixpoint must_consume (U : unicode_db) (ic : bool) (P : N -> bool)
    (r : regex) : Prop :=
  match r with
  | RChar cs => forall c, cset_match U ic cs c = true -> P c = true
  | RSeq a b => must_consume U ic P a \/ must_consume U ic P b
  | RAlt a b => must_consume U ic P a /\ must_consume U ic P b
  | RRep _ lo _ r' => (1 <= lo)%nat /\ must_consume U ic P r'
  | REps | RWordB => False
  end.

(** No character of [s] satisfies [P]. *)
Definition free_of (P : N -> bool) (s : pystr) : Prop :=
  Forall (fun c => P c = false) s.

(** A continuation that fails on every text free of [P]. *)
Definition fails_without (P : N -> bool)
    (k : option N -> pystr -> option pystr) : Prop :=
  forall prev s, free_of P s -> k prev s = None.

Definition digit_or_comma (U : unicode_db) (c : N) : bool :=
  isdigit U c || (c =? 44).

(** ** config.py: validate_phone_number *)

(** [str_isdigit c] stands for [c.isdigit()] on the one-character string
    [c]; the validator keeps the characters it accepts and wants ten of
    them. *)
Definition validate_phone_number (str_isdigit : N -> bool) (v : pystr)
  : result pystr :=
  let cleaned := List.filter str_isdigit v in
  if (length cleaned <? 10)%nat then
    Raise (ValueError
             (py "Phone number must include country code and be at least 10 digits"))
  else Ok cleaned.

(** ** Health check (storage_service.py, whatsapp_service.py, main.py) *)

Record HealthResponse := {
  status : pystr;
  redis_connected : bool;
  whatsapp_api_configured : bool
}.

(** [StorageService.health_check]; [ping] is the outcome of
    [self.redis.ping()]. *)
Definition storage_health_check (self : StorageService) (ping : result unit)
  : bool :=
  if redis self then
    match ping with
    | Ok _ => true
    | Raise _ => false
    end
  else true.

(** [WhatsAppService.health_check]; [probe] is the outcome of the GET. *)
Definition whatsapp_health_check (probe : http_outcome) : bool :=
  match probe with
  | Response status_code _ => (status_code =? 200)%Z
  | HttpRaised => false
  end.

(** The /health endpoint. *)
Definition health_check (self : StorageService) (ping : result unit)
    (probe : http_outcome) : HealthResponse :=
  let redis_healthy := storage_health_check self ping in
  let whatsapp_healthy := whatsapp_health_check probe in
  {| status := if redis_healthy && whatsapp_healthy then py "healthy"
               else py "degraded";
     redis_connected := redis_healthy;
     whatsapp_api_configured := whatsapp_healthy |}.

(** * Properties *)

(** ** Replay window *)



(** A stale request stops at step 1 with the 400 response: nothing is
    decrypted, stored or posted. *)
Lemma stale_request_rejected U settings L format_type storage env request :
  timestamp_ok (py_int (time_request env)) (req_message_type request)
    (timestamp request) = false ->
  forward_message U settings L format_type storage env request
  = (Raise (HTTPException 400 (py "Request timestamp is invalid")),
     storage, []).
Proof.
  intros Hstale. unfold forward_message. rewrite Hstale. reflexivity.
Qed.

(** ** Classifier *)

Section ClassifierFacts.
Variable U : unicode_db.

Lemma _check_otp_type message message_lower r :
  _check_otp U message message_lower = Some r -> message_type r = OTP.
Proof.
  unfold _check_otp. intros H.
  destruct (existsb _ OTP_PATTERNS); [by inversion H |].
  destruct (_ && _); by inversion H.
Qed.

Lemma _check_transaction_type message message_lower r :
  _check_transaction U message message_lower = Some r ->
  message_type r = TRANSACTION.
Proof.
  unfold _check_transaction. intros H.
  destruct (2 <=? _)%nat; by inversion H.
Qed.

Lemma _check_security_alert_type message message_lower r :
  _check_security_alert U message message_lower = Some r ->
  message_type r = SECURITY_ALERT.
Proof.
  unfold _check_security_alert. intros H.
  destruct (1 <=? _)%nat; by inversion H.
Qed.

Lemma _check_bill_type message message_lower r :
  _check_bill U message message_lower = Some r -> message_type r = BILL.
Proof.
  unfold _check_bill. intros H.
  destruct (2 <=? _)%nat; by inversion H.
Qed.

End ClassifierFacts.

(** C5: the classifier tries OTP, then TRANSACTION, then SECURITY_ALERT,
    then BILL and returns the first result found: an OTP result wins
    whatever the later checks say, a transaction result needs the OTP
    check to fail, and so on; with no result the answer is UNKNOWN with
    confidence 0.0.  The message "Your OTP code is 482913, do not share"
    from "BANK" is an OTP with confidence 0.95. *)
Theorem classify_priority (U : unicode_db) (body sender : pystr) :
  let low := lower U body in
  (forall r, _check_otp U body low = Some r ->
     classify U body sender = r /\ message_type r = OTP)
  /\ (forall r, _check_otp U body low = None ->
        _check_transaction U body low = Some r ->
        classify U body sender = r /\ message_type r = TRANSACTION)
  /\ (forall r, _check_otp U body low = None ->
        _check_transaction U body low = None ->
        _check_security_alert U body low = Some r ->
        classify U body sender = r /\ message_type r = SECURITY_ALERT)
  /\ (forall r, _check_otp U body low = None ->
        _check_transaction U body low = None ->
        _check_security_alert U body low = None ->
        _check_bill U body low = Some r ->
        classify U body sender = r /\ message_type r = BILL)
  /\ (_check_otp U body low = None ->
      _check_transaction U body low = None ->
      _check_security_alert U body low = None ->
      _check_bill U body low = None ->
      message_type (classify U body sender) = UNKNOWN
      /\ confidence (classify U body sender) = 0.0%Q)
  /\ message_type
       (classify U (py "Your OTP code is 482913, do not share") (py "BANK"))
     = OTP
  /\ confidence
       (classify U (py "Your OTP code is 482913, do not share") (py "BANK"))
     = 0.95%Q.
Proof.
  intros low. unfold classify. fold low.
  split.
  { intros r H. rewrite H. eauto using _check_otp_type. }
  split.
  { intros r H1 H2. rewrite H1, H2. eauto using _check_transaction_type. }
  split.
  { intros r H1 H2 H3. rewrite H1, H2, H3.
    eauto using _check_security_alert_type. }
  split.
  { intros r H1 H2 H3 H4. rewrite H1, H2, H3, H4.
    eauto using _check_bill_type. }
  split.
  { intros H1 H2 H3 H4. rewrite H1, H2, H3, H4. split; reflexivity. }
  split; vm_compute; reflexivity.
Qed.

(** Each rank of the priority order at a message that reaches it: an OTP
    that also carries a transaction, a transaction, a security alert that
    also carries a bill, a bill, and a message nothing matches. *)
Lemma classify_priority_witness :
  (message_type
     (classify ascii_only
        (py "Your OTP is 482913 for Rs 5000 debited from A/c XX1234")
        (py "BANK")) = OTP
   /\ is_Some
        (_check_transaction ascii_only
           (py "Your OTP is 482913 for Rs 5000 debited from A/c XX1234")
           (lower ascii_only
              (py "Your OTP is 482913 for Rs 5000 debited from A/c XX1234"))))
  /\ message_type
       (classify ascii_only (py "Rs 500 debited from A/c XX12") (py "BANK"))
     = TRANSACTION
  /\ (message_type
        (classify ascii_only
           (py "Suspicious payment of Rs 500, invoice blocked") (py "BANK"))
      = SECURITY_ALERT
      /\ is_Some
           (_check_bill ascii_only
              (py "Suspicious payment of Rs 500, invoice blocked")
              (lower ascii_only
                 (py "Suspicious payment of Rs 500, invoice blocked"))))
  /\ message_type
       (classify ascii_only (py "Your bill of Rs 500 is due on Monday")
          (py "BANK")) = BILL
  /\ (message_type (classify ascii_only (py "hello world") (py "BANK"))
      = UNKNOWN
      /\ confidence (classify ascii_only (py "hello world") (py "BANK"))
         = 0.0%Q).
Proof.
  split.
  { split; [| vm_compute; eauto].
    pose proof (classify_priority ascii_only
      (py "Your OTP is 482913 for Rs 5000 debited from A/c XX1234")
      (py "BANK")) as (H & _).
    edestruct H as [-> Ht]; [vm_compute; reflexivity | exact Ht]. }
  split.
  { pose proof (classify_priority ascii_only
      (py "Rs 500 debited from A/c XX12") (py "BANK")) as (_ & H & _).
    edestruct H as [-> Ht];
      [vm_compute; reflexivity | vm_compute; reflexivity | exact Ht]. }
  split.
  { split; [| vm_compute; eauto].
    pose proof (classify_priority ascii_only
      (py "Suspicious payment of Rs 500, invoice blocked") (py "BANK"))
      as (_ & _ & H & _).
    edestruct H as [-> Ht];
      [vm_compute; reflexivity | vm_compute; reflexivity
      | vm_compute; reflexivity | exact Ht]. }
  split.
  { pose proof (classify_priority ascii_only
      (py "Your bill of Rs 500 is due on Monday") (py "BANK"))
      as (_ & _ & _ & H & _).
    edestruct H as [-> Ht];
      [vm_compute; reflexivity | vm_compute; reflexivity
      | vm_compute; reflexivity | vm_compute; reflexivity | exact Ht]. }
  pose proof (classify_priority ascii_only (py "hello world") (py "BANK"))
    as (_ & _ & _ & _ & H & _).
  apply H; vm_compute; reflexivity.
Defined.

(** ** Masking *)

(** C6: "Rs 5000 debited from A/c XX1234" classifies as TRANSACTION with
    has_amount true, and the summary rendered for it, the third parameter
    of the transaction template, holds neither "5000" nor "1234". *)
Theorem masking_example (U : unicode_db) (sender : pystr) :
  let text := py "Rs 5000 debited from A/c XX1234" in
  let summary := py "Rs **** debited from A/c XX****" in
  message_type (classify U text sender) = TRANSACTION
  /\ dict_get (py "has_amount") (metadata (classify U text sender))
     = Some (VBool true)
  /\ render_template_params U TRANSACTION sender text
     = [text_param (py "Debit Alert"); text_param sender; text_param summary]
  /\ _mask_sensitive_data U text = summary
  /\ contains (py "5000") summary = false
  /\ contains (py "1234") summary = false.
Proof.
  cbv zeta. repeat split; vm_compute; reflexivity.
Qed.

(** ** Rounded sums *)

Lemma round_half_even_near (y : Q) :
  (y - (1 # 2) <= inject_Z (round_half_even y) <= y + (1 # 2))%Q.
Proof.
  unfold round_half_even.
  pose proof (Qfloor_le y) as Hlo. pose proof (Qlt_floor y) as Hhi.
  rewrite inject_Z_plus in Hhi. change (inject_Z 1) with 1%Q in Hhi.
  destruct (Qcompare (y - inject_Z (Qfloor y)) (1 # 2)) eqn:Hc.
  - apply Qeq_alt in Hc.
    destruct (Z.even (Qfloor y));
      [| rewrite inject_Z_plus; change (inject_Z 1) with 1%Q]; split; lra.
  - apply Qlt_alt in Hc. split; lra.
  - apply Qgt_alt in Hc. rewrite inject_Z_plus.
    change (inject_Z 1) with 1%Q. split; lra.
Qed.

Lemma ulp_pos (x : Q) : (0 < ulp x)%Q.
Proof. unfold ulp. apply Qpower_0_lt. reflexivity. Qed.

(** Below 2^53 the exponent is at most 52. *)
Lemma binade_below (x : Q) :
  (0 < x)%Q -> (x < 2 ^ 53)%Q -> (binade x <= 52)%Z.
Proof.
  intros Hpos Hlt. unfold binade.
  rewrite (Qabs_pos x) by lra.
  destruct x as [n d]. cbn [Qnum Qden] in *.
  assert (Hn : (0 < n)%Z).
  { unfold Qlt in Hpos. cbn in Hpos. lia. }
  rewrite (Z.abs_eq n) by lia.
  set (a := Z.log2 n). set (b := Z.log2 (Z.pos d)).
  destruct (Qle_bool (2 ^ (a - b)) (n # d)) eqn:Hle.
  - apply Qle_bool_iff in Hle.
    assert (H : (2 ^ (a - b) < 2 ^ 53)%Q)
      by (eapply Qle_lt_trans; eassumption).
    apply Qpower_lt_compat_l_inv in H; [lia | reflexivity].
  - destruct (Z_le_gt_dec (a - b) 53) as [| Hbig]; [lia | exfalso].
    pose proof (Z.log2_spec n Hn) as [Ha _]. fold a in Ha.
    pose proof (Z.log2_spec (Z.pos d) (Pos2Z.is_pos d)) as [_ Hb].
    fold b in Hb.
    pose proof (Z.log2_nonneg (Z.pos d)) as Hb0. fold b in Hb0.
    assert (Hpow : (2 ^ 53 * 2 ^ Z.succ b <= 2 ^ a)%Z).
    { rewrite <- Z.pow_add_r by lia. apply Z.pow_le_mono_r; lia. }
    change (2 ^ 53)%Q with (9007199254740992 # 1)%Q in Hlt.
    unfold Qlt in Hlt. cbn [Qnum Qden] in Hlt.
    change (2 ^ 53)%Z with 9007199254740992%Z in Hpow.
    nia.
Qed.

(** Below 2^53 neighbouring doubles are at most 1 apart. *)
Lemma ulp_small (x : Q) : (0 < x)%Q -> (x < 2 ^ 53)%Q -> (ulp x <= 1)%Q.
Proof.
  intros Hpos Hlt. unfold ulp.
  pose proof (binade_below x Hpos Hlt).
  change 1%Q with (2 ^ 0)%Q.
  apply Qpower_le_compat_l; [lia | discriminate].
Qed.

Lemma float_round_near (x : Q) :
  (0 < x)%Q -> (x < 2 ^ 53)%Q ->
  (x - (1 # 2) <= float_round x <= x + (1 # 2))%Q.
Proof.
  intros Hpos Hlt. unfold float_round.
  destruct (Qeq_bool x 0) eqn:H0.
  { apply Qeq_bool_iff in H0. lra. }
  pose proof (ulp_pos x) as Hu. pose proof (ulp_small x Hpos Hlt) as Hu1.
  pose proof (round_half_even_near (x / ulp x)) as [Hlo Hhi].
  assert (Hx : (x / ulp x * ulp x == x)%Q) by (field; lra).
  set (u := ulp x) in *. set (r := inject_Z (round_half_even (x / u))) in *.
  set (y := (x / u)%Q) in *.
  split; nra.
Qed.

(** The sum stored is less than a second away from the exact one. *)
Lemma float_add_near (t : Q) (ttl : Z) :
  (0 < t + inject_Z ttl)%Q -> (t + inject_Z ttl < 2 ^ 53)%Q ->
  (t + inject_Z ttl - (1 # 2) <= float_add t ttl
   <= t + inject_Z ttl + (1 # 2))%Q.
Proof. apply float_round_near. Qed.

(** A sum that falls between two doubles is rounded: half a unit in the
    last place above 1300 goes down to 1300, and at 2^62, where doubles
    are 1024 apart, adding 300 changes nothing. *)
Lemma float_add_rounds :
  (float_add (1000 + 1 / 2 ^ 43) 300 == 1300)%Q
  /\ (float_add (1000 + 1 / 2 ^ 43) 60 == 1060)%Q
  /\ (float_add 1000 300 == 1300)%Q
  /\ (float_add (2 ^ 62) 300 == 2 ^ 62)%Q.
Proof. repeat split; vm_compute; reflexivity. Qed.

(** ** Deduplication store *)

Lemma live_lt (t : Q) (k : pystr) (e : entry) :
  live t (k, e) <-> (t < expires_at e)%Q.
Proof.
  unfold live. simpl. rewrite <- not_true_iff_false, Qle_bool_iff.
  split; [apply Qnot_le_lt | apply Qlt_not_le].
Qed.

Lemma cleanup_keeps (t : Q) (store : gmap pystr entry) (k : pystr) (e : entry) :
  store !! k = Some e -> (t < expires_at e)%Q ->
  _cleanup_expired t store !! k = Some e.
Proof.
  intros Hk Hlt. apply map_lookup_filter_Some_2; [done |].
  by apply live_lt.
Qed.

Lemma cleanup_drops (t : Q) (store : gmap pystr entry) (k : pystr) (e : entry) :
  store !! k = Some e -> (expires_at e <= t)%Q ->
  _cleanup_expired t store !! k = None.
Proof.
  intros Hk Hle. apply map_lookup_filter_None_2. right.
  intros x Hx Hlive. rewrite Hk in Hx. inversion Hx; subst x.
  apply live_lt in Hlive. lra.
Qed.

Lemma cleanup_absent (t : Q) (store : gmap pystr entry) (k : pystr) :
  store !! k = None -> _cleanup_expired t store !! k = None.
Proof. intros Hk. apply map_lookup_filter_None_2. by left. Qed.

Section StorageFacts.
Variable settings : Settings.

Lemma store_message_fresh store env h sender message_type :
  _cleanup_expired (time_exists env) store !! h = None ->
  store_message settings (memory_service store) env h sender message_type
  = (true,
     memory_service
       (<[h := new_entry settings env sender message_type]>
          (_cleanup_expired (time_sweep env)
             (_cleanup_expired (time_exists env) store)))).
Proof.
  intros Hnone. unfold store_message, exists_, memory_service. simpl.
  rewrite Hnone. rewrite bool_decide_eq_false_2 by (by intros [? ?]).
  reflexivity.
Qed.

Lemma store_message_seen store env h sender message_type :
  is_Some (_cleanup_expired (time_exists env) store !! h) ->
  store_message settings (memory_service store) env h sender message_type
  = (false, memory_service (_cleanup_expired (time_exists env) store)).
Proof.
  intros Hsome. unfold store_message, exists_, memory_service. simpl.
  rewrite bool_decide_eq_true_2 by done. reflexivity.
Qed.

(** With Redis configured every call answers [False]: whatever the
    commands return, awaiting it raises, and both [except] clauses turn
    the exception into [False]. *)
Lemma store_message_awaits_sync (self : StorageService) env h sender
    message_type :
  redis self = true ->
  store_message settings self env h sender message_type = (false, self).
Proof.
  intros Hredis. unfold store_message, exists_, write_message.
  rewrite Hredis.
  destruct (redis_exists env); simpl; rewrite Hredis;
    destruct (redis_setex env); reflexivity.
Qed.

End StorageFacts.

(** C7: in the in-process store, a fingerprint not yet registered is
    first seen on its first registration, which stores as its expiry the
    float sum of the time of the write and the TTL of the type; a repeated
    registration that reads the clock before that expiry is not first
    seen; and once the clock has reached the expiry a further
    registration is first seen again. *)
Theorem dedup_idempotence (settings : Settings) (store : gmap pystr entry)
    (h : pystr) (env1 env2 env3 : store_env)
    (sender1 sender2 sender3 : pystr) (type1 type2 type3 : MessageType) :
  let expiresAt :=
    float_add (time_write env1) (_get_ttl_for_type settings type1) in
  let reg1 :=
    store_message settings (memory_service store) env1 h sender1 type1 in
  let reg2 := store_message settings reg1.2 env2 h sender2 type2 in
  let reg3 := store_message settings reg2.2 env3 h sender3 type3 in
  store !! h = None ->
  (time_exists env2 < expiresAt)%Q ->
  (expiresAt <= time_exists env3)%Q ->
  reg1.1 = true
  /\ expires_at <$> memory_store reg1.2 !! h = Some expiresAt
  /\ reg2.1 = false
  /\ reg3.1 = true.
Proof.
  intros expiresAt reg1 reg2 reg3 Hnew Hsoon Hlate.
  assert (H1 : reg1 = (true,
    memory_service
      (<[h := new_entry settings env1 sender1 type1]>
         (_cleanup_expired (time_sweep env1)
            (_cleanup_expired (time_exists env1) store))))).
  { apply store_message_fresh. by apply cleanup_absent. }
  set (store1 := <[h := new_entry settings env1 sender1 type1]> _) in H1.
  assert (Hh1 : store1 !! h = Some (new_entry settings env1 sender1 type1)).
  { apply lookup_insert_eq. }
  assert (H2 : reg2 = (false,
    memory_service (_cleanup_expired (time_exists env2) store1))).
  { unfold reg2. rewrite H1. simpl. apply store_message_seen.
    exists (new_entry settings env1 sender1 type1).
    apply cleanup_keeps; [done | exact Hsoon]. }
  assert (H3 : reg3.1 = true).
  { unfold reg3. rewrite H2. simpl. rewrite store_message_fresh; [done |].
    eapply cleanup_drops;
      [apply cleanup_keeps; [done | exact Hsoon] | exact Hlate]. }
  rewrite H1, H2. simpl. rewrite Hh1. by repeat split.
Qed.

Lemma dedup_idempotence_witness :
  let reg1 :=
    store_message default_settings (memory_service ∅) (env_at 1000)
      (py "ab12") (py "BANK") OTP in
  let reg2 :=
    store_message default_settings reg1.2 (env_at 1001) (py "ab12")
      (py "BANK") OTP in
  let reg3 :=
    store_message default_settings reg2.2 (env_at 1300) (py "ab12")
      (py "BANK") OTP in
  reg1.1 = true
  /\ expires_at <$> memory_store reg1.2 !! py "ab12"
     = Some (float_add 1000 300)
  /\ reg2.1 = false
  /\ reg3.1 = true.
Proof.
  apply (dedup_idempotence default_settings ∅ (py "ab12")
           (env_at 1000) (env_at 1001) (env_at 1300)).
  - apply lookup_empty.
  - vm_compute. reflexivity.
  - vm_compute. discriminate.
Defined.

(** ** Pipeline *)

Section PipelineFacts.
Variable U : unicode_db.
Variable settings : Settings.
Variable L : crypto_lib.
Variable format_type : MessageType -> pystr.

(** What is left of the pipeline once steps 1 to 4 are through. *)
Lemma forward_message_authenticated storage env request m h :
  authenticated L env request m ->
  fingerprint L request m = Ok h ->
  forward_message U settings L format_type storage env request
  = let message_type := effective_type U request m in
    let (is_new, storage') :=
      store_message settings storage (storage_env env) h (sender request)
        message_type in
    if negb is_new then
      (Ok {| success := true;
             message := format_type message_type
                          ++ py " message already forwarded";
             whatsapp_message_id := None |},
       storage', [])
    else
      let (whatsapp_message_id, posted) :=
        send_message U settings (whatsapp_post env) m (sender request)
          message_type in
      if negb (truthy whatsapp_message_id) then
        (Raise (HTTPException 500 (py "Failed to send WhatsApp message")),
         storage', [posted])
      else
        (Ok {| success := true;
               message := format_type message_type
                            ++ py " message forwarded successfully";
               whatsapp_message_id := whatsapp_message_id |},
         storage', [posted]).
Proof.
  intros [Hfresh Hcrypto] Hhash. unfold forward_message.
  rewrite Hfresh, Hcrypto. simpl. rewrite Hhash. reflexivity.
Qed.

(** A first-seen message is handed to the outbound channel, rendered
    under its effective type. *)
Lemma forward_message_first_seen storage env request m h storage' :
  authenticated L env request m ->
  fingerprint L request m = Ok h ->
  store_message settings storage (storage_env env) h (sender request)
    (effective_type U request m) = (true, storage') ->
  (forward_message U settings L format_type storage env request).2
  = [build_payload U settings m (sender request)
       (effective_type U request m)]
  /\ (forward_message U settings L format_type storage env request).1.2
     = storage'.
Proof.
  intros Hadm Hhash Hstore.
  rewrite (forward_message_authenticated _ _ _ _ _ Hadm Hhash).
  cbv zeta. rewrite Hstore. simpl.
  unfold send_message.
  destruct (negb (truthy _)); simpl; by split.
Qed.

(** A duplicate ends the request at step 5. *)
Lemma forward_message_duplicate storage env request m h storage' :
  authenticated L env request m ->
  fingerprint L request m = Ok h ->
  store_message settings storage (storage_env env) h (sender request)
    (effective_type U request m) = (false, storage') ->
  forward_message U settings L format_type storage env request
  = (Ok {| success := true;
           message := format_type (effective_type U request m)
                        ++ py " message already forwarded";
           whatsapp_message_id := None |},
     storage', []).
Proof.
  intros Hadm Hhash Hdup.
  rewrite (forward_message_authenticated _ _ _ _ _ Hadm Hhash).
  cbv zeta. rewrite Hdup. reflexivity.
Qed.

End PipelineFacts.

(** C8: when the registration of step 5 reports a duplicate, the request
    ends with the response success = true, message "<type> message already
    forwarded" and no message id, and nothing is posted to the outbound
    channel. *)
Theorem duplicate_is_noop (U : unicode_db) (settings : Settings)
    (L : crypto_lib) (format_type : MessageType -> pystr)
    (storage storage' : StorageService) (env : request_env)
    (request : EncryptedMessageRequest) (m h : pystr) :
  authenticated L env request m ->
  fingerprint L request m = Ok h ->
  store_message settings storage (storage_env env) h (sender request)
    (effective_type U request m) = (false, storage') ->
  forward_message U settings L format_type storage env request
  = (Ok {| success := true;
           message := format_type (effective_type U request m)
                        ++ py " message already forwarded";
           whatsapp_message_id := None |},
     storage', []).
Proof.
  apply forward_message_duplicate.
Qed.

Lemma duplicate_is_noop_witness :
  forward_message ascii_only default_settings toy_lib MessageType_value
    seen_once (world_at 1010)
    (toy_request "Your code is 1234" OTP 1005 None)
  = (Ok {| success := true;
           message := py "OTP message already forwarded";
           whatsapp_message_id := None |},
     memory_service (memory_store seen_once), []).
Proof.
  apply (duplicate_is_noop ascii_only default_settings toy_lib
           MessageType_value seen_once
           (memory_service (memory_store seen_once)) (world_at 1010)
           (toy_request "Your code is 1234" OTP 1005 None)
           (py "Your code is 1234") (py "sha:Your code is 1234")).
  - split; vm_compute; reflexivity.
  - vm_compute; reflexivity.
  - vm_compute; reflexivity.
Defined.

(** C2: with Redis configured, let the write of step 5 fail while the
    existence check fails too or finds nothing.  [store_message] then
    returns [False], and the request ends with the response success = true,
    "<type> message already forwarded": the message is reported as handled
    although it was neither stored nor posted. *)
Theorem storage_failure_reported_as_duplicate (U : unicode_db)
    (settings : Settings) (L : crypto_lib)
    (format_type : MessageType -> pystr) (store : gmap pystr entry)
    (env : request_env) (request : EncryptedMessageRequest) (m h : pystr) :
  let storage := {| redis := true; memory_store := store |} in
  authenticated L env request m ->
  fingerprint L request m = Ok h ->
  raised (redis_exists (storage_env env))
  \/ redis_exists (storage_env env) = Ok 0%Z ->
  raised (redis_setex (storage_env env)) ->
  store_message settings storage (storage_env env) h (sender request)
    (effective_type U request m) = (false, storage)
  /\ forward_message U settings L format_type storage env request
     = (Ok {| success := true;
              message := format_type (effective_type U request m)
                           ++ py " message already forwarded";
              whatsapp_message_id := None |},
        storage, []).
Proof.
  intros storage Hadm Hhash Hexists Hsetex.
  assert (Hstore :
    store_message settings storage (storage_env env) h (sender request)
      (effective_type U request m) = (false, storage)).
  { by apply store_message_awaits_sync. }
  split; [exact Hstore |].
  by apply forward_message_duplicate with (h := h).
Qed.

Lemma storage_failure_reported_as_duplicate_witness :
  store_message default_settings redis_service (env_at 1000)
    (py "sha:Rs 5000 debited from A/c XX1234") (py "BANK") TRANSACTION
  = (false, redis_service)
  /\ forward_message ascii_only default_settings toy_lib MessageType_value
       redis_service (world_at 1000)
       (toy_request "Rs 5000 debited from A/c XX1234" UNKNOWN 1000 None)
     = (Ok {| success := true;
              message := py "TRANSACTION message already forwarded";
              whatsapp_message_id := None |},
        redis_service, []).
Proof.
  apply (storage_failure_reported_as_duplicate ascii_only default_settings
           toy_lib MessageType_value ∅ (world_at 1000)
           (toy_request "Rs 5000 debited from A/c XX1234" UNKNOWN 1000 None)
           (py "Rs 5000 debited from A/c XX1234")
           (py "sha:Rs 5000 debited from A/c XX1234")).
  - split; vm_compute; reflexivity.
  - vm_compute; reflexivity.
  - left. exact I.
  - exact I.
Defined.

(** ** Caller-supplied hash *)

Lemma fingerprint_supplied L request m h :
  message_hash request = Some h -> h <> [] ->
  fingerprint L request m = Ok h.
Proof.
  intros Hh Hne. unfold fingerprint. rewrite Hh.
  destruct h; [done | reflexivity].
Qed.

(** With the in-memory store, a supplied messageHash is the fingerprint
    registered, as it stands, and is never compared with a hash of the
    plaintext.  Of two authenticated requests with the same supplied hash,
    whatever their plaintexts [m1] and [m2], the first is posted and the
    second, when it reads the clock before the expiry stored by the first,
    is answered as a duplicate.  Of two authenticated requests with one
    plaintext and distinct supplied hashes, both are posted.  With a
    supplied hash the outcome does not depend on the digest function at
    all. *)
Theorem supplied_hash_is_fingerprint (U : unicode_db) (settings : Settings)
    (L : crypto_lib) (format_type : MessageType -> pystr)
    (store : gmap pystr entry) (env1 env2 : request_env)
    (request1 request2 : EncryptedMessageRequest) (m1 m2 h1 h2 : pystr) :
  let forward := forward_message U settings L format_type in
  let out1 := forward (memory_service store) env1 request1 in
  let out2 := forward out1.1.2 env2 request2 in
  let type1 := effective_type U request1 m1 in
  let type2 := effective_type U request2 m2 in
  authenticated L env1 request1 m1 ->
  authenticated L env2 request2 m2 ->
  message_hash request1 = Some h1 -> h1 <> [] ->
  message_hash request2 = Some h2 -> h2 <> [] ->
  store !! h1 = None ->
  store !! h2 = None ->
  (time_exists (storage_env env2)
   < float_add (time_write (storage_env env1))
       (_get_ttl_for_type settings type1))%Q ->
  (fingerprint L request1 m1 = Ok h1 /\ fingerprint L request2 m2 = Ok h2)
  /\ (h1 = h2 ->
     out1.2 = [build_payload U settings m1 (sender request1) type1]
     /\ out2.1.1
        = Ok {| success := true;
                message := format_type type2
                             ++ py " message already forwarded";
                whatsapp_message_id := None |}
     /\ out2.2 = [])
  /\ (h1 <> h2 -> m1 = m2 ->
        out1.2 = [build_payload U settings m1 (sender request1) type1]
        /\ out2.2 = [build_payload U settings m2 (sender request2) type2])
  /\ (forall digest,
        forward_message U settings
          {| hmac_hexdigest := hmac_hexdigest L;
             b64decode := b64decode L;
             cipher_decrypt := cipher_decrypt L;
             decode_utf8 := decode_utf8 L;
             sha256_hexdigest := digest |}
          format_type (memory_service store) env1 request1
        = out1).
Proof.
  intros forward out1 out2 type1 type2 Hadm1 Hadm2 Hh1 Hne1 Hh2 Hne2
    Hnew1 Hnew2 Hsoon.
  pose proof (fingerprint_supplied L request1 m1 h1 Hh1 Hne1) as Hf1.
  pose proof (fingerprint_supplied L request2 m2 h2 Hh2 Hne2) as Hf2.
  set (store1 :=
         <[h1 := new_entry settings (storage_env env1) (sender request1)
                   type1]>
           (_cleanup_expired (time_sweep (storage_env env1))
              (_cleanup_expired (time_exists (storage_env env1)) store))).
  assert (Hreg1 :
    store_message settings (memory_service store) (storage_env env1) h1
      (sender request1) type1 = (true, memory_service store1)).
  { apply store_message_fresh. by apply cleanup_absent. }
  destruct (forward_message_first_seen U settings L format_type _ _ _ _ _ _
              Hadm1 Hf1 Hreg1) as [Hposted1 Hstore1].
  fold forward in Hposted1, Hstore1. fold out1 in Hposted1, Hstore1.
  split; [by split |]. split; [| split].
  - intros <-. split; [exact Hposted1 |].
    assert (Hreg2 :
      store_message settings out1.1.2 (storage_env env2) h1
        (sender request2) type2
      = (false,
         memory_service
           (_cleanup_expired (time_exists (storage_env env2)) store1))).
    { rewrite Hstore1. apply store_message_seen.
      eexists. apply cleanup_keeps; [apply lookup_insert_eq | exact Hsoon]. }
    unfold out2, forward.
    rewrite (forward_message_duplicate U settings L format_type _ _ _ _ _ _
               Hadm2 Hf2 Hreg2).
    by split.
  - intros Hdiff _. split; [exact Hposted1 |].
    assert (Hreg2 :
      store_message settings out1.1.2 (storage_env env2) h2
        (sender request2) type2
      = (true,
         memory_service
           (<[h2 := new_entry settings (storage_env env2) (sender request2)
                      type2]>
              (_cleanup_expired (time_sweep (storage_env env2))
                 (_cleanup_expired (time_exists (storage_env env2))
                    store1))))).
    { rewrite Hstore1. apply store_message_fresh. apply cleanup_absent.
      unfold store1. rewrite lookup_insert_ne by done.
      by do 2 apply cleanup_absent. }
    unfold out2, forward.
    by destruct (forward_message_first_seen U settings L format_type _ _ _
                   _ _ _ Hadm2 Hf2 Hreg2) as [-> _].
  - intros digest. unfold out1, forward, forward_message, fingerprint.
    rewrite Hh1. destruct h1; [done |]. reflexivity.
Qed.

Lemma supplied_hash_is_fingerprint_witness :
  (* one supplied hash, two plaintexts: the second is a duplicate *)
  (let out1 :=
     forward_message ascii_only default_settings toy_lib MessageType_value
       (memory_service ∅) (world_at 1000)
       (toy_request "Rs 5000 debited from A/c XX1234" TRANSACTION 1000
          (Some (py "c0ffee"))) in
   (forward_message ascii_only default_settings toy_lib MessageType_value
      out1.1.2 (world_at 1001)
      (toy_request "Your code is 1234" OTP 1001 (Some (py "c0ffee")))).2
   = [])
  (* one plaintext, two supplied hashes: both are posted *)
  /\ (let out1 :=
        forward_message ascii_only default_settings toy_lib
          MessageType_value (memory_service ∅) (world_at 1000)
          (toy_request "Your code is 1234" OTP 1000 (Some (py "c0ffee"))) in
      (forward_message ascii_only default_settings toy_lib
         MessageType_value out1.1.2 (world_at 1001)
         (toy_request "Your code is 1234" OTP 1001 (Some (py "decaf")))).2
      = [build_payload ascii_only default_settings (py "Your code is 1234")
           (py "BANK") OTP]).
Proof.
  split.
  - refine (proj2 (proj2 (proj1 (proj2
      (supplied_hash_is_fingerprint ascii_only default_settings toy_lib
         MessageType_value ∅ (world_at 1000) (world_at 1001)
         (toy_request "Rs 5000 debited from A/c XX1234" TRANSACTION 1000
            (Some (py "c0ffee")))
         (toy_request "Your code is 1234" OTP 1001 (Some (py "c0ffee")))
         (py "Rs 5000 debited from A/c XX1234") (py "Your code is 1234")
         (py "c0ffee") (py "c0ffee") _ _ _ _ _ _ _ _ _)) eq_refl)));
      try (split; vm_compute; reflexivity);
      try reflexivity; try discriminate.
  - refine (proj2 (proj1 (proj2 (proj2
      (supplied_hash_is_fingerprint ascii_only default_settings toy_lib
         MessageType_value ∅ (world_at 1000) (world_at 1001)
         (toy_request "Your code is 1234" OTP 1000 (Some (py "c0ffee")))
         (toy_request "Your code is 1234" OTP 1001 (Some (py "decaf")))
         (py "Your code is 1234") (py "Your code is 1234")
         (py "c0ffee") (py "decaf") _ _ _ _ _ _ _ _ _))) _ eq_refl));
      try (split; vm_compute; reflexivity);
      try reflexivity; try discriminate.
Defined.



(** ** Authentication failures *)

Section CryptoFacts.
Variable L : crypto_lib.

Lemma decrypt_otp_raises payload e :
  decrypt_otp L payload = Raise e ->
  e = ValueError (py "Decryption failed: Invalid authentication tag")
  \/ e = ValueError (py "Decryption failed").
Proof.
  unfold decrypt_otp, try_except.
  destruct (_ ≫= _) as [s | e']; [discriminate |].
  destruct e'; intros H; inversion H; auto.
Qed.

Lemma verify_hmac_true payload signature :
  verify_hmac L payload signature = true ->
  hmac_hexdigest L payload = Ok signature.
Proof.
  unfold verify_hmac. destruct (hmac_hexdigest L payload) as [x | e];
    simpl; [| discriminate].
  unfold compare_digest. destruct (_ && _); [| discriminate].
  unfold pystr_eqb. intros H. apply bool_decide_eq_true in H. by subst.
Qed.

Lemma verify_hmac_false payload signature :
  hmac_hexdigest L payload <> Ok signature ->
  verify_hmac L payload signature = false.
Proof.
  intros Hne. destruct (verify_hmac L payload signature) eqn:Hv; [| done].
  by apply verify_hmac_true in Hv.
Qed.

Lemma validate_and_decrypt_raises payload signature e :
  validate_and_decrypt L payload signature = Raise e ->
  e = ValueError (py "HMAC verification failed")
  \/ e = ValueError (py "Decryption failed: Invalid authentication tag")
  \/ e = ValueError (py "Decryption failed").
Proof.
  unfold validate_and_decrypt.
  destruct (negb _).
  - intros H. inversion H. auto.
  - intros H. apply decrypt_otp_raises in H. tauto.
Qed.

End CryptoFacts.

(** C3 (as the code has it): every failure of decrypt and of
    verifyAndDecrypt is a ValueError, and step 2 of the pipeline answers
    each of them with the one response 401 "Authentication failed",
    leaving the store untouched and posting nothing.  The ValueError
    itself still names its cause: "HMAC verification failed",
    "Decryption failed: Invalid authentication tag" or "Decryption
    failed".  A signature other than the one accepted for the payload, or
    a payload whose MAC is not the signature, fails with the ValueError
    "HMAC verification failed". *)
Theorem authentication_failure_kind (U : unicode_db) (settings : Settings)
    (L : crypto_lib) (format_type : MessageType -> pystr)
    (payload signature : pystr) :
  (forall e, validate_and_decrypt L payload signature = Raise e ->
     exists cause, e = ValueError cause
       /\ cause ∈ [py "HMAC verification failed";
                   py "Decryption failed: Invalid authentication tag";
                   py "Decryption failed"])
  /\ (forall e, decrypt_otp L payload = Raise e ->
        exists cause, e = ValueError cause
          /\ cause ∈ [py "Decryption failed: Invalid authentication tag";
                      py "Decryption failed"])
  /\ (forall m signature',
        validate_and_decrypt L payload signature = Ok m ->
        signature' <> signature ->
        validate_and_decrypt L payload signature'
        = Raise (ValueError (py "HMAC verification failed")))
  /\ (forall payload',
        hmac_hexdigest L payload' <> Ok signature ->
        validate_and_decrypt L payload' signature
        = Raise (ValueError (py "HMAC verification failed")))
  /\ (forall storage env request,
        encrypted_payload request = payload ->
        hmac_signature request = signature ->
        timestamp_ok (py_int (time_request env)) (req_message_type request)
          (timestamp request) = true ->
        raised (validate_and_decrypt L payload signature) ->
        forward_message U settings L format_type storage env request
        = (Raise (HTTPException 401 (py "Authentication failed")),
           storage, [])).
Proof.
  split; [| split; [| split; [| split]]].
  - intros e He. apply validate_and_decrypt_raises in He.
    destruct He as [-> | [-> | ->]]; eexists; (split; [reflexivity |]);
      set_solver.
  - intros e He. apply decrypt_otp_raises in He.
    destruct He as [-> | ->]; eexists; (split; [reflexivity |]); set_solver.
  - intros m signature' Hok Hne. unfold validate_and_decrypt in *.
    destruct (verify_hmac L payload signature) eqn:Hv; [| discriminate].
    apply verify_hmac_true in Hv.
    rewrite verify_hmac_false; [reflexivity |]. congruence.
  - intros payload' Hne. unfold validate_and_decrypt.
    by rewrite verify_hmac_false.
  - intros storage env request Hp Hs Hfresh Hraised.
    unfold forward_message. rewrite Hfresh, Hp, Hs. simpl.
    destruct (validate_and_decrypt L payload signature) as [m | e] eqn:Hv;
      [done |].
    apply validate_and_decrypt_raises in Hv.
    by destruct Hv as [-> | [-> | ->]].
Qed.

(** A tampered signature, then a tampered payload, on a request the toy
    library accepts. *)
Lemma authentication_failure_kind_witness :
  validate_and_decrypt toy_lib (py "000000000000Your code is 1234!")
    (py "mac:000000000000Your code is 1235!")
  = Raise (ValueError (py "HMAC verification failed"))
  /\ validate_and_decrypt toy_lib (py "000000000000Your code is 1235!")
       (py "mac:000000000000Your code is 1234!")
     = Raise (ValueError (py "HMAC verification failed"))
  /\ forward_message ascii_only default_settings toy_lib MessageType_value
       (memory_service ∅) (world_at 1000)
       {| encrypted_payload := py "000000000000Your code is 1234!";
          hmac_signature := py "mac:000000000000Your code is 1234?";
          sender := py "BANK"; req_message_type := OTP;
          timestamp := 1000; message_hash := None |}
     = (Raise (HTTPException 401 (py "Authentication failed")),
        memory_service ∅, []).
Proof.
  split; [| split].
  - refine (proj1 (proj2 (proj2
      (authentication_failure_kind ascii_only default_settings toy_lib
         MessageType_value (py "000000000000Your code is 1234!")
         (py "mac:000000000000Your code is 1234!"))))
      (py "Your code is 1234") _ _ _);
      [vm_compute; reflexivity | discriminate].
  - refine (proj1 (proj2 (proj2 (proj2
      (authentication_failure_kind ascii_only default_settings toy_lib
         MessageType_value (py "000000000000Your code is 1234!")
         (py "mac:000000000000Your code is 1234!")))))
      (py "000000000000Your code is 1235!") _).
    vm_compute. discriminate.
  - refine (proj2 (proj2 (proj2 (proj2
      (authentication_failure_kind ascii_only default_settings toy_lib
         MessageType_value (py "000000000000Your code is 1234!")
         (py "mac:000000000000Your code is 1234?")))))
      (memory_service ∅) (world_at 1000)
      {| encrypted_payload := py "000000000000Your code is 1234!";
         hmac_signature := py "mac:000000000000Your code is 1234?";
         sender := py "BANK"; req_message_type := OTP;
         timestamp := 1000; message_hash := None |}
      eq_refl eq_refl _ _);
      [vm_compute; reflexivity | vm_compute; exact I].
Defined.

(** The errors the caller of the crypto service gets are not one: a
    wrong signature, a wrong tag and a short nonce give three different
    ValueErrors. *)
Lemma authentication_causes_differ :
  let wrong_mac :=
    validate_and_decrypt toy_lib (py "000000000000Your code is 1234!")
      (py "mac:") in
  let wrong_tag :=
    validate_and_decrypt toy_lib (py "000000000000Your code is 1234")
      (py "mac:000000000000Your code is 1234") in
  let short_nonce :=
    validate_and_decrypt toy_lib (py "0000!") (py "mac:0000!") in
  wrong_mac = Raise (ValueError (py "HMAC verification failed"))
  /\ wrong_tag
     = Raise (ValueError (py "Decryption failed: Invalid authentication tag"))
  /\ short_nonce = Raise (ValueError (py "Decryption failed"))
  /\ wrong_mac <> wrong_tag
  /\ wrong_tag <> short_nonce
  /\ wrong_mac <> short_nonce
  /\ decrypt_otp toy_lib (py "000000000000Your code is 1234")
     <> decrypt_otp toy_lib (py "0000!").
Proof.
  cbv zeta. repeat split; vm_compute; (reflexivity || discriminate).
Qed.

(** ** No stand-alone digit run survives the third substitution *)

Section DigitRuns.
Variable U : unicode_db.
Hypothesis sane : digits_are_word U.

Lemma closing_eq prev s :
  closing U prev s = if at_boundary U prev s then Some s else None.
Proof. reflexivity. Qed.

Lemma digit_loop s : forall fuel n prev,
  (length s < fuel)%nat ->
  n = O \/ opt_isword U prev = true ->
  rep_loop (rmatch U false digit) true 4 None (closing U) fuel n prev s
  = if (4 <=? n + leading_digits U s)%nat
       && negb (opt_isword U (head (drop (leading_digits U s) s)))
    then Some (drop (leading_digits U s) s) else None.
Proof.
  induction s as [| c s IH]; intros fuel n prev Hfuel Hprev.
  - destruct fuel as [| fuel]; [simpl in Hfuel; lia |].
    cbn [rep_loop below rmatch digit leading_digits drop head opt_isword
         negb].
    rewrite Nat.add_0_r, andb_true_r.
    destruct (4 <=? n)%nat eqn:Hn; [| reflexivity].
    rewrite closing_eq. unfold at_boundary. cbn [head opt_isword].
    destruct Hprev as [-> | ->]; [discriminate | reflexivity].
  - destruct fuel as [| fuel]; [simpl in Hfuel; lia |].
    simpl in Hfuel.
    cbn [rep_loop below rmatch digit cset_match leading_digits].
    destruct (isdigit U c) eqn:Hc.
    + assert (Hlt : (length s <? length (c :: s))%nat = true)
        by (apply Nat.ltb_lt; simpl; lia).
      rewrite Hlt.
      rewrite IH by (first [lia | right; simpl; by apply sane]).
      rewrite Nat.add_succ_r. cbn [drop].
      destruct (_ && _); [reflexivity |].
      destruct (4 <=? n)%nat eqn:Hn; [| reflexivity].
      rewrite closing_eq. unfold at_boundary. cbn [head opt_isword].
      destruct Hprev as [-> | ->]; [discriminate |].
      by rewrite (sane c Hc).
    + rewrite Nat.add_0_r. cbn [drop head opt_isword].
      destruct (4 <=? n)%nat eqn:Hn; [| reflexivity].
      rewrite closing_eq. unfold at_boundary. cbn [head opt_isword].
      destruct Hprev as [-> | ->]; [discriminate |].
      simpl. by destruct (isword U c).
Qed.

(** What [large_number] matches at a position: a whole run of at least
    four digits between two non-word neighbours. *)
Lemma large_number_match prev s :
  rmatch U false large_number accept prev s
  = if at_boundary U prev s
       && (4 <=? leading_digits U s)%nat
       && negb (opt_isword U (head (drop (leading_digits U s) s)))
    then Some (drop (leading_digits U s) s) else None.
Proof.
  change (rmatch U false large_number accept prev s)
    with (if at_boundary U prev s
          then rep_loop (rmatch U false digit) true 4 None (closing U)
                 (S (length s)) O prev s
          else None).
  destruct (at_boundary U prev s); [| reflexivity].
  rewrite digit_loop by (first [lia | by left]).
  reflexivity.
Qed.


Lemma leading_digits_le s : (leading_digits U s <= length s)%nat.
Proof.
  induction s as [| c s IH]; simpl; [lia |].
  destruct (isdigit U c); simpl; lia.
Qed.

Lemma large_number_needs_digit prev c s :
  isdigit U c = false ->
  rmatch U false large_number accept prev (c :: s) = None.
Proof.
  intros Hc. rewrite large_number_match. cbn [leading_digits].
  rewrite Hc. by rewrite andb_false_r.
Qed.

Lemma large_number_nil prev :
  rmatch U false large_number accept prev [] = None.
Proof. rewrite large_number_match. by rewrite andb_false_r. Qed.

Lemma search_from_cons r prev c s :
  rmatch U false r accept prev (c :: s) = None ->
  search_from U false r (Some c) s = None ->
  search_from U false r prev (c :: s) = None.
Proof.
  intros Hhere Hlater. cbn [search_from]. unfold match_at.
  by rewrite Hhere.
Qed.

Lemma search_from_nil r prev :
  rmatch U false r accept prev [] = None ->
  search_from U false r prev [] = None.
Proof.
  intros Hhere. cbn [search_from]. unfold match_at. by rewrite Hhere.
Qed.

(** After a word character the digits that follow are kept, up to and
    including the character that ends the run. *)
Lemma digits_after_word_kept s : forall prev,
  opt_isword U prev = true ->
  let out := sub_from U large_number (py "****") O prev s in
  leading_digits U out = leading_digits U s
  /\ opt_isword U (head (drop (leading_digits U out) out))
     = opt_isword U (head (drop (leading_digits U s) s)).
Proof.
  induction s as [| c s IH]; intros prev Hprev.
  - cbn [sub_from]. by rewrite large_number_nil.
  - assert (Hnone : rmatch U false large_number accept prev (c :: s) = None).
    { destruct (isdigit U c) eqn:Hc.
      - rewrite large_number_match. unfold at_boundary.
        cbn [head opt_isword]. rewrite Hprev. cbn [opt_isword] in Hprev.
        by rewrite (sane c Hc).
      - by apply large_number_needs_digit. }
    cbn [sub_from]. rewrite Hnone. cbn [leading_digits].
    destruct (isdigit U c) eqn:Hc; [| done].
    destruct (IH (Some c)) as [Hlen Hhead]; [by apply sane |].
    cbn zeta in Hlen, Hhead. rewrite Hlen. cbn [drop].
    rewrite Hlen in Hhead. by split.
Qed.

(** The substitution of [large_number] leaves no match of it, whatever
    the position the scan has reached. *)
Lemma sub_from_clears s : forall skip prev_in prev_out,
  scanning U skip prev_in prev_out s ->
  search_from U false large_number prev_out
    (sub_from U large_number (py "****") skip prev_in s) = None.
Proof.
  induction s as [| c s IH]; intros skip prev_in prev_out Hscan.
  - assert (Hout : sub_from U large_number (py "****") skip prev_in [] = []).
    { destruct skip; [| reflexivity]. cbn [sub_from].
      by rewrite large_number_nil. }
    rewrite Hout. apply search_from_nil, large_number_nil.
  - destruct skip as [| skip].
    + (* at a position of the scan *)
      cbn [sub_from]. rewrite large_number_match.
      destruct (_ && _ && _) eqn:Hmatch.
      * (* a match starts here *)
        apply andb_true_iff in Hmatch as [Hmatch Hafter].
        apply andb_true_iff in Hmatch as [_ Hfour].
        apply Nat.leb_le in Hfour. apply negb_true_iff in Hafter.
        rewrite length_drop.
        pose proof (leading_digits_le (c :: s)) as Hle.
        replace (length (c :: s)
                 - (length (c :: s) - leading_digits U (c :: s)))%nat
          with (leading_digits U (c :: s)) by lia.
        cbn [leading_digits] in *.
        destruct (isdigit U c) eqn:Hc; [| lia].
        change (py "****") with [42; 42; 42; 42]. cbn [app].
        do 4 (apply search_from_cons;
              [by apply large_number_needs_digit |]).
        apply IH. right. split; [reflexivity |]. split; [lia | exact Hafter].
      * (* no match: the character is kept *)
        apply search_from_cons; [| apply IH; by left].
        destruct (isdigit U c) eqn:Hc;
          [| by apply large_number_needs_digit].
        destruct (digits_after_word_kept s (Some c)) as [Hlen Hhead];
          [by apply sane |].
        cbn zeta in Hlen, Hhead.
        rewrite large_number_match. cbn [leading_digits]. rewrite Hc.
        cbn [leading_digits] in Hmatch. rewrite Hc in Hmatch.
        cbn [drop] in *. rewrite Hlen at 1. rewrite Hhead.
        destruct Hscan as [[_ Hsync] | (_ & _ & Hhd)].
        -- unfold at_boundary in *. cbn [head] in *.
           rewrite Hsync. by rewrite Hmatch.
        -- cbn [drop head opt_isword] in Hhd.
           rewrite (sane c Hc) in Hhd. discriminate.
    + (* inside a match *)
      destruct Hscan as [[Hskip _] | (Hout & Hdigits & Hafter)];
        [discriminate |].
      cbn [sub_from]. apply IH. right.
      cbn [leading_digits] in Hdigits.
      destruct (isdigit U c); [| lia].
      split; [done |]. split; [lia | exact Hafter].
Qed.

Lemma re_sub_large_number_clears s :
  re_search U false large_number (re_sub U large_number (py "****") s)
  = None.
Proof. apply sub_from_clears. by left. Qed.

End DigitRuns.

(** ** What a pattern matches *)

Lemma prev_after_nil p : prev_after p [] = p.
Proof. reflexivity. Qed.

Lemma prev_after_app p w1 w2 :
  prev_after (prev_after p w1) w2 = prev_after p (w1 ++ w2).
Proof.
  unfold prev_after. destruct w2 as [| c w2] using rev_ind.
  - by rewrite app_nil_r.
  - rewrite app_assoc, !last_snoc. done.
Qed.

Lemma prev_after_cons p c w : prev_after p (c :: w) = prev_after (Some c) w.
Proof. apply (eq_sym (prev_after_app p [c] w)). Qed.

Section Matcher.
Variable U : unicode_db.

Lemma rep_loop_sound r lo hi g k
    (IH : forall k p s x, rmatch U false r k p s = Some x ->
          exists w t, s = w ++ t /\ lang U r p w t
                      /\ k (prev_after p w) t = Some x) :
  forall fuel n p s x,
    rep_loop (rmatch U false r) g lo hi k fuel n p s = Some x ->
    exists w t, s = w ++ t /\ reps U r lo hi n p w t
                /\ k (prev_after p w) t = Some x.
Proof.
  induction fuel as [| fuel IHf]; intros n p s x H; [discriminate |].
  cbn [rep_loop] in H.
  set (more := if below n hi then _ else None) in H.
  set (stop := if (lo <=? n)%nat then _ else None) in H.
  assert (Hstop : stop = Some x ->
    exists w t, s = w ++ t /\ reps U r lo hi n p w t
                /\ k (prev_after p w) t = Some x).
  { unfold stop. destruct (lo <=? n)%nat eqn:Hlo; [| discriminate].
    intros Hk. exists [], s. split; [done |]. split; [| done].
    constructor. by apply Nat.leb_le. }
  assert (Hmore : more = Some x ->
    exists w t, s = w ++ t /\ reps U r lo hi n p w t
                /\ k (prev_after p w) t = Some x).
  { unfold more. destruct (below n hi) eqn:Hb; [| discriminate]. intros Hm.
    apply IH in Hm as (w1 & t1 & -> & Hl & Hk).
    destruct (length t1 <? length (w1 ++ t1))%nat eqn:Hlen; [| discriminate].
    apply Nat.ltb_lt in Hlen.
    apply IHf in Hk as (w2 & t & -> & Hi & Hk).
    exists (w1 ++ w2), t. split; [by rewrite app_assoc |].
    split; [| by rewrite <- prev_after_app].
    constructor; [done | | done | done].
    intros ->. simpl in Hlen. lia. }
  destruct g.
  - destruct more; [apply Hmore; by inversion H | by apply Hstop].
  - destruct stop; [apply Hstop; by inversion H | by apply Hmore].
Qed.

Lemma rmatch_sound r : forall k p s x,
  rmatch U false r k p s = Some x ->
  exists w t, s = w ++ t /\ lang U r p w t /\ k (prev_after p w) t = Some x.
Proof.
  induction r as [| cs | | a IHa b IHb | a IHa b IHb | g lo hi r IHr];
    intros k p s x H; cbn [rmatch] in H.
  - exists [], s. split; [done |]. split; [constructor | done].
  - destruct s as [| c s]; [discriminate |].
    destruct (cset_match U false cs c) eqn:Hc; [| discriminate].
    exists [c], s. split; [done |]. split; [by constructor | done].
  - destruct (at_boundary U p s) eqn:Hb; [| discriminate].
    exists [], s. split; [done |]. split; [by constructor | done].
  - apply IHa in H as (w1 & t1 & -> & Ha & H).
    apply IHb in H as (w2 & t & -> & Hb & H).
    exists (w1 ++ w2), t. split; [by rewrite app_assoc |].
    split; [by constructor | by rewrite <- prev_after_app].
  - destruct (rmatch U false a k p s) eqn:Ha.
    + inversion H; subst. apply IHa in Ha as (w & t & -> & Hl & Hk).
      exists w, t. split; [done |]. split; [by apply lang_alt_l | done].
    + apply IHb in H as (w & t & -> & Hl & Hk).
      exists w, t. split; [done |]. split; [by apply lang_alt_r | done].
  - apply (rep_loop_sound r lo hi g k IHr) in H as (w & t & -> & Hi & Hk).
    exists w, t. split; [done |]. split; [by constructor | done].
Qed.

(** What [accept] returns is what follows the match. *)
Lemma rmatch_accept_sound r p s rest :
  rmatch U false r accept p s = Some rest ->
  exists w, s = w ++ rest /\ lang U r p w rest.
Proof.
  intros H. apply rmatch_sound in H as (w & t & -> & Hl & Hk).
  inversion Hk; subst. eauto.
Qed.

Lemma rmatch_complete :
  (forall r p w t, lang U r p w t ->
     forall k, k (prev_after p w) t <> None ->
       rmatch U false r k p (w ++ t) <> None)
  /\ (forall r lo hi n p w t, reps U r lo hi n p w t ->
        forall g k fuel, (length (w ++ t) < fuel)%nat ->
          k (prev_after p w) t <> None ->
          rep_loop (rmatch U false r) g lo hi k fuel n p (w ++ t) <> None).
Proof.
  apply lang_reps_ind.
  - intros p t k Hk. exact Hk.
  - intros cs c p t Hc k Hk. cbn [rmatch app]. by rewrite Hc.
  - intros p t Hb k Hk. cbn [rmatch app]. by rewrite Hb.
  - intros a b p w1 w2 t _ IHa _ IHb k Hk. cbn [rmatch].
    rewrite <- app_assoc. apply IHa. apply IHb.
    by rewrite prev_after_app.
  - intros a b p w t _ IHa k Hk. cbn [rmatch].
    specialize (IHa k Hk). by destruct (rmatch U false a k p (w ++ t)).
  - intros a b p w t _ IHb k Hk. cbn [rmatch].
    specialize (IHb k Hk). by destruct (rmatch U false a k p (w ++ t)).
  - intros g lo hi r p w t _ IH k Hk. cbn [rmatch]. apply IH; [lia | done].
  - intros r lo hi n p t Hlo g k fuel Hfuel Hk.
    destruct fuel as [| fuel]; [lia |]. cbn [rep_loop app].
    apply Nat.leb_le in Hlo. rewrite Hlo.
    destruct g.
    + by destruct (if below n hi then _ else None).
    + cbn [prev_after last] in Hk. by destruct (k p t).
  - intros r lo hi n p w1 w2 t Hb Hne _ IHl _ IHi g k fuel Hfuel Hk.
    destruct fuel as [| fuel]; [lia |]. cbn [rep_loop]. rewrite Hb.
    assert (Hmore :
      rmatch U false r
        (fun p' s' =>
           if (length s' <? length ((w1 ++ w2) ++ t))%nat
           then rep_loop (rmatch U false r) g lo hi k fuel (S n) p' s'
           else None) p ((w1 ++ w2) ++ t) <> None).
    { assert (Hlen : (length (w2 ++ t) < length ((w1 ++ w2) ++ t))%nat).
      { rewrite <- app_assoc, (length_app w1). destruct w1; [done |].
        simpl. lia. }
      remember (length ((w1 ++ w2) ++ t)) as total.
      rewrite <- (app_assoc w1 w2 t). apply IHl.
      apply Nat.ltb_lt in Hlen as Hlen'. rewrite Hlen'.
      apply IHi; [lia |]. by rewrite prev_after_app. }
    destruct g.
    + by destruct (rmatch U false r _ p ((w1 ++ w2) ++ t)).
    + by destruct (if (lo <=? n)%nat then _ else None).
Qed.

Lemma rmatch_accept_complete r p w t :
  lang U r p w t -> rmatch U false r accept p (w ++ t) <> None.
Proof. intros H. by apply (proj1 rmatch_complete). Qed.

End Matcher.

Section StaticFacts.
Variable U : unicode_db.

Lemma lang_nullable :
  (forall r p w t, lang U r p w t -> w = [] -> nullable r = true)
  /\ (forall r lo hi n p w t, reps U r lo hi n p w t ->
        w = [] -> (lo <= n)%nat).
Proof.
  apply lang_reps_ind; try done.
  - intros a b p w1 w2 t _ IHa _ IHb H.
    apply app_eq_nil in H as [-> ->]. simpl. by rewrite IHa, IHb.
  - intros a b p w t _ IH H. simpl. by rewrite IH.
  - intros a b p w t _ IH H. simpl. rewrite IH by done. apply orb_true_r.
  - intros g lo hi r p w t _ IH H. simpl. apply Nat.eqb_eq.
    specialize (IH H). lia.
  - intros r lo hi n p w1 w2 t _ Hne _ _ _ _ H.
    by apply app_eq_nil in H as [-> _].
Qed.

Lemma lang_nonempty r p w t :
  lang U r p w t -> nullable r = false -> w <> [].
Proof.
  intros Hl Hn ->. apply (proj1 lang_nullable) in Hl; [| done]. congruence.
Qed.

Lemma lang_touches :
  (forall r p w t, lang U r p w t -> Forall (fun c => touches U r c = true) w)
  /\ (forall r lo hi n p w t, reps U r lo hi n p w t ->
        Forall (fun c => touches U r c = true) w).
Proof.
  apply lang_reps_ind; try (intros; by constructor).
  - intros a b p w1 w2 t _ IHa _ IHb. apply Forall_app. split.
    + eapply Forall_impl; [exact IHa |]. simpl. intros c ->. done.
    + eapply Forall_impl; [exact IHb |]. simpl. intros c ->.
      apply orb_true_r.
  - intros a b p w t _ IH. eapply Forall_impl; [exact IH |].
    simpl. intros c ->. done.
  - intros a b p w t _ IH. eapply Forall_impl; [exact IH |].
    simpl. intros c ->. apply orb_true_r.
  - intros g lo hi r p w t _ IH. exact IH.
  - intros r lo hi n p w1 w2 t _ _ _ IHl _ IHi. by apply Forall_app.
Qed.

Lemma lang_first :
  (forall r p w t, lang U r p w t ->
     forall c, head w = Some c -> first_can U r c = true)
  /\ (forall r lo hi n p w t, reps U r lo hi n p w t ->
        forall c, head w = Some c -> first_can U r c = true).
Proof.
  apply lang_reps_ind; try done.
  - intros cs c p t Hc c' H. inversion H; subst. done.
  - intros a b p w1 w2 t Ha IHa _ IHb c H. simpl.
    destruct w1 as [| c1 w1].
    + apply (proj1 lang_nullable) in Ha; [| done]. rewrite Ha.
      rewrite (IHb c H). apply orb_true_r.
    + rewrite (IHa c H). done.
  - intros a b p w t _ IH c H. simpl. by rewrite (IH c H).
  - intros a b p w t _ IH c H. simpl. rewrite (IH c H). apply orb_true_r.
  - intros r lo hi n p w1 w2 t _ Hne _ IHl _ _ c H.
    destruct w1 as [| c1 w1]; [done |]. by apply IHl.
Qed.

Lemma lang_last :
  (forall r p w t, lang U r p w t ->
     forall c, last w = Some c -> last_can U r c = true)
  /\ (forall r lo hi n p w t, reps U r lo hi n p w t ->
        forall c, last w = Some c -> last_can U r c = true).
Proof.
  apply lang_reps_ind; try done.
  - intros cs c p t Hc c' H. inversion H; subst. done.
  - intros a b p w1 w2 t _ IHa Hb IHb c H. simpl.
    destruct w2 as [| c2 w2] using rev_ind.
    + apply (proj1 lang_nullable) in Hb; [| done]. rewrite Hb.
      rewrite app_nil_r in H. rewrite (IHa c H). apply orb_true_r.
    + rewrite app_assoc, last_snoc in H. rewrite IHb; [done |].
      by rewrite last_snoc.
  - intros a b p w t _ IH c H. simpl. by rewrite (IH c H).
  - intros a b p w t _ IH c H. simpl. rewrite (IH c H). apply orb_true_r.
  - intros r lo hi n p w1 w2 t _ Hne _ IHl _ IHi c H.
    destruct w2 as [| c2 w2] using rev_ind.
    + rewrite app_nil_r in H. by apply IHl.
    + rewrite app_assoc, last_snoc in H. apply IHi. by rewrite last_snoc.
Qed.

Lemma lang_starts_b r p w t :
  lang U r p w t -> starts_b r = true -> at_boundary U p (w ++ t) = true.
Proof.
  induction 1; try done.
  intros Hs. simpl in Hs. rewrite <- app_assoc. by apply IHlang1.
Qed.

Lemma lang_ends_b r p w t :
  lang U r p w t -> ends_b r = true ->
  at_boundary U (prev_after p w) t = true.
Proof.
  induction 1; try done.
  intros He. simpl in He. destruct b.
  - inversion H0; subst. rewrite app_nil_r. by apply IHlang1.
  - rewrite <- prev_after_app. by apply IHlang2.
  - rewrite <- prev_after_app. by apply IHlang2.
  - rewrite <- prev_after_app. by apply IHlang2.
  - rewrite <- prev_after_app. by apply IHlang2.
  - rewrite <- prev_after_app. by apply IHlang2.
Qed.

Lemma opt_isword_prev_after p p' w :
  opt_isword U p' = opt_isword U p ->
  opt_isword U (prev_after p' w) = opt_isword U (prev_after p w).
Proof. intros H. unfold prev_after. by destruct (last w). Qed.

Lemma opt_isword_head_app (w t t' : pystr) :
  opt_isword U (head t') = opt_isword U (head t) ->
  opt_isword U (head (w ++ t')) = opt_isword U (head (w ++ t)).
Proof. intros H. by destruct w. Qed.

(** A match sees of its context only whether the neighbouring characters
    are word characters. *)
Lemma lang_context :
  (forall r p w t, lang U r p w t ->
     forall p' t', opt_isword U p' = opt_isword U p ->
       opt_isword U (head t') = opt_isword U (head t) ->
       lang U r p' w t')
  /\ (forall r lo hi n p w t, reps U r lo hi n p w t ->
        forall p' t', opt_isword U p' = opt_isword U p ->
          opt_isword U (head t') = opt_isword U (head t) ->
          reps U r lo hi n p' w t').
Proof.
  apply lang_reps_ind; try (intros; by constructor).
  - intros p t Hb p' t' Hp Ht. constructor.
    unfold at_boundary in *. by rewrite Hp, Ht.
  - intros a b p w1 w2 t _ IHa _ IHb p' t' Hp Ht. constructor.
    + apply IHa; [done | by apply opt_isword_head_app].
    + apply IHb; [by apply opt_isword_prev_after | done].
  - intros a b p w t _ IH p' t' Hp Ht. apply lang_alt_l. by apply IH.
  - intros a b p w t _ IH p' t' Hp Ht. apply lang_alt_r. by apply IH.
  - intros g lo hi r p w t _ IH p' t' Hp Ht. constructor. by apply IH.
  - intros r lo hi n p w1 w2 t Hb Hne _ IHl _ IHi p' t' Hp Ht.
    constructor; [done | done | |].
    + apply IHl; [done | by apply opt_isword_head_app].
    + apply IHi; [by apply opt_isword_prev_after | done].
Qed.

(** Without [\b] in it, a pattern does not see its context at all. *)
Lemma lang_boundary_free :
  (forall r p w t, lang U r p w t ->
     boundary_free r = true -> forall p' t', lang U r p' w t')
  /\ (forall r lo hi n p w t, reps U r lo hi n p w t ->
        boundary_free r = true -> forall p' t', reps U r lo hi n p' w t').
Proof.
  apply lang_reps_ind; try (intros; by constructor); try done.
  - intros a b p w1 w2 t _ IHa _ IHb H p' t'. simpl in H.
    apply andb_true_iff in H as [Ha Hb]. constructor; auto.
  - intros a b p w t _ IH H p' t'. simpl in H.
    apply andb_true_iff in H as [Ha Hb]. apply lang_alt_l. auto.
  - intros a b p w t _ IH H p' t'. simpl in H.
    apply andb_true_iff in H as [Ha Hb]. apply lang_alt_r. auto.
  - intros g lo hi r p w t _ IH H p' t'. constructor. auto.
  - intros r lo hi n p w1 w2 t Hb Hne _ IHl _ IHi H p' t'.
    constructor; auto.
Qed.

End StaticFacts.

(** ** Substitution, piece by piece *)

Lemma prev_after_last (p : option N) (m : pystr) :
  m <> [] -> prev_after p m = last m.
Proof.
  intros Hne. unfold prev_after. destruct (last m) eqn:H; [done |].
  by apply last_None in H.
Qed.

Section Search.
Variable U : unicode_db.

Lemma search_from_none r : forall s p,
  search_from U false r p s = None
  <-> forall s1 s2, s = s1 ++ s2 ->
        rmatch U false r accept (prev_after p s1) s2 = None.
Proof.
  induction s as [| c s IH]; intros p.
  - split.
    + intros H s1 s2 Hs. symmetry in Hs. apply app_eq_nil in Hs as [-> ->].
      cbn [search_from] in H. unfold match_at in H. rewrite prev_after_nil.
      by destruct (rmatch U false r accept p []).
    + intros H. apply search_from_nil. by apply (H [] []).
  - split.
    + intros H s1 s2 Hs. cbn [search_from] in H. unfold match_at in H.
      destruct (rmatch U false r accept p (c :: s)) eqn:Hm; [done |].
      destruct s1 as [| c1 s1].
      * simpl in Hs. subst s2. rewrite prev_after_nil. exact Hm.
      * inversion Hs; subst. rewrite prev_after_cons.
        by apply (proj1 (IH (Some c1)) H).
    + intros H. apply search_from_cons.
      * by apply (H [] (c :: s)).
      * apply IH. intros s1 s2 ->. rewrite <- (prev_after_cons p).
        by apply (H (c :: s1) s2).
Qed.

End Search.

Section Scan.
Variable U : unicode_db.
Variable r : regex.
Variable repl : pystr.
Hypothesis r_consumes : nullable r = false.

Lemma sub_from_skip : forall m rest p,
  sub_from U r repl (length m) p (m ++ rest)
  = sub_from U r repl O (prev_after p m) rest.
Proof.
  induction m as [| c m IH]; intros rest p.
  - reflexivity.
  - cbn [length app sub_from]. rewrite IH. by rewrite prev_after_cons.
Qed.

Lemma sub_from_scan : forall n s p, (length s <= n)%nat ->
  exists ps, taken ps = s /\ scan U r p ps
             /\ sub_from U r repl O p s = put repl ps.
Proof.
  induction n as [| n IH]; intros s p Hn.
  { destruct s; [| simpl in Hn; lia]. exists []. split; [done |].
    split; [constructor |]. cbn [sub_from].
    destruct (rmatch U false r accept p []) as [rest |] eqn:Hm; [| done].
    apply rmatch_accept_sound in Hm as (w & Hw & Hl).
    symmetry in Hw. apply app_eq_nil in Hw as [-> ->].
    by apply lang_nonempty in Hl. }
  destruct s as [| c s].
  { apply (IH [] p). simpl. lia. }
  simpl in Hn. cbn [sub_from].
  destruct (rmatch U false r accept p (c :: s)) as [rest |] eqn:Hm.
  - apply rmatch_accept_sound in Hm as Hw. destruct Hw as (m & Hs & Hl).
    pose proof (lang_nonempty U r p m rest Hl r_consumes) as Hne.
    destruct m as [| c' m]; [done |]. inversion Hs; subst c' s.
    destruct (IH rest (prev_after p (c :: m))) as (ps & Hps & Hscan & Hsub).
    { rewrite length_app in Hn. lia. }
    exists (Swap (c :: m) :: ps). cbn [taken put]. rewrite Hps.
    split; [done |]. split.
    + constructor; [done | by rewrite Hps | done].
    + replace (length (c :: m ++ rest) - length rest)%nat
        with (S (length m)) by (cbn [length]; rewrite length_app; lia).
      rewrite sub_from_skip, <- (prev_after_cons p). by rewrite Hsub.
  - destruct (IH s (Some c)) as (ps & Hps & Hscan & Hsub); [lia |].
    exists (Keep c :: ps). cbn [taken put]. rewrite Hps.
    split; [done |]. split; [constructor; [by rewrite Hps | done] |].
    by rewrite Hsub.
Qed.

End Scan.

Section Splice.
Variable U : unicode_db.
Variable r : regex.
Variable repl : pystr.
Hypothesis repl_star : last repl = Some star_char.

Lemma prev_after_repl (q : option N) : prev_after q repl = Some star_char.
Proof. unfold prev_after. by rewrite repl_star. Qed.

(** A text without the placeholder that does not end in a character of
    the replacement cannot start where a replacement starts. *)
Lemma window_clash (l rest w o2 : pystr) :
  last l = Some star_char -> l ⊆ repl ->
  l ++ rest = w ++ o2 -> w <> [] ->
  star_char ∉ w -> (forall c, last w = Some c -> c ∉ repl) -> False.
Proof.
  intros Hl Hsub Heq Hne Hstar Hlast.
  apply app_eq_app in Heq as [l' [[-> ->] | [-> ->]]].
  - destruct (last w) as [c |] eqn:Hw; [| by apply last_None in Hw].
    apply (Hlast c eq_refl). apply Hsub.
    apply elem_of_app. left. by apply last_Some_elem_of.
  - apply Hstar. apply elem_of_app. left. by apply last_Some_elem_of.
Qed.

Lemma scan_right p ps :
  scan U r p ps -> right_of U r repl p (put repl ps) (taken ps).
Proof.
  intros Hscan. inversion Hscan as [| ? c ps' | ? m ps' Hne Hm]; subst.
  - by left.
  - by left.
  - right. cbn [put taken]. split.
    + destruct repl; [done | done].
    + exists m, (taken ps'). done.
Qed.

Lemma splice_prefix : forall w ps p o2,
  scan U r p ps -> put repl ps = w ++ o2 ->
  star_char ∉ w -> (forall c, last w = Some c -> c ∉ repl) ->
  exists s2, taken ps = w ++ s2
             /\ right_of U r repl (prev_after p w) o2 s2.
Proof.
  induction w as [| x w IH]; intros ps p o2 Hscan Hput Hstar Hlast.
  { exists (taken ps). split; [done |]. simpl in Hput. subst o2.
    by apply scan_right. }
  inversion Hscan as [| ? c ps' Hm Hs | ? m ps' Hne Hm Hs]; subst.
  - discriminate.
  - cbn [put] in Hput. inversion Hput; subst.
    destruct (IH ps' (Some x) o2 Hs) as (s2 & Htaken & Hright).
    + done.
    + intros Hin. apply Hstar. by right.
    + intros c Hc. apply Hlast. destruct w; [done | done].
    + exists s2. cbn [taken]. rewrite Htaken. split; [done |].
      by rewrite prev_after_cons.
  - cbn [put] in Hput. exfalso.
    by apply (window_clash repl (put repl ps') (x :: w) o2).
Qed.

Lemma splice : forall ps p q o1 w o2,
  scan U r p ps -> put repl ps = o1 ++ w ++ o2 -> w <> [] ->
  star_char ∉ w -> (forall c, last w = Some c -> c ∉ repl) ->
  left_of U r q p (taken ps) ->
  exists s1 s2,
    taken ps = s1 ++ w ++ s2
    /\ rmatch U false r accept (prev_after p s1) (w ++ s2) = None
    /\ left_of U r (prev_after q o1) (prev_after p s1) (w ++ s2)
    /\ right_of U r repl (prev_after (prev_after p s1) w) o2 s2.
Proof.
  induction ps as [| [c | m] ps IH];
    intros p q o1 w o2 Hscan Hput Hne Hstar Hlast Hleft.
  - cbn [put] in Hput. symmetry in Hput.
    apply app_eq_nil in Hput as [_ Hput]. by apply app_eq_nil in Hput as [? _].
  - inversion Hscan as [| ? ? ? Hm Hs |]; subst.
    cbn [put taken] in *. destruct o1 as [| y o1].
    + destruct w as [| x w]; [done |]. inversion Hput; subst.
      destruct (splice_prefix w ps (Some x) o2 Hs) as (s2 & Htaken & Hright).
      * done.
      * intros Hin. apply Hstar. by right.
      * intros c Hc. apply Hlast. destruct w; [done | done].
      * exists [], s2. rewrite Htaken in *. cbn [app] in *.
        rewrite !prev_after_nil. split; [done |]. split; [done |].
        split; [done |]. by rewrite prev_after_cons.
    + inversion Hput; subst.
      destruct (IH (Some y) (Some y) o1 w o2 Hs) as (s1 & s2 & Ht & Hk & Hl & Hr);
        [done | done | done | done | by left |].
      exists (y :: s1), s2. rewrite Ht, !prev_after_cons. done.
  - inversion Hscan as [| | ? ? ? Hm0 Hm Hs]; subst.
    cbn [put taken] in *.
    apply app_eq_app in Hput as [l [[Hrepl Hrest] | [Ho1 Hrest]]].
    + destruct l as [| z l].
      * rewrite app_nil_r in Hrepl. subst o1. cbn [app] in Hrest.
        destruct (IH (prev_after p m) (Some star_char) [] w o2 Hs)
          as (s1 & s2 & Ht & Hk & Hl & Hr); [done | done | done | done | |].
        { right. split; [done |]. exists p, m.
          split; [done |]. split; [by apply prev_after_last | done]. }
        exists (m ++ s1), s2. rewrite Ht, <- !prev_after_app, <- app_assoc.
        rewrite prev_after_repl. rewrite prev_after_nil in Hl. done.
      * exfalso.
        apply (window_clash (z :: l) (put repl ps) w o2); try done.
        -- rewrite Hrepl in repl_star.
           by rewrite last_app_cons in repl_star.
        -- rewrite Hrepl. intros x Hx. apply elem_of_app. by right.
    + subst o1.
      destruct (IH (prev_after p m) (Some star_char) l w o2 Hs)
        as (s1 & s2 & Ht & Hk & Hl & Hr); [done | done | done | done | |].
      { right. split; [done |]. exists p, m.
        split; [done |]. split; [by apply prev_after_last | done]. }
      exists (m ++ s1), s2. rewrite Ht, <- !prev_after_app, <- app_assoc.
      rewrite prev_after_repl. done.
Qed.

End Splice.

Section Transfer.
Variable U : unicode_db.
Variables r watched : regex.
Variable repl : pystr.
Hypothesis r_consumes : nullable r = false.
Hypothesis Hapart : apart U watched repl.

(** A match of [watched] in the output is a text without placeholder
    that does not end in a character of the replacement. *)
Lemma window q o rest :
  rmatch U false watched accept q o = Some rest ->
  exists w, o = w ++ rest /\ lang U watched q w rest /\ w <> []
            /\ (star_char ∉ w) /\ (forall c, last w = Some c -> c ∉ repl).
Proof.
  destruct Hapart as (_ & Hnull & Hstar & Hlast).
  intros Hm. apply rmatch_accept_sound in Hm as (w & -> & Hl).
  exists w. split; [done |]. split; [done |].
  split; [by eapply lang_nonempty |]. split.
  - intros Hin. apply (proj1 (lang_touches U)) in Hl.
    rewrite Forall_forall in Hl. apply Hl in Hin. congruence.
  - intros c Hc Hin. apply (proj1 (lang_last U) _ _ _ _ Hl) in Hc.
    rewrite Forall_forall in Hlast. apply Hlast in Hin. congruence.
Qed.

(** [watched] has no [\b]: a match of it in the output stands at a kept
    character of the text and matches there too. *)
Lemma transfer_free p ps :
  boundary_free watched = true ->
  scan U r p ps ->
  (forall s1 s2, taken ps = s1 ++ s2 ->
     rmatch U false r accept (prev_after p s1) s2 = None ->
     rmatch U false watched accept (prev_after p s1) s2 = None) ->
  forall q, search_from U false watched q (put repl ps) = None.
Proof.
  intros Hfree Hscan Hkept q. apply search_from_none. intros o1 o Hput.
  destruct (rmatch U false watched accept (prev_after q o1) o)
    as [rest |] eqn:Hm; [exfalso | done].
  apply window in Hm as (w & -> & Hl & Hne & Hstar & Hlast).
  destruct (splice U r repl (proj1 Hapart) ps p p o1 w rest)
    as (s1 & s2 & Htaken & Hk & _ & _); [done.. | by left |].
  specialize (Hkept s1 (w ++ s2) Htaken Hk).
  eapply rmatch_accept_complete; [| exact Hkept].
  eapply (proj1 (lang_boundary_free U)); eassumption.
Qed.

(** [watched] and [r] are both of the form [\b...\b]. *)
Lemma transfer_bounded p ps :
  bounded U watched -> bounded U r ->
  scan U r p ps ->
  (forall s1 s2, taken ps = s1 ++ s2 ->
     rmatch U false r accept (prev_after p s1) s2 = None ->
     rmatch U false watched accept (prev_after p s1) s2 = None) ->
  search_from U false watched p (put repl ps) = None.
Proof.
  intros (_ & Hws & Hwe & Hwf & Hwl) (_ & Hrs & Hre & Hrf & Hrl) Hscan Hkept.
  apply search_from_none. intros o1 o Hput.
  destruct (rmatch U false watched accept (prev_after p o1) o)
    as [rest |] eqn:Hm; [exfalso | done].
  apply window in Hm as (w & -> & Hl & Hne & Hstar & Hlast).
  destruct (splice U r repl (proj1 Hapart) ps p p o1 w rest)
    as (s1 & s2 & Htaken & Hk & Hleft & Hright); [done.. | by left |].
  specialize (Hkept s1 (w ++ s2) Htaken Hk).
  (* the window starts and ends with a word character *)
  destruct w as [| x w0] eqn:Hw; [done |]. rewrite <- Hw in *.
  assert (Hx : isword U x = true).
  { apply Hwf. apply (proj1 (lang_first U) _ _ _ _ Hl). by rewrite Hw. }
  destruct (last w) as [y |] eqn:Hy; [| by apply last_None in Hy].
  assert (Hyw : isword U y = true).
  { apply Hwl. by apply (proj1 (lang_last U) _ _ _ _ Hl). }
  pose proof (lang_starts_b U _ _ _ _ Hl Hws) as Hb1.
  pose proof (lang_ends_b U _ _ _ _ Hl Hwe) as Hb2.
  unfold at_boundary in Hb1, Hb2.
  rewrite (prev_after_last _ w Hne), Hy in Hb2. cbn [opt_isword] in Hb2.
  rewrite Hyw in Hb2.
  assert (Hhead : forall t, head (w ++ t) = Some x) by (by rewrite Hw).
  rewrite Hhead in Hb1. cbn [opt_isword] in Hb1. rewrite Hx in Hb1.
  assert (Hq : opt_isword U (prev_after p o1) = false)
    by (by destruct (opt_isword U (prev_after p o1))).
  assert (Hrest : opt_isword U (head rest) = false)
    by (by destruct (opt_isword U (head rest))).
  eapply rmatch_accept_complete; [| exact Hkept].
  eapply (proj1 (lang_context U)); [exact Hl | |].
  - (* the character before *)
    destruct Hleft as [-> | [_ (p0 & m & Hm0 & Hpo & Hm)]]; [done |].
    exfalso. apply rmatch_accept_sound in Hm as (m' & Heq & Hlm).
    apply app_inv_tail in Heq. subst m'.
    pose proof (lang_ends_b U _ _ _ _ Hlm Hre) as Hb.
    unfold at_boundary in Hb.
    rewrite (prev_after_last _ m Hm0), Hhead in Hb.
    destruct (last m) as [z |] eqn:Hz; [| by apply last_None in Hz].
    assert (Hzw : isword U z = true).
    { apply Hrl. by apply (proj1 (lang_last U) _ _ _ _ Hlm). }
    cbn [opt_isword] in Hb. by rewrite Hzw, Hx in Hb.
  - (* the character after *)
    rewrite (prev_after_last _ w Hne), Hy in Hright.
    destruct Hright as [<- | [_ (m & rest' & Hm0 & -> & Hm)]]; [done |].
    exfalso. apply rmatch_accept_sound in Hm as (m' & Heq & Hlm).
    apply app_inv_tail in Heq. subst m'.
    pose proof (lang_starts_b U _ _ _ _ Hlm Hrs) as Hb.
    unfold at_boundary in Hb.
    destruct m as [| z m]; [done |].
    assert (Hzw : isword U z = true).
    { apply Hrf. by apply (proj1 (lang_first U) _ _ _ _ Hlm). }
    cbn [opt_isword head app] in Hb. by rewrite Hzw, Hyw in Hb.
Qed.

End Transfer.

Section Substitution.
Variable U : unicode_db.

Lemma re_sub_scan r repl s :
  nullable r = false ->
  exists ps, taken ps = s /\ scan U r None ps
             /\ re_sub U r repl s = put repl ps.
Proof. intros Hr. by apply (sub_from_scan U r repl Hr (length s)). Qed.

(** Replacing the matches of a pattern leaves none of them. *)
Lemma re_sub_clears_free r repl s :
  apart U r repl -> boundary_free r = true ->
  re_search U false r (re_sub U r repl s) = None.
Proof.
  intros Hapart Hfree.
  destruct (re_sub_scan r repl s (proj1 (proj2 Hapart)))
    as (ps & _ & Hscan & ->).
  apply (transfer_free U r r repl Hapart None ps Hfree Hscan). auto.
Qed.

Lemma re_sub_clears_bounded r repl s :
  apart U r repl -> bounded U r ->
  re_search U false r (re_sub U r repl s) = None.
Proof.
  intros Hapart Hb.
  destruct (re_sub_scan r repl s (proj1 (proj2 Hapart)))
    as (ps & _ & Hscan & ->).
  apply (transfer_bounded U r r repl Hapart None ps Hb Hb Hscan). auto.
Qed.

(** Replacing the matches of [r] creates no match of [watched]. *)
Lemma re_sub_keeps_free r watched repl s :
  nullable r = false -> apart U watched repl ->
  boundary_free watched = true ->
  re_search U false watched s = None ->
  re_search U false watched (re_sub U r repl s) = None.
Proof.
  intros Hr Hapart Hfree Hnone.
  destruct (re_sub_scan r repl s Hr) as (ps & Htaken & Hscan & ->).
  apply (transfer_free U r watched repl Hapart None ps Hfree Hscan).
  intros s1 s2 Hs _. rewrite Htaken in Hs.
  by apply (proj1 (search_from_none U watched s None) Hnone).
Qed.

Lemma re_sub_keeps_bounded r watched repl s :
  apart U watched repl -> bounded U watched -> bounded U r ->
  re_search U false watched s = None ->
  re_search U false watched (re_sub U r repl s) = None.
Proof.
  intros Hapart Hw Hr Hnone.
  destruct (re_sub_scan r repl s (proj1 Hr)) as (ps & Htaken & Hscan & ->).
  apply (transfer_bounded U r watched repl Hapart None ps Hw Hr Hscan).
  intros s1 s2 Hs _. rewrite Htaken in Hs.
  by apply (proj1 (search_from_none U watched s None) Hnone).
Qed.

End Substitution.

(** The three patterns of the masking pass. *)
Section MaskPatterns.
Variable U : unicode_db.
Hypothesis sane : digits_are_word U.

Lemma amount_last c :
  last_can U currency_first_amount c = true -> isdigit U c = true \/ c = 44.
Proof.
  cbn -[N.eqb isdigit]. rewrite !orb_false_r.
  destruct (isdigit U c); [by left |]. cbn [orb].
  intros H. right. symmetry. by apply N.eqb_eq.
Qed.

Lemma amount_apart repl :
  last repl = Some star_char ->
  Forall (fun c => is_ascii c && negb (ascii_isdigit c) && negb (c =? 44)
                   = true) repl ->
  apart U currency_first_amount repl.
Proof.
  intros Hlast Hrepl. split; [done |]. split; [reflexivity |].
  split; [reflexivity |].
  eapply Forall_impl; [exact Hrepl |]. intros c Hc. cbn beta in Hc.
  apply andb_true_iff in Hc as [Hc Hcomma].
  apply andb_true_iff in Hc as [Hascii Hdigit].
  apply negb_true_iff in Hdigit, Hcomma.
  destruct (last_can U currency_first_amount c) eqn:Hl; [exfalso | done].
  apply amount_last in Hl as [Hl | ->]; [| done].
  unfold isdigit in Hl. rewrite Hascii in Hl. congruence.
Qed.

Lemma digits_apart r repl :
  last repl = Some star_char ->
  nullable r = false -> touches U r star_char = false ->
  (forall c, last_can U r c = isdigit U c) ->
  Forall (fun c => is_ascii c && negb (ascii_isdigit c) = true) repl ->
  apart U r repl.
Proof.
  intros Hlast Hnull Hstar Hl Hrepl. split; [done |]. split; [done |].
  split; [done |].
  eapply Forall_impl; [exact Hrepl |]. intros c Hc. cbn beta in Hc.
  apply andb_true_iff in Hc as [Hascii Hdigit].
  rewrite Hl. unfold isdigit. rewrite Hascii.
  by apply negb_true_iff in Hdigit.
Qed.

Lemma masked_account_last c : last_can U masked_account c = isdigit U c.
Proof. cbn -[N.eqb isdigit]. by rewrite !orb_false_r. Qed.

Lemma large_number_last c : last_can U large_number c = isdigit U c.
Proof. cbn -[N.eqb isdigit]. by rewrite !orb_false_r. Qed.

Lemma masked_account_bounded : bounded U masked_account.
Proof.
  split; [reflexivity |]. split; [reflexivity |]. split; [reflexivity |].
  split.
  - intros c Hc. cbn -[N.eqb isdigit] in Hc. rewrite !orb_false_r in Hc.
    apply N.eqb_eq in Hc. by subst c.
  - intros c Hc. rewrite masked_account_last in Hc. by apply sane.
Qed.

Lemma large_number_bounded : bounded U large_number.
Proof.
  split; [reflexivity |]. split; [reflexivity |]. split; [reflexivity |].
  split.
  - intros c Hc. cbn -[N.eqb isdigit] in Hc. rewrite !orb_false_r in Hc.
    by apply sane.
  - intros c Hc. rewrite large_number_last in Hc. by apply sane.
Qed.

(** After the three substitutions no currency-first amount, no masked
    account reference and no stand-alone run of four digits is left. *)
Lemma substitutions_clear text :
  let masked :=
    re_sub U large_number (py "****")
      (re_sub U masked_account (py "XX****")
         (re_sub U currency_first_amount (py "Rs ****") text)) in
  re_search U false currency_first_amount masked = None
  /\ re_search U false masked_account masked = None
  /\ re_search U false large_number masked = None.
Proof.
  intros masked. unfold masked. split; [| split].
  - apply re_sub_keeps_free; [reflexivity | | reflexivity |].
    { apply amount_apart; [reflexivity | by repeat constructor]. }
    apply re_sub_keeps_free; [reflexivity | | reflexivity |].
    { apply amount_apart; [reflexivity | by repeat constructor]. }
    apply re_sub_clears_free; [| reflexivity].
    apply amount_apart; [reflexivity | by repeat constructor].
  - apply re_sub_keeps_bounded;
      [| exact masked_account_bounded | exact large_number_bounded |].
    { apply digits_apart;
        [reflexivity | reflexivity | reflexivity | exact masked_account_last
        | by repeat constructor]. }
    apply re_sub_clears_bounded; [| exact masked_account_bounded].
    apply digits_apart;
      [reflexivity | reflexivity | reflexivity | exact masked_account_last
      | by repeat constructor].
  - by apply re_sub_large_number_clears.
Qed.

End MaskPatterns.

Section Plain.
Variable U : unicode_db.
Hypothesis sane : digits_are_word U.

Lemma lang_chars l : forall p t,
  lang U (fold_right (fun c r => RSeq (chr c) r) REps l) p l t.
Proof.
  induction l as [| c l IH]; intros p t; cbn [fold_right].
  - constructor.
  - apply (lang_seq U (chr c) _ p [c] l t); [| apply IH].
    constructor. cbn. apply N.eqb_refl.
Qed.

Lemma lang_lit w p t : lang U (lit w) p (py w) t.
Proof. apply lang_chars. Qed.

(** A run of characters of one class, as iterations of a loop. *)
Lemma reps_chars cs lo l : forall n p t,
  Forall (fun x => cset_match U false cs x = true) l ->
  (lo <= n + length l)%nat ->
  reps U (RChar cs) lo None n p l t.
Proof.
  induction l as [| c l IH]; intros n p t Hl Hlo.
  - constructor. simpl in Hlo. lia.
  - apply Forall_cons in Hl as [Hc Hl].
    apply (reps_more U (RChar cs) lo None n p [c] l t);
      [done | done | by constructor |].
    apply IH; [done |]. simpl in Hlo. lia.
Qed.

Lemma lang_skip r p t : lang U (opt r) p [] t.
Proof. constructor. constructor. lia. Qed.

Lemma lang_currency sign p t :
  sign ∈ [py "Rs"; py "Rs."; py "INR"; [rupee]] ->
  lang U currency p sign t.
Proof.
  intros Hin. unfold currency. cbn [alts].
  repeat (apply elem_of_cons in Hin as [-> | Hin]).
  - apply lang_alt_l. cbn [seq fold_right].
    apply (lang_seq U _ _ p (py "Rs") ([] ++ [])); [apply lang_lit |].
    apply (lang_seq U _ _ _ [] []); [apply lang_skip | constructor].
  - apply lang_alt_l. cbn [seq fold_right].
    apply (lang_seq U _ _ p (py "Rs") (py "." ++ []));
      [apply lang_lit |].
    apply (lang_seq U _ _ _ (py ".") []); [| constructor].
    constructor.
    apply (reps_more U _ _ _ _ _ (py ".") []);
      [done | done | apply lang_lit | constructor; lia].
  - apply lang_alt_r, lang_alt_l. apply lang_lit.
  - apply lang_alt_r, lang_alt_r. constructor. reflexivity.
  - by apply elem_of_nil in Hin.
Qed.

Lemma shows_amount_found s :
  shows_amount U s -> re_search U false currency_first_amount s <> None.
Proof.
  intros (pre & sign & sp & c & post & -> & Hsign & Hsp & Hc) Hnone.
  apply (proj1 (search_from_none U currency_first_amount _ None)) with
    (s1 := pre) (s2 := sign ++ sp ++ c :: post) in Hnone; [| done].
  revert Hnone.
  replace (sign ++ sp ++ c :: post) with ((sign ++ (sp ++ [c])) ++ post)
    by (by rewrite <- !app_assoc).
  apply rmatch_accept_complete.
  unfold currency_first_amount. cbn [seq fold_right].
  apply lang_seq; [by apply lang_currency |].
  apply lang_seq.
  { constructor. apply reps_chars; [done | lia]. }
  apply (lang_seq U _ _ _ [c] []); [| constructor].
  unfold number. cbn [seq fold_right].
  apply (lang_seq U _ _ _ [c] []).
  - constructor.
    apply (reps_more U _ _ _ _ _ [c] []);
      [done | done | | constructor; lia].
    constructor. cbn -[N.eqb isdigit].
    destruct Hc as [-> | ->]; [done |]. apply orb_true_r.
  - apply (lang_seq U _ _ _ [] []); [apply lang_skip | constructor].
Qed.

Lemma last_digit_is_word (lead digits : pystr) :
  digits <> [] -> Forall (fun x => isdigit U x = true) digits ->
  opt_isword U (last (lead ++ digits)) = true.
Proof.
  intros Hne Hd. destruct digits as [| d digits] using rev_ind; [done |].
  rewrite app_assoc, last_snoc. apply Forall_app in Hd as [_ Hd].
  apply Forall_cons in Hd as [Hd _]. by apply sane.
Qed.

(** Digits up to a word boundary. *)
Lemma lang_digits_to_boundary least p ds post :
  Forall (fun x => isdigit U x = true) ds ->
  (least <= length ds)%nat ->
  at_boundary U (prev_after p ds) post = true ->
  lang U (RSeq (RRep true least None digit) (RSeq RWordB REps)) p
    (ds ++ []) post.
Proof.
  intros Hds Hlen Hb. apply lang_seq.
  - constructor. apply reps_chars; [done | lia].
  - apply (lang_seq U _ _ _ [] []); [| constructor]. by constructor.
Qed.

Lemma shows_number_boundaries lead least pre ds post :
  (0 < least)%nat -> (least <= length ds)%nat ->
  Forall (fun x => isdigit U x = true) ds ->
  (lead <> [] -> opt_isword U (head lead) = true) ->
  opt_isword U (last pre) = false ->
  opt_isword U (head post) = false ->
  ds <> []
  /\ prev_after None pre = last pre
  /\ at_boundary U (last pre) (lead ++ ds ++ post) = true
  /\ at_boundary U (prev_after (last pre) (lead ++ ds)) post = true.
Proof.
  intros Hleast Hlen Hds Hlead Hpre Hpost.
  assert (Hne : ds <> []) by (intros ->; simpl in Hlen; lia).
  split; [done |]. split.
  { unfold prev_after. by destruct (last pre). }
  unfold at_boundary. rewrite Hpre, Hpost. split.
  - destruct lead as [| x lead].
    + destruct ds as [| d ds]; [done |].
      apply Forall_cons in Hds as [Hd _].
      cbn [app head opt_isword]. by rewrite sane.
    + assert (Hx : opt_isword U (head (x :: lead)) = true)
        by (by apply Hlead).
      cbn [app head] in *. by rewrite Hx.
  - rewrite (prev_after_last _ (lead ++ ds))
      by (intros H; apply app_eq_nil in H as [_ ?]; done).
    by rewrite last_digit_is_word.
Qed.

(** An account reference between word boundaries is a match of
    [\bXX\d+\b]. *)
Lemma shows_account_found s :
  shows_number U (py "XX") 1 s ->
  re_search U false masked_account s <> None.
Proof.
  intros (pre & ds & post & -> & Hlen & Hds & Hpre & Hpost) Hnone.
  destruct (shows_number_boundaries (py "XX") 1 pre ds post)
    as (Hne & Hprev & Hb1 & Hb2); [lia | done | done | done | done | done |].
  apply (proj1 (search_from_none U _ _ None)) with
    (s1 := pre) (s2 := py "XX" ++ ds ++ post) in Hnone; [| done].
  revert Hnone. rewrite Hprev.
  replace (py "XX" ++ ds ++ post)
    with ((py "XX" ++ (ds ++ [])) ++ post)
    by (by rewrite app_nil_r, <- !app_assoc).
  apply rmatch_accept_complete.
  unfold masked_account. cbn [seq fold_right].
  apply (lang_seq U _ _ _ [] (py "XX" ++ (ds ++ []))).
  { constructor. by rewrite app_nil_r, <- app_assoc. }
  apply lang_seq; [apply lang_lit |].
  apply lang_digits_to_boundary; [done | done |].
  by rewrite prev_after_nil, prev_after_app.
Qed.

(** A run of four digits or more between word boundaries is a match of
    [\b\d{4,}\b]. *)
Lemma shows_digit_run_found s :
  shows_number U [] 4 s -> re_search U false large_number s <> None.
Proof.
  intros (pre & ds & post & -> & Hlen & Hds & Hpre & Hpost) Hnone.
  destruct (shows_number_boundaries [] 4 pre ds post)
    as (Hne & Hprev & Hb1 & Hb2); [lia | done | done | done | done | done |].
  apply (proj1 (search_from_none U _ _ None)) with
    (s1 := pre) (s2 := ds ++ post) in Hnone; [| done].
  revert Hnone. rewrite Hprev.
  replace (ds ++ post) with ((ds ++ []) ++ post) by (by rewrite app_nil_r).
  apply rmatch_accept_complete.
  unfold large_number. cbn [seq fold_right].
  apply (lang_seq U _ _ _ [] (ds ++ [])).
  { constructor. by rewrite app_nil_r. }
  apply lang_digits_to_boundary; [done | done |].
  by rewrite prev_after_nil.
Qed.

End Plain.

(** ** Rendering *)

Lemma take_200 (content : pystr) :
  (if (200 <? length content)%nat then take 200 content else content)
  = take 200 content.
Proof.
  destruct (200 <? length content)%nat eqn:Hlen; [done |].
  apply Nat.ltb_ge in Hlen. by rewrite take_ge.
Qed.

Lemma _mask_sensitive_data_length U text :
  (length (_mask_sensitive_data U text) <= 200)%nat.
Proof.
  unfold _mask_sensitive_data.
  destruct (200 <? _)%nat eqn:Hlen.
  - apply Nat.ltb_lt in Hlen.
    rewrite length_app, length_take.
    change (length (py "...")) with 3%nat. lia.
  - by apply Nat.ltb_ge in Hlen.
Qed.

Lemma ascii_only_digits_are_word : digits_are_word ascii_only.
Proof.
  intros c. unfold isdigit, isword, ascii_isword. simpl.
  destruct (is_ascii c); [| discriminate].
  intros ->. reflexivity.
Qed.

Lemma _mask_sensitive_data_short U text :
  (length (_mask_sensitive_data U text) < 200)%nat ->
  _mask_sensitive_data U text
  = re_sub U large_number (py "****")
      (re_sub U masked_account (py "XX****")
         (re_sub U (seq [currency; star space; number]) (py "Rs ****")
            text)).
Proof.
  unfold _mask_sensitive_data.
  destruct (200 <? _)%nat eqn:Hlen; [| reflexivity].
  apply Nat.ltb_lt in Hlen. rewrite length_app, length_take.
  change (length (py "...")) with 3%nat. lia.
Qed.

(** The security-alert and fallback templates carry the decrypted text
    as it is: amount, account reference and balance are all in the
    parameters, and in the body posted by the pipeline.  The masked
    summary of a transaction still shows an amount written before its
    currency, and the cut of a long summary can leave a run of digits
    standing alone. *)
Lemma summaries_carry_raw_values :
  let text := py "Alert: Rs 5000 debited from A/c XX1234, balance 20000" in
  let parameters := [text_param (py "BANK"); text_param text] in
  render_template_params ascii_only SECURITY_ALERT (py "BANK") text
  = parameters
  /\ render_template_params ascii_only UNKNOWN (py "BANK") text = parameters
  /\ contains (py "5000") text = true
  /\ contains (py "XX1234") text = true
  /\ contains (py "20000") text = true
  /\ _mask_sensitive_data ascii_only text
     = py "Alert: Rs **** debited from A/c XX****, balance ****"
  /\ List.map payload_parameters
       (forward_message ascii_only default_settings toy_lib
          MessageType_value (memory_service ∅) (world_at 1000)
          (toy_request
             "Alert: Rs 5000 debited from A/c XX1234, balance 20000"
             SECURITY_ALERT 1000 None)).2
     = [parameters]
  /\ render_template_params ascii_only TRANSACTION (py "BANK")
       (py "debited 500 INR from A/c XX1234")
     = [text_param (py "Debit Alert"); text_param (py "BANK");
        text_param (py "debited 500 INR from A/c XX****")]
  /\ _mask_sensitive_data ascii_only
       (py "aaaaaaaaaaaaaaaaaaaaaaaaaaaaaaaaaaaaaaaaaaaaaaaaaaaaaaaaaaaaaaaaaaaaaaaaaaaaaaaaaaaaaaaaaaaaaaaaaaaaaaaaaaaaaaaaaaaaaaaaaaaaaaaaaaaaaaaaaaaaaaaaaaaaaaaaaaaaaaaaaaaaaaaaaaaaaaaaaaaaaaaaaaaaaa 123456789abc")
     = py "aaaaaaaaaaaaaaaaaaaaaaaaaaaaaaaaaaaaaaaaaaaaaaaaaaaaaaaaaaaaaaaaaaaaaaaaaaaaaaaaaaaaaaaaaaaaaaaaaaaaaaaaaaaaaaaaaaaaaaaaaaaaaaaaaaaaaaaaaaaaaaaaaaaaaaaaaaaaaaaaaaaaaaaaaaaaaaaaaaaaaaaaaaaaaa 123456..."
  /\ re_search ascii_only false large_number
       (py "aaaaaaaaaaaaaaaaaaaaaaaaaaaaaaaaaaaaaaaaaaaaaaaaaaaaaaaaaaaaaaaaaaaaaaaaaaaaaaaaaaaaaaaaaaaaaaaaaaaaaaaaaaaaaaaaaaaaaaaaaaaaaaaaaaaaaaaaaaaaaaaaaaaaaaaaaaaaaaaaaaaaaaaaaaaaaaaaaaaaaaaaaaaaaa 123456...")
     = Some (py "123456").
Proof.
  cbv zeta. repeat split; vm_compute; reflexivity.
Qed.

(** The summary is the text left by the three substitutions, cut when it
    is longer than 200 characters. *)
Lemma _mask_sensitive_data_cut U text :
  let masked :=
    re_sub U large_number (py "****")
      (re_sub U masked_account (py "XX****")
         (re_sub U currency_first_amount (py "Rs ****") text)) in
  _mask_sensitive_data U text
  = if (200 <? length masked)%nat then take 197 masked ++ py "..."
    else masked.
Proof. reflexivity. Qed.

(** The cut brings no amount into sight: the three dots are neither
    digits nor commas. *)
Lemma shows_amount_cut U (masked : pystr) :
  shows_amount U (take 197 masked ++ py "...") -> shows_amount U masked.
Proof.
  intros (pre & sign & sp & c & post & Heq & Hsign & Hsp & Hc).
  assert (Hdot : forall l rest, py "..." = l ++ rest -> l <> [] ->
                 last l = Some 46).
  { intros l rest Hl Hne.
    destruct l as [| x1 [| x2 [| x3 [| x4 l]]]]; try done;
      inversion Hl; subst; done. }
  replace (pre ++ sign ++ sp ++ c :: post)
    with ((pre ++ sign ++ sp ++ [c]) ++ post) in Heq
    by (by rewrite <- !app_assoc).
  apply app_eq_app in Heq as [l [[Htake Hpost] | [Hw Hdots]]].
  - exists pre, sign, sp, c, (l ++ drop 197 masked).
    split; [| done].
    rewrite <- (take_drop 197 masked) at 1. rewrite Htake.
    by rewrite <- !app_assoc.
  - destruct l as [| x l].
    + rewrite app_nil_r in Hw.
      exists pre, sign, sp, c, (drop 197 masked). split; [| done].
      rewrite <- (take_drop 197 masked) at 1. rewrite <- Hw.
      by rewrite <- !app_assoc.
    + exfalso. apply Hdot in Hdots; [| done].
      assert (Hlast : last (pre ++ sign ++ sp ++ [c]) = Some c)
        by (by rewrite !app_assoc, last_snoc).
      rewrite Hw, last_app, Hdots in Hlast. inversion Hlast; subst c.
      destruct Hc as [Hc | Hc]; [| done].
      unfold isdigit in Hc. by cbn in Hc.
Qed.

(** The text that the security-alert and fallback templates carry in the
    lemma above shows an amount, an account reference and a stand-alone
    run of digits. *)
Lemma unmasked_text_shows_values :
  let text := py "Alert: Rs 5000 debited from A/c XX1234, balance 20000" in
  shows_amount ascii_only text
  /\ shows_number ascii_only (py "XX") 1 text
  /\ shows_number ascii_only [] 4 text.
Proof.
  cbv zeta. split; [| split].
  - exists (py "Alert: "), (py "Rs"), (py " "), 53,
      (py "000 debited from A/c XX1234, balance 20000").
    split; [reflexivity |]. split; [set_solver |].
    split; [by repeat constructor | by left].
  - exists (py "Alert: Rs 5000 debited from A/c "), (py "1234"),
      (py ", balance 20000").
    split; [reflexivity |]. split; [simpl; lia |].
    split; [by repeat constructor | by split].
  - exists (py "Alert: Rs 5000 debited from A/c XX1234, balance "),
      (py "20000"), [].
    split; [reflexivity |]. split; [simpl; lia |].
    split; [by repeat constructor | by split].
Qed.

(** C1 (as the code has it): the transaction and bill templates carry
    the masking pass of the decrypted text as their summary.  No such
    summary shows an amount written after its currency sign.  The summary
    is the text left by the three substitutions, cut to 197 characters
    and three dots when that text is longer than 200 characters, and that
    text has no match of the amount pattern, of the account pattern or of
    the pattern of stand-alone runs of four digits; so a summary shorter
    than 200 characters shows no account reference XX<digits> and no run
    of four or more digits between word boundaries.  The security-alert
    and fallback templates carry the first 200 characters of the text,
    unmasked.  No summary is longer than 200 characters. *)
Theorem summary_by_type (U : unicode_db) (sender content : pystr) :
  digits_are_word U ->
  let summary := _mask_sensitive_data U content in
  (exists label,
      render_template_params U TRANSACTION sender content
      = [text_param label; text_param sender; text_param summary]
      /\ label ∈ [py "Debit Alert"; py "Credit Alert";
                  py "Transaction Alert"])
  /\ render_template_params U BILL sender content
     = [text_param sender; text_param summary]
  /\ ~ shows_amount U summary
  /\ (exists masked,
        summary
        = (if (200 <? length masked)%nat then take 197 masked ++ py "..."
           else masked)
        /\ re_search U false currency_first_amount masked = None
        /\ re_search U false masked_account masked = None
        /\ re_search U false large_number masked = None)
  /\ ((length summary < 200)%nat ->
      ~ shows_number U (py "XX") 1 summary
      /\ ~ shows_number U [] 4 summary)
  /\ render_template_params U SECURITY_ALERT sender content
     = [text_param sender; text_param (take 200 content)]
  /\ render_template_params U UNKNOWN sender content
     = [text_param sender; text_param (take 200 content)]
  /\ (length summary <= 200)%nat
  /\ (length (take 200 content) <= 200)%nat.
Proof.
  intros Hsane summary.
  pose proof (substitutions_clear U Hsane content) as Hclear.
  cbv zeta in Hclear. destruct Hclear as (Hamount & Haccount & Hrun).
  split; [| split; [| split; [| split; [| split; [| split; [| split;
    [| split]]]]]]].
  - simpl. unfold _render_transaction_params.
    eexists. split; [reflexivity |].
    destruct (_ || _); [set_solver |].
    destruct (_ || _); set_solver.
  - reflexivity.
  - unfold summary. rewrite _mask_sensitive_data_cut. cbv zeta.
    destruct (200 <? _)%nat.
    + intros Hshow. apply shows_amount_cut in Hshow.
      by apply (shows_amount_found U) in Hshow.
    + intros Hshow. by apply (shows_amount_found U) in Hshow.
  - eexists. split; [apply _mask_sensitive_data_cut |]. done.
  - intros Hshort. unfold summary.
    rewrite (_mask_sensitive_data_short U content Hshort). split.
    + intros Hshow. by apply (shows_account_found U Hsane) in Hshow.
    + intros Hshow. by apply (shows_digit_run_found U Hsane) in Hshow.
  - simpl. unfold _render_security_params. by rewrite take_200.
  - simpl. unfold _render_generic_params. by rewrite take_200.
  - apply _mask_sensitive_data_length.
  - rewrite length_take. lia.
Qed.

Lemma summary_by_type_witness :
  let summary :=
    _mask_sensitive_data ascii_only
      (py "Bill 88421 of Rs 1,250.00 due, A/c XX9081 ref 20240131") in
  render_template_params ascii_only BILL (py "BANK")
    (py "Bill 88421 of Rs 1,250.00 due, A/c XX9081 ref 20240131")
  = [text_param (py "BANK");
     text_param (py "Bill **** of Rs **** due, A/c XX**** ref ****")]
  /\ ~ shows_amount ascii_only summary
  /\ ~ shows_number ascii_only (py "XX") 1 summary
  /\ ~ shows_number ascii_only [] 4 summary.
Proof.
  pose proof (summary_by_type ascii_only (py "BANK")
    (py "Bill 88421 of Rs 1,250.00 due, A/c XX9081 ref 20240131")
    ascii_only_digits_are_word) as (_ & Hbill & Hamount & _ & Hshort & _).
  split; [| split].
  - rewrite Hbill. vm_compute. reflexivity.
  - exact Hamount.
  - apply Hshort. vm_compute. lia.
Defined.

(** ** Concurrent arrivals *)

Section TaskFacts.
Variable settings : Settings.
Variables a1 a2 : arrival.
Variable deadline : Q.
Hypothesis same_hash : arrival_hash a2 = arrival_hash a1.

Lemma memory_step_new (a : arrival) env self :
  redis self = false ->
  arrival_hash a = arrival_hash a1 ->
  memory_store self !! arrival_hash a1 = None ->
  (deadline
   <= float_add (time_write env)
        (_get_ttl_for_type settings (arrival_type a)))%Q ->
  exists self',
    task_step settings a env self Arrived = (self', Finished true)
    /\ redis self' = false
    /\ exists e, memory_store self' !! arrival_hash a1 = Some e
                 /\ (deadline <= expires_at e)%Q.
Proof.
  intros Hmem Hhash Hnone Httl. destruct self as [r store].
  simpl in *. subst r. unfold task_step.
  change {| redis := false; memory_store := store |}
    with (memory_service store).
  rewrite store_message_fresh
    by (rewrite Hhash; by apply cleanup_absent).
  eexists. split; [reflexivity |]. simpl. split; [done |].
  rewrite Hhash, lookup_insert_eq. eexists. split; [reflexivity |].
  exact Httl.
Qed.

Lemma memory_step_seen (a : arrival) env self e :
  redis self = false ->
  arrival_hash a = arrival_hash a1 ->
  memory_store self !! arrival_hash a1 = Some e ->
  (deadline <= expires_at e)%Q ->
  (time_exists env < deadline)%Q ->
  exists self',
    task_step settings a env self Arrived = (self', Finished false)
    /\ redis self' = false
    /\ memory_store self' !! arrival_hash a1 = Some e.
Proof.
  intros Hmem Hhash Hsome Hexp Hnow. destruct self as [r store].
  simpl in *. subst r. unfold task_step.
  change {| redis := false; memory_store := store |}
    with (memory_service store).
  assert (Hkept :
    _cleanup_expired (time_exists env) store !! arrival_hash a1 = Some e).
  { apply cleanup_keeps; [done | lra]. }
  rewrite store_message_seen by (rewrite Hhash; eauto).
  eexists. split; [reflexivity |]. simpl. by split.
Qed.

Lemma handed_out_run schedule : forall self p1 p2,
  within_ttl settings a1 a2 deadline schedule ->
  handed_out a1 deadline self p1 p2 ->
  let '(self', q1, q2) := run settings a1 a2 schedule self p1 p2 in
  handed_out a1 deadline self' q1 q2.
Proof.
  induction schedule as [| [who env] schedule IH]; intros self p1 p2 Hwin Hinv.
  { exact Hinv. }
  apply Forall_cons in Hwin as [(Hnow & Httl1 & Httl2) Hwin]. simpl in *.
  destruct Hinv as [Hmem Hcases]. destruct who.
  - (* the first task runs *)
    destruct Hcases as [(-> & -> & Hnone) | [(e & He & Hexp) Hcases]].
    + destruct (memory_step_new a1 env self Hmem eq_refl Hnone Httl1)
        as (self' & -> & Hmem' & Hentry).
      apply IH; [done |]. split; [done |]. right. split; [done |]. auto.
    + destruct Hcases as [[-> ->] | [[-> ->] | [[-> ->] | [-> ->]]]].
      * simpl. apply IH; [done |]. split; [done |]. right. eauto 10.
      * destruct (memory_step_seen a1 env self e Hmem eq_refl He Hexp Hnow)
          as (self' & -> & Hmem' & He').
        apply IH; [done |]. split; [done |]. right. eauto 10.
      * simpl. apply IH; [done |]. split; [done |]. right. eauto 10.
      * simpl. apply IH; [done |]. split; [done |]. right. eauto 10.
  - (* the second task runs *)
    destruct Hcases as [(-> & -> & Hnone) | [(e & He & Hexp) Hcases]].
    + destruct (memory_step_new a2 env self Hmem same_hash Hnone Httl2)
        as (self' & -> & Hmem' & Hentry).
      apply IH; [done |]. split; [done |]. right. split; [done |]. auto.
    + destruct Hcases as [[-> ->] | [[-> ->] | [[-> ->] | [-> ->]]]].
      * destruct (memory_step_seen a2 env self e Hmem same_hash He Hexp Hnow)
          as (self' & -> & Hmem' & He').
        apply IH; [done |]. split; [done |]. right. eauto 10.
      * simpl. apply IH; [done |]. split; [done |]. right. eauto 10.
      * simpl. apply IH; [done |]. split; [done |]. right. eauto 10.
      * simpl. apply IH; [done |]. split; [done |]. right. eauto 10.
Qed.

(** Once scheduled, a task is finished. *)
Lemma task_step_finishes (a : arrival) env self p :
  exists self' b, task_step settings a env self p = (self', Finished b)
                  /\ redis self' = redis self.
Proof.
  destruct p as [| b]; unfold task_step; [| eauto].
  destruct (redis self) eqn:Hredis.
  - rewrite store_message_awaits_sync by done. eauto.
  - unfold store_message, exists_, write_message. rewrite Hredis.
    destruct (bool_decide _); eauto.
Qed.

Lemma finished_stays schedule : forall self p1 p2 b,
  (p1 = Finished b ->
   exists b', (run settings a1 a2 schedule self p1 p2).1.2 = Finished b')
  /\ (p2 = Finished b ->
      exists b', (run settings a1 a2 schedule self p1 p2).2 = Finished b').
Proof.
  induction schedule as [| [who env] schedule IH]; intros self p1 p2 b.
  { simpl. eauto. }
  simpl. destruct who.
  - destruct (task_step_finishes a1 env self p1) as (self' & b1 & -> & _).
    split.
    + intros _. by apply (IH self' (Finished b1) p2 b1).
    + intros ->. by apply (IH self' (Finished b1) (Finished b) b).
  - destruct (task_step_finishes a2 env self p2) as (self' & b2 & -> & _).
    split.
    + intros ->. by apply (IH self' (Finished b) (Finished b2) b).
    + intros _. by apply (IH self' p1 (Finished b2) b2).
Qed.

End TaskFacts.

Lemma scheduled_finishes settings a1 a2 schedule : forall self p1 p2,
  (true ∈ schedule.*1 ->
   exists b, (run settings a1 a2 schedule self p1 p2).1.2 = Finished b)
  /\ (false ∈ schedule.*1 ->
      exists b, (run settings a1 a2 schedule self p1 p2).2 = Finished b).
Proof.
  induction schedule as [| [who env] schedule IH]; intros self p1 p2.
  { split; intros Hin; inversion Hin. }
  simpl. destruct who.
  - destruct (task_step_finishes settings a1 env self p1)
      as (self' & b1 & -> & _).
    split.
    + intros _.
      by apply (finished_stays settings a1 a2 schedule self' (Finished b1)
                  p2 b1).
    + intros Hin. apply (IH self' (Finished b1) p2).
      apply elem_of_cons in Hin as [Hin | Hin]; [discriminate | done].
  - destruct (task_step_finishes settings a2 env self p2)
      as (self' & b2 & -> & _).
    split.
    + intros Hin. apply (IH self' p1 (Finished b2)).
      apply elem_of_cons in Hin as [Hin | Hin]; [discriminate | done].
    + intros _.
      by apply (finished_stays settings a1 a2 schedule self' p1
                  (Finished b2) b2).
Qed.




(** * Further properties of the code *)

(** ** storage_service.py: the sweep *)

Lemma cleanup_lookup (t : Q) (store : gmap pystr entry) (k : pystr) :
  _cleanup_expired t store !! k
  = match store !! k with
    | Some e => if Qle_bool (expires_at e) t then None else Some e
    | None => None
    end.
Proof.
  destruct (store !! k) as [e |] eqn:Hk.
  - destruct (Qle_bool (expires_at e) t) eqn:Hle.
    + apply Qle_bool_iff in Hle. by eapply cleanup_drops.
    + apply cleanup_keeps; [done |]. by apply (live_lt t k e).
  - by apply cleanup_absent.
Qed.

Lemma cleanup_Some_iff (t : Q) (store : gmap pystr entry) (k : pystr)
    (e : entry) :
  _cleanup_expired t store !! k = Some e
  <-> store !! k = Some e /\ (t < expires_at e)%Q.
Proof.
  rewrite cleanup_lookup. split.
  - destruct (store !! k) as [e' |]; [| discriminate].
    destruct (Qle_bool (expires_at e') t) eqn:Hle; [discriminate |].
    intros H. inversion H; subst e'. split; [done |].
    by apply (live_lt t k e).
  - intros [-> Hlt]. apply (live_lt t k e) in Hlt.
    unfold live in Hlt. simpl in Hlt. by rewrite Hlt.
Qed.

(** _cleanup_expired keeps exactly the entries whose expiry lies
    strictly after the clock reading; an entry that expires at the very
    reading is dropped. *)
Theorem cleanup_keeps_exactly_unexpired (t : Q) (store : gmap pystr entry)
    (k : pystr) (e : entry) :
  (_cleanup_expired t store !! k = Some e
   <-> store !! k = Some e /\ (t < expires_at e)%Q)
  /\ (store !! k = Some e -> (expires_at e == t)%Q ->
      _cleanup_expired t store !! k = None).
Proof.
  split; [apply cleanup_Some_iff |].
  - intros Hk Heq. eapply cleanup_drops; [done |]. lra.
Qed.

Lemma cleanup_keeps_exactly_unexpired_witness :
  _cleanup_expired 1300
    (<[py "ab12" := {| entry_sender := py "BANK";
                       entry_message_type := py "OTP";
                       expires_at := 1300 |}]> ∅) !! py "ab12" = None.
Proof.
  refine (proj2 (cleanup_keeps_exactly_unexpired 1300 _ (py "ab12") _) _ _).
  - apply lookup_insert_eq.
  - reflexivity.
Defined.

(** A later sweep makes an earlier one redundant: sweeping at [t1] and
    then at [t2 >= t1] leaves what one sweep at [t2] leaves. *)
Theorem cleanup_later_absorbs_earlier (t1 t2 : Q)
    (store : gmap pystr entry) :
  (t1 <= t2)%Q ->
  _cleanup_expired t2 (_cleanup_expired t1 store)
  = _cleanup_expired t2 store.
Proof.
  intros Hle. apply map_eq. intros k. rewrite !cleanup_lookup.
  destruct (store !! k) as [e |]; [| reflexivity].
  destruct (Qle_bool (expires_at e) t1) eqn:H1; [| reflexivity].
  destruct (Qle_bool (expires_at e) t2) eqn:H2; [reflexivity |].
  apply Qle_bool_iff in H1.
  apply not_true_iff_false in H2. rewrite Qle_bool_iff in H2.
  exfalso. apply H2. lra.
Qed.

Lemma cleanup_later_absorbs_earlier_witness :
  _cleanup_expired 1300 (_cleanup_expired 1000 (memory_store seen_once))
  = _cleanup_expired 1300 (memory_store seen_once).
Proof.
  apply (cleanup_later_absorbs_earlier 1000 1300). vm_compute. discriminate.
Defined.

(** ** storage_service.py: registration *)

Lemma store_message_memory settings store env h sender message_type :
  store_message settings (memory_service store) env h sender message_type
  = if bool_decide
         (is_Some (_cleanup_expired (time_exists env) store !! h))
    then (false, memory_service (_cleanup_expired (time_exists env) store))
    else (true,
          memory_service
            (<[h := new_entry settings env sender message_type]>
               (_cleanup_expired (time_sweep env)
                  (_cleanup_expired (time_exists env) store)))).
Proof. reflexivity. Qed.

Lemma get_ttl_at_least_60 settings message_type :
  ttl_in_range settings ->
  (60 <= _get_ttl_for_type settings message_type)%Z.
Proof.
  intros (Hotp & Htr & Hbill & Hsec).
  destruct message_type; simpl; lia.
Qed.

Lemma inject_Z_le_plus (t : Q) (a b : Z) :
  (a <= b)%Z -> (t + inject_Z a <= t + inject_Z b)%Q.
Proof.
  intros Hab. apply Qplus_le_r. by rewrite <- Zle_Qle.
Qed.

(** Registering one fingerprint in the in-memory store neither creates
    nor changes the entry of another one, keeps no entry of another one
    that was expired at the first sweep, and drops none that is live at
    both sweeps. *)
Theorem registration_leaves_other_fingerprints (settings : Settings)
    (store : gmap pystr entry) (env : store_env) (h other sender : pystr)
    (message_type : MessageType) (e : entry) :
  let after :=
    memory_store
      (store_message settings (memory_service store) env h sender
         message_type).2 in
  other <> h ->
  (after !! other = Some e ->
   store !! other = Some e /\ (time_exists env < expires_at e)%Q)
  /\ (store !! other = Some e ->
      (time_exists env < expires_at e)%Q ->
      (time_sweep env < expires_at e)%Q ->
      after !! other = Some e).
Proof.
  intros after Hne. unfold after. rewrite store_message_memory.
  destruct (bool_decide _); simpl.
  - split.
    + intros H. by apply cleanup_Some_iff in H.
    + intros Hk Hlive _. by apply cleanup_keeps.
  - rewrite lookup_insert_ne by done. split.
    + intros H. apply cleanup_Some_iff in H as [H _].
      by apply cleanup_Some_iff in H.
    + intros Hk Hlive1 Hlive2. by do 2 (apply cleanup_keeps; [| done]).
Qed.

Lemma registration_leaves_other_fingerprints_witness :
  memory_store
    (store_message default_settings seen_once (env_at 1001) (py "c0ffee")
       (py "BANK") BILL).2 !! py "sha:Your code is 1234"
  = Some {| entry_sender := py "BANK"; entry_message_type := py "OTP";
            expires_at := float_add 1000 300 |}.
Proof.
  refine (proj2
    (registration_leaves_other_fingerprints default_settings
       (memory_store seen_once) (env_at 1001) (py "c0ffee")
       (py "sha:Your code is 1234") (py "BANK") BILL _ _) _ _ _).
  - discriminate.
  - vm_compute. reflexivity.
  - vm_compute. reflexivity.
  - vm_compute. reflexivity.
Defined.

(** With Redis configured, store_message answers False on every call and
    leaves the service as it was, whatever the two commands return: also
    when the server reports the key absent and SETEX has stored it. *)
Theorem redis_registration_always_false (settings : Settings)
    (self : StorageService) (env : store_env) (h sender : pystr)
    (message_type : MessageType) :
  redis self = true ->
  store_message settings self env h sender message_type = (false, self).
Proof. apply store_message_awaits_sync. Qed.

Lemma redis_registration_always_false_witness :
  store_message default_settings redis_service
    (with_replies (env_at 1000) (Ok 0%Z) (Ok tt))
    (py "c0ffee") (py "BANK") OTP
  = (false, redis_service).
Proof.
  apply (redis_registration_always_false default_settings redis_service
           (with_replies (env_at 1000) (Ok 0%Z) (Ok tt))
           (py "c0ffee") (py "BANK") OTP eq_refl).
Defined.

(** After a registration in the in-memory store no entry is left that
    was expired when the call read the clock first, provided the TTL is
    positive, the clock does not run backwards before the write, and the
    time of the write plus the TTL lies between 0 and 2^53, where
    neighbouring doubles are at most one second apart. *)
Theorem registration_leaves_no_expired_entry (settings : Settings)
    (store : gmap pystr entry) (env : store_env) (h sender k : pystr)
    (message_type : MessageType) (e : entry) :
  let ttl := _get_ttl_for_type settings message_type in
  (0 < ttl)%Z ->
  (time_exists env <= time_write env)%Q ->
  (0 <= time_write env)%Q ->
  (time_write env + inject_Z ttl < 2 ^ 53)%Q ->
  memory_store
    (store_message settings (memory_service store) env h sender
       message_type).2 !! k = Some e ->
  (time_exists env < expires_at e)%Q.
Proof.
  intros ttl Httl Hclock Hpos Hbound. rewrite store_message_memory.
  destruct (bool_decide _); simpl.
  - intros H. by apply cleanup_Some_iff in H as [_ H].
  - destruct (decide (k = h)) as [-> | Hne].
    + rewrite lookup_insert_eq. intros H. inversion H. simpl.
      assert (1 <= inject_Z ttl)%Q by (rewrite <- (Zle_Qle 1); lia).
      pose proof (float_add_near (time_write env) ttl) as Hnear.
      fold ttl. lra.
    + rewrite lookup_insert_ne by done. intros H.
      apply cleanup_Some_iff in H as [H _].
      by apply cleanup_Some_iff in H as [_ H].
Qed.

Lemma registration_leaves_no_expired_entry_witness :
  (1001 < float_add 1001 900)%Q.
Proof.
  apply (registration_leaves_no_expired_entry default_settings
           (memory_store seen_once) (env_at 1001) (py "c0ffee") (py "BANK")
           (py "c0ffee") BILL
           {| entry_sender := py "BANK"; entry_message_type := py "BILL";
              expires_at := float_add 1001 900 |}).
  - reflexivity.
  - vm_compute. discriminate.
  - vm_compute. discriminate.
  - vm_compute. reflexivity.
  - vm_compute. reflexivity.
Defined.

(** With TTLs inside the bounds of config.py and clock readings between
    0 and 2^53 less the TTL, a fingerprint that the in-memory store
    reported as first seen is a duplicate on every registration whose
    first clock reading is at most 59 seconds after the write, whatever
    the types declared. *)
Theorem repeat_within_a_minute_is_duplicate (settings : Settings)
    (store : gmap pystr entry) (env1 env2 : store_env)
    (h sender1 sender2 : pystr) (type1 type2 : MessageType) :
  let reg1 :=
    store_message settings (memory_service store) env1 h sender1 type1 in
  ttl_in_range settings ->
  reg1.1 = true ->
  (0 <= time_write env1)%Q ->
  (time_write env1 + inject_Z (_get_ttl_for_type settings type1)
   < 2 ^ 53)%Q ->
  (time_exists env2 <= time_write env1 + 59)%Q ->
  (store_message settings reg1.2 env2 h sender2 type2).1 = false.
Proof.
  intros reg1 Hrange Hnew Hpos Hbound Hsoon. unfold reg1 in *.
  rewrite store_message_memory in *.
  destruct (bool_decide _); [discriminate |]. simpl.
  rewrite store_message_seen; [reflexivity |].
  exists (new_entry settings env1 sender1 type1).
  apply cleanup_keeps; [apply lookup_insert_eq |]. simpl.
  pose proof (get_ttl_at_least_60 settings type1 Hrange) as H60.
  pose proof (inject_Z_le_plus (time_write env1) 60 _ H60) as Hle.
  change (inject_Z 60) with 60%Q in Hle.
  pose proof (float_add_near (time_write env1)
                (_get_ttl_for_type settings type1)) as Hnear.
  lra.
Qed.

Lemma repeat_within_a_minute_is_duplicate_witness :
  (store_message default_settings
     (store_message default_settings (memory_service ∅) (env_at 1000)
        (py "c0ffee") (py "BANK") BILL).2
     (env_at 1059) (py "c0ffee") (py "OTHER") OTP).1 = false.
Proof.
  apply (repeat_within_a_minute_is_duplicate default_settings ∅
           (env_at 1000) (env_at 1059) (py "c0ffee") (py "BANK")
           (py "OTHER") BILL OTP).
  - unfold ttl_in_range. simpl. lia.
  - reflexivity.
  - vm_compute. discriminate.
  - vm_compute. reflexivity.
  - vm_compute. discriminate.
Defined.

(** ** main.py: the pipeline as a whole *)

Section PipelineCases.
Variable U : unicode_db.
Variable settings : Settings.
Variable L : crypto_lib.
Variable format_type : MessageType -> pystr.

(** The six ways a request can end. *)
Lemma forward_message_cases storage env request :
  let out := forward_message U settings L format_type storage env request in
  (* step 1 *)
  (timestamp_ok (py_int (time_request env)) (req_message_type request)
     (timestamp request) = false
   /\ out = (Raise (HTTPException 400 (py "Request timestamp is invalid")),
             storage, []))
  (* step 2 *)
  \/ (timestamp_ok (py_int (time_request env)) (req_message_type request)
        (timestamp request) = true
      /\ raised (validate_and_decrypt L (encrypted_payload request)
                   (hmac_signature request))
      /\ out = (Raise (HTTPException 401 (py "Authentication failed")),
                storage, []))
  \/ (exists m,
        authenticated L env request m
        /\ ((* step 4 *)
            (exists e, fingerprint L request m = Raise e
                       /\ out = (Raise (pipeline_boundary e), storage, []))
            \/ (exists h is_new storage',
                  fingerprint L request m = Ok h
                  /\ store_message settings storage (storage_env env) h
                       (sender request) (effective_type U request m)
                     = (is_new, storage')
                  /\ ((* step 5 *)
                      (is_new = false
                       /\ out
                          = (Ok {| success := true;
                                   message :=
                                     format_type (effective_type U request m)
                                       ++ py " message already forwarded";
                                   whatsapp_message_id := None |},
                             storage', []))
                      (* step 6 *)
                      \/ (is_new = true
                          /\ exists id payload,
                               payload
                               = build_payload U settings m (sender request)
                                   (effective_type U request m)
                               /\ send_message U settings (whatsapp_post env)
                                    m (sender request)
                                    (effective_type U request m)
                                  = (id, payload)
                               /\ ((truthy id = false
                                    /\ out
                                       = (Raise
                                            (HTTPException 500
                                               (py "Failed to send WhatsApp message")),
                                          storage', [payload]))
                                   \/ (truthy id = true
                                       /\ out
                                          = (Ok {| success := true;
                                                   message :=
                                                     format_type
                                                       (effective_type U
                                                          request m)
                                                       ++ py " message forwarded successfully";
                                                   whatsapp_message_id := id |},
                                             storage', [payload])))))))).
Proof.
  intros out.
  destruct (timestamp_ok (py_int (time_request env))
              (req_message_type request) (timestamp request)) eqn:Hfresh.
  2: { left. split; [done |]. unfold out.
       by apply stale_request_rejected. }
  right.
  destruct (validate_and_decrypt L (encrypted_payload request)
              (hmac_signature request)) as [m | e] eqn:Hcrypto.
  2: { left. split; [done |]. split; [done |].
       unfold out, forward_message. rewrite Hfresh, Hcrypto. simpl.
       apply validate_and_decrypt_raises in Hcrypto.
       by destruct Hcrypto as [-> | [-> | ->]]. }
  right. exists m. split; [by split |].
  destruct (fingerprint L request m) as [h | e] eqn:Hhash.
  2: { left. exists e. split; [done |].
       unfold out, forward_message. rewrite Hfresh, Hcrypto. simpl.
       by rewrite Hhash. }
  right.
  destruct (store_message settings storage (storage_env env) h
              (sender request) (effective_type U request m))
    as [is_new storage'] eqn:Hstore.
  exists h, is_new, storage'. split; [done |]. split; [done |].
  assert (Hadm : authenticated L env request m) by (by split).
  unfold out.
  rewrite (forward_message_authenticated U settings L format_type _ _ _ _ _
             Hadm Hhash).
  cbv zeta. rewrite Hstore.
  destruct is_new; cbn [negb].
  - right. split; [done |].
    destruct (send_message U settings (whatsapp_post env) m (sender request)
                (effective_type U request m)) as [id payload] eqn:Hsend.
    exists id, payload.
    assert (payload = build_payload U settings m (sender request)
                        (effective_type U request m))
      by (unfold send_message in Hsend; by inversion Hsend).
    split; [done |]. split; [done |].
    destruct (truthy id); cbn [negb]; [right | left]; by split.
  - left. by split.
Qed.

End PipelineCases.

(** forward_message raises nothing but the four HTTP errors of its
    source, provided the digest of step 4 does not itself raise an
    HTTPException. *)
Theorem pipeline_error_responses (U : unicode_db) (settings : Settings)
    (L : crypto_lib) (format_type : MessageType -> pystr)
    (storage : StorageService) (env : request_env)
    (request : EncryptedMessageRequest) (e : exn) :
  (forall m status_code detail,
      sha256_hexdigest L m <> Raise (HTTPException status_code detail)) ->
  (forward_message U settings L format_type storage env request).1.1
  = Raise e ->
  e ∈ [HTTPException 400 (py "Request timestamp is invalid");
       HTTPException 401 (py "Authentication failed");
       HTTPException 500 (py "Internal server error");
       HTTPException 500 (py "Failed to send WhatsApp message")].
Proof.
  intros Hdigest.
  destruct (forward_message_cases U settings L format_type storage env
              request)
    as [[_ ->] | [(_ & _ & ->) | (m & _ & Hrest)]]; simpl.
  - intros H. inversion H. set_solver.
  - intros H. inversion H. set_solver.
  - destruct Hrest as [(e' & Hhash & ->)
                      | (h & is_new & storage' & _ & _ & Hrest)]; simpl.
    + intros H. inversion H. subst e.
      unfold fingerprint in Hhash.
      destruct (truthy (message_hash request)); [discriminate |].
      destruct e'; simpl;
        first [by apply Hdigest in Hhash | set_solver].
    + destruct Hrest as [[_ ->]
                        | (_ & id & payload & _ & _
                           & [[_ ->] | [_ ->]])]; simpl.
      * discriminate.
      * intros H. inversion H. set_solver.
      * discriminate.
Qed.

Lemma pipeline_error_responses_witness :
  HTTPException 500 (py "Failed to send WhatsApp message")
  ∈ [HTTPException 400 (py "Request timestamp is invalid");
     HTTPException 401 (py "Authentication failed");
     HTTPException 500 (py "Internal server error");
     HTTPException 500 (py "Failed to send WhatsApp message")].
Proof.
  apply (pipeline_error_responses ascii_only default_settings toy_lib
           MessageType_value (memory_service ∅)
           {| time_request := 1000; storage_env := env_at 1000;
              whatsapp_post := fun _ => Response 503 None |}
           (toy_request "Your code is 1234" OTP 1000 None)).
  - intros m status_code detail. discriminate.
  - vm_compute. reflexivity.
Defined.

(** Whatever forward_message posts to the outbound channel is one body,
    built from the plaintext of an authenticated request whose hash the
    store has just reported as new. *)
Theorem nothing_posted_without_registration (U : unicode_db)
    (settings : Settings) (L : crypto_lib)
    (format_type : MessageType -> pystr) (storage : StorageService)
    (env : request_env) (request : EncryptedMessageRequest) :
  let out := forward_message U settings L format_type storage env request in
  out.2 <> [] ->
  exists m h,
    authenticated L env request m
    /\ fingerprint L request m = Ok h
    /\ store_message settings storage (storage_env env) h (sender request)
         (effective_type U request m) = (true, out.1.2)
    /\ out.2
       = [build_payload U settings m (sender request)
            (effective_type U request m)].
Proof.
  intros out. unfold out.
  destruct (forward_message_cases U settings L format_type storage env
              request)
    as [[_ ->] | [(_ & _ & ->) | (m & Hadm & Hrest)]]; simpl; [done.. |].
  destruct Hrest as [(e' & _ & ->)
                    | (h & is_new & storage' & Hhash & Hstore & Hrest)];
    simpl; [done |].
  destruct Hrest as [[_ ->]
                    | (-> & id & payload & -> & _ & [[_ ->] | [_ ->]])];
    simpl; [done | |]; intros _; by exists m, h.
Qed.

Lemma nothing_posted_without_registration_witness :
  exists m h,
    authenticated toy_lib (world_at 1000)
      (toy_request "Your code is 1234" OTP 1000 None) m
    /\ fingerprint toy_lib (toy_request "Your code is 1234" OTP 1000 None) m
       = Ok h
    /\ store_message default_settings (memory_service ∅) (env_at 1000) h
         (py "BANK") OTP = (true, seen_once)
    /\ (forward_message ascii_only default_settings toy_lib
          MessageType_value (memory_service ∅) (world_at 1000)
          (toy_request "Your code is 1234" OTP 1000 None)).2
       = [build_payload ascii_only default_settings m (py "BANK") OTP].
Proof.
  apply (nothing_posted_without_registration ascii_only default_settings
           toy_lib MessageType_value (memory_service ∅) (world_at 1000)
           (toy_request "Your code is 1234" OTP 1000 None)).
  vm_compute. discriminate.
Defined.

(** A response that carries a message id was preceded by one POST which
    the channel answered with status 200 and that very, non-empty, id. *)
Theorem message_id_comes_from_channel (U : unicode_db) (settings : Settings)
    (L : crypto_lib) (format_type : MessageType -> pystr)
    (storage : StorageService) (env : request_env)
    (request : EncryptedMessageRequest) (response : ForwardResponse)
    (id : pystr) :
  let out := forward_message U settings L format_type storage env request in
  out.1.1 = Ok response ->
  whatsapp_message_id response = Some id ->
  exists payload,
    out.2 = [payload]
    /\ whatsapp_post env payload = Response 200 (Some id)
    /\ id <> [].
Proof.
  intros out. unfold out.
  destruct (forward_message_cases U settings L format_type storage env
              request)
    as [[_ ->] | [(_ & _ & ->) | (m & Hadm & Hrest)]]; simpl; [done.. |].
  destruct Hrest as [(e' & _ & ->)
                    | (h & is_new & storage' & Hhash & Hstore & Hrest)];
    simpl; [done |].
  destruct Hrest as [[_ ->]
                    | (-> & id' & payload & -> & Hsend
                       & [[_ ->] | [Hid ->]])]; simpl.
  - intros H. inversion H. subst response. discriminate.
  - discriminate.
  - intros H. inversion H. subst response. simpl. intros ->.
    eexists. split; [reflexivity |].
    unfold send_message in Hsend. inversion Hsend as [Hpost].
    destruct (whatsapp_post env _) as [status_code message_id |];
      [| discriminate].
    destruct (status_code =? 200)%Z eqn:Hcode; [| discriminate].
    apply Z.eqb_eq in Hcode. subst. split; [reflexivity |].
    intros ->. discriminate.
Qed.

Lemma message_id_comes_from_channel_witness :
  exists payload,
    (forward_message ascii_only default_settings toy_lib MessageType_value
       (memory_service ∅) (world_at 1000)
       (toy_request "Your code is 1234" OTP 1000 None)).2 = [payload]
    /\ whatsapp_post (world_at 1000) payload
       = Response 200 (Some (py "wamid.1"))
    /\ py "wamid.1" <> [].
Proof.
  apply (message_id_comes_from_channel ascii_only default_settings toy_lib
           MessageType_value (memory_service ∅) (world_at 1000)
           (toy_request "Your code is 1234" OTP 1000 None)
           {| success := true;
              message := py "OTP message forwarded successfully";
              whatsapp_message_id := Some (py "wamid.1") |}).
  - vm_compute. reflexivity.
  - reflexivity.
Defined.

(** A request answered with 400 or 401 has changed nothing in the store
    and posted nothing. *)
Theorem rejected_request_changes_nothing (U : unicode_db)
    (settings : Settings) (L : crypto_lib)
    (format_type : MessageType -> pystr) (storage : StorageService)
    (env : request_env) (request : EncryptedMessageRequest)
    (status_code : Z) (detail : pystr) :
  let out := forward_message U settings L format_type storage env request in
  out.1.1 = Raise (HTTPException status_code detail) ->
  status_code = 400%Z \/ status_code = 401%Z ->
  out.1.2 = storage /\ out.2 = [].
Proof.
  intros out. unfold out.
  destruct (forward_message_cases U settings L format_type storage env
              request)
    as [[_ ->] | [(_ & _ & ->) | (m & Hadm & Hrest)]]; simpl; [done.. |].
  destruct Hrest as [(e' & _ & ->)
                    | (h & is_new & storage' & Hhash & Hstore & Hrest)];
    simpl; [done |].
  destruct Hrest as [[_ ->]
                    | (-> & id' & payload & -> & Hsend
                       & [[_ ->] | [Hid ->]])]; simpl; [done | | done].
  intros H. inversion H. lia.
Qed.

Lemma rejected_request_changes_nothing_witness :
  (forward_message ascii_only default_settings toy_lib MessageType_value
     seen_once (world_at 2000)
     (toy_request "Your code is 1234" OTP 1000 None)).1.2 = seen_once
  /\ (forward_message ascii_only default_settings toy_lib MessageType_value
        seen_once (world_at 2000)
        (toy_request "Your code is 1234" OTP 1000 None)).2 = [].
Proof.
  apply (rejected_request_changes_nothing ascii_only default_settings
           toy_lib MessageType_value seen_once (world_at 2000)
           (toy_request "Your code is 1234" OTP 1000 None) 400
           (py "Request timestamp is invalid")).
  - vm_compute. reflexivity.
  - by left.
Defined.

(** When the outbound channel gives no id for a first-seen message, the
    request ends with 500 "Failed to send WhatsApp message" but its hash
    stays in the in-memory store: the same hash sent again by a request
    that reads the clock before the expiry stored with it is answered
    "already forwarded" and is not posted. *)
Theorem failed_delivery_blocks_retry (U : unicode_db) (settings : Settings)
    (L : crypto_lib) (format_type : MessageType -> pystr)
    (store : gmap pystr entry) (env1 env2 : request_env)
    (request1 request2 : EncryptedMessageRequest) (m1 m2 h : pystr) :
  let forward := forward_message U settings L format_type in
  let out1 := forward (memory_service store) env1 request1 in
  let out2 := forward out1.1.2 env2 request2 in
  let type1 := effective_type U request1 m1 in
  authenticated L env1 request1 m1 ->
  authenticated L env2 request2 m2 ->
  fingerprint L request1 m1 = Ok h ->
  fingerprint L request2 m2 = Ok h ->
  store !! h = None ->
  truthy (send_message U settings (whatsapp_post env1) m1 (sender request1)
            type1).1 = false ->
  (time_exists (storage_env env2)
   < float_add (time_write (storage_env env1))
       (_get_ttl_for_type settings type1))%Q ->
  out1.1.1
  = Raise (HTTPException 500 (py "Failed to send WhatsApp message"))
  /\ out2.1.1
     = Ok {| success := true;
             message := format_type (effective_type U request2 m2)
                          ++ py " message already forwarded";
             whatsapp_message_id := None |}
  /\ out2.2 = [].
Proof.
  intros forward out1 out2 type1 Hadm1 Hadm2 Hf1 Hf2 Hnew Hdown Hsoon.
  set (store1 :=
         <[h := new_entry settings (storage_env env1) (sender request1)
                  type1]>
           (_cleanup_expired (time_sweep (storage_env env1))
              (_cleanup_expired (time_exists (storage_env env1)) store))).
  assert (Hreg1 :
    store_message settings (memory_service store) (storage_env env1) h
      (sender request1) type1 = (true, memory_service store1)).
  { apply store_message_fresh. by apply cleanup_absent. }
  assert (Hout1 :
    out1 = (Raise (HTTPException 500 (py "Failed to send WhatsApp message")),
            memory_service store1,
            [build_payload U settings m1 (sender request1) type1])).
  { unfold out1, forward.
    rewrite (forward_message_authenticated U settings L format_type _ _ _ _
               _ Hadm1 Hf1).
    cbv zeta. fold type1. rewrite Hreg1. cbn [negb].
    destruct (send_message U settings (whatsapp_post env1) m1
                (sender request1) type1) as [id payload] eqn:Hsend.
    simpl in Hdown. rewrite Hdown. cbn [negb].
    unfold send_message in Hsend. by inversion Hsend. }
  split; [by rewrite Hout1 |].
  assert (Hreg2 :
    store_message settings out1.1.2 (storage_env env2) h (sender request2)
      (effective_type U request2 m2)
    = (false,
       memory_service
         (_cleanup_expired (time_exists (storage_env env2)) store1))).
  { rewrite Hout1. simpl. apply store_message_seen.
    eexists. apply cleanup_keeps; [apply lookup_insert_eq | exact Hsoon]. }
  unfold out2, forward.
  rewrite (forward_message_duplicate U settings L format_type _ _ _ _ _ _
             Hadm2 Hf2 Hreg2).
  by split.
Qed.

Lemma failed_delivery_blocks_retry_witness :
  let out1 :=
    forward_message ascii_only default_settings toy_lib MessageType_value
      (memory_service ∅) (world_down 1000 503)
      (toy_request "Your code is 1234" OTP 1000 None) in
  out1.1.1
  = Raise (HTTPException 500 (py "Failed to send WhatsApp message"))
  /\ (forward_message ascii_only default_settings toy_lib MessageType_value
        out1.1.2 (world_at 1005)
        (toy_request "Your code is 1234" OTP 1005 None)).1.1
     = Ok {| success := true;
             message := py "OTP message already forwarded";
             whatsapp_message_id := None |}
  /\ (forward_message ascii_only default_settings toy_lib MessageType_value
        out1.1.2 (world_at 1005)
        (toy_request "Your code is 1234" OTP 1005 None)).2 = [].
Proof.
  apply (failed_delivery_blocks_retry ascii_only default_settings toy_lib
           MessageType_value ∅ (world_down 1000 503) (world_at 1005)
           (toy_request "Your code is 1234" OTP 1000 None)
           (toy_request "Your code is 1234" OTP 1005 None)
           (py "Your code is 1234") (py "Your code is 1234")
           (py "sha:Your code is 1234")).
  - split; vm_compute; reflexivity.
  - split; vm_compute; reflexivity.
  - vm_compute. reflexivity.
  - vm_compute. reflexivity.
  - apply lookup_empty.
  - vm_compute. reflexivity.
  - vm_compute. reflexivity.
Defined.

(** The legacy endpoint treats every request as an OTP: it applies the
    300-second window whatever type was declared, and whatever it posts
    uses the OTP template with the two OTP parameters. *)
Theorem legacy_endpoint_is_otp (U : unicode_db) (settings : Settings)
    (L : crypto_lib) (format_type : MessageType -> pystr)
    (storage : StorageService) (env : request_env)
    (request : EncryptedMessageRequest) :
  let out := forward_otp_legacy U settings L format_type storage env request in
  ((300 < Z.abs (py_int (time_request env) - timestamp request))%Z ->
   out = (Raise (HTTPException 400 (py "Request timestamp is invalid")),
          storage, []))
  /\ (forall payload, payload ∈ out.2 ->
        payload_template payload = whatsapp_template_otp settings
        /\ exists m,
             payload_parameters payload
             = _render_otp_params U (sender request) m).
Proof.
  intros out. unfold out, forward_otp_legacy. split.
  - intros Hstale. apply stale_request_rejected. simpl.
    unfold timestamp_ok. apply negb_false_iff.
    rewrite Z.gtb_ltb. by apply Z.ltb_lt.
  - intros payload Hin.
    match type of Hin with
    | context [forward_message _ _ _ _ _ _ ?r] => set (request' := r) in *
    end.
    destruct (forward_message_cases U settings L format_type storage env
                request')
      as [[_ Hout] | [(_ & _ & Hout) | (m & Hadm & Hrest)]];
      [rewrite Hout in Hin; simpl in Hin; set_solver.. |].
    assert (Htype : effective_type U request' m = OTP) by reflexivity.
    destruct Hrest as [(e' & _ & Hout)
                      | (h & is_new & storage' & _ & _ & Hrest)];
      [rewrite Hout in Hin; simpl in Hin; set_solver |].
    destruct Hrest as [[_ Hout]
                      | (_ & id & p & Hp & _ & [[_ Hout] | [_ Hout]])];
      rewrite Hout in Hin; simpl in Hin; [set_solver | |];
      apply list_elem_of_singleton in Hin; subst payload p;
      rewrite Htype; (split; [reflexivity |]); by exists m.
Qed.

Lemma legacy_endpoint_is_otp_witness :
  forward_otp_legacy ascii_only default_settings toy_lib MessageType_value
    (memory_service ∅) (world_at 1400)
    (toy_request "Rs 5000 debited from A/c XX1234" TRANSACTION 1000 None)
  = (Raise (HTTPException 400 (py "Request timestamp is invalid")),
     memory_service ∅, []).
Proof.
  apply (legacy_endpoint_is_otp ascii_only default_settings toy_lib
           MessageType_value (memory_service ∅) (world_at 1400)
           (toy_request "Rs 5000 debited from A/c XX1234" TRANSACTION 1000
              None)).
  vm_compute. reflexivity.
Defined.

(** The timestamp is checked before anything else: a stale request is
    answered 400 whatever its payload and signature are worth, and two
    crypto libraries cannot tell such requests apart. *)
Theorem stale_request_skips_authentication (U : unicode_db)
    (settings : Settings) (L L' : crypto_lib)
    (format_type : MessageType -> pystr) (storage : StorageService)
    (env : request_env) (request : EncryptedMessageRequest) :
  (max_time_diff (req_message_type request)
   < Z.abs (py_int (time_request env) - timestamp request))%Z ->
  forward_message U settings L format_type storage env request
  = (Raise (HTTPException 400 (py "Request timestamp is invalid")),
     storage, [])
  /\ forward_message U settings L' format_type storage env request
     = forward_message U settings L format_type storage env request.
Proof.
  intros Hstale.
  assert (Hko : timestamp_ok (py_int (time_request env))
                  (req_message_type request) (timestamp request) = false).
  { unfold timestamp_ok. apply negb_false_iff.
    rewrite Z.gtb_ltb. by apply Z.ltb_lt. }
  by rewrite !stale_request_rejected.
Qed.

Lemma stale_request_skips_authentication_witness :
  forward_message ascii_only default_settings toy_lib MessageType_value
    (memory_service ∅) (world_at 2000)
    {| encrypted_payload := py "not base64"; hmac_signature := py "bad";
       sender := py "BANK"; req_message_type := BILL; timestamp := 1399;
       message_hash := None |}
  = (Raise (HTTPException 400 (py "Request timestamp is invalid")),
     memory_service ∅, []).
Proof.
  apply (stale_request_skips_authentication ascii_only default_settings
           toy_lib toy_lib MessageType_value (memory_service ∅)
           (world_at 2000)).
  vm_compute. reflexivity.
Defined.

(** ** crypto_service.py *)

(** verify_hmac accepts a signature exactly when it is the hex digest the
    library computes for the payload and is made of ASCII characters; so
    at most one signature is accepted for a payload. *)
Theorem verify_hmac_accepts_only_the_mac (L : crypto_lib)
    (payload signature : pystr) :
  verify_hmac L payload signature = true
  <-> hmac_hexdigest L payload = Ok signature
      /\ forallb is_ascii signature = true.
Proof.
  unfold verify_hmac, compare_digest. split.
  - destruct (hmac_hexdigest L payload) as [expected | e]; simpl;
      [| discriminate].
    destruct (forallb is_ascii expected && forallb is_ascii signature)
      eqn:Hascii; [| discriminate].
    apply andb_true_iff in Hascii as [_ Hsig].
    unfold pystr_eqb. intros H. apply bool_decide_eq_true in H.
    by subst.
  - intros [-> Hsig]. simpl. rewrite Hsig. simpl.
    unfold pystr_eqb. by apply bool_decide_eq_true.
Qed.

(** A signature that fails the check ends validate_and_decrypt before
    the payload is decoded or decrypted: the outcome is the HMAC error
    whatever the decoder, the cipher and the digest are. *)
Theorem bad_signature_skips_decryption (L L' : crypto_lib)
    (payload signature : pystr) :
  hmac_hexdigest L' payload = hmac_hexdigest L payload ->
  verify_hmac L payload signature = false ->
  validate_and_decrypt L' payload signature
  = Raise (ValueError (py "HMAC verification failed")).
Proof.
  intros Hmac Hbad. unfold validate_and_decrypt.
  assert (Hbad' : verify_hmac L' payload signature = false).
  { unfold verify_hmac in *. by rewrite Hmac. }
  by rewrite Hbad'.
Qed.

Lemma bad_signature_skips_decryption_witness :
  validate_and_decrypt
    {| hmac_hexdigest := hmac_hexdigest toy_lib;
       b64decode := fun _ => Ok [];
       cipher_decrypt := fun _ _ => Ok [];
       decode_utf8 := fun _ => Ok (py "forged");
       sha256_hexdigest := sha256_hexdigest toy_lib |}
    (py "000000000000Your code is 1234!") (py "mac:")
  = Raise (ValueError (py "HMAC verification failed")).
Proof.
  apply (bad_signature_skips_decryption toy_lib).
  - reflexivity.
  - vm_compute. reflexivity.
Defined.

(** ** message_classifier.py *)

(** classify builds one of eight fixed results: the metadata holds flags
    only and never text of the message, the confidence lies between 0 and
    1, and it is 0 exactly for UNKNOWN. *)
Theorem classify_results_are_fixed (U : unicode_db) (body sender : pystr) :
  let r := classify U body sender in
  r ∈ classification_results
  /\ (0 <= confidence r <= 1)%Q
  /\ (message_type r = UNKNOWN <-> (confidence r == 0)%Q).
Proof.
  intros r.
  assert (Hin : r ∈ classification_results).
  { unfold r, classify, _check_otp, _check_transaction,
      _check_security_alert, _check_bill, classification_results,
      otp_metadata.
    destruct (existsb _ OTP_PATTERNS); [set_solver |].
    destruct (_ && _); [set_solver |].
    destruct (amount_found U body);
      (destruct (2 <=? _)%nat; [set_solver |]);
      (destruct (1 <=? _)%nat; [set_solver |]);
      (destruct (2 <=? _)%nat; set_solver). }
  split; [exact Hin |].
  unfold classification_results in Hin.
  repeat (apply elem_of_cons in Hin as [-> | Hin]);
    [| | | | | | | | by apply elem_of_nil in Hin];
    simpl; (split; [split; vm_compute; discriminate |]);
    split; (discriminate || reflexivity || (vm_compute; discriminate)
            || (intros H; vm_compute in H; discriminate)).
Qed.

(** ** template_manager.py *)

(** Whatever the type, every parameter rendered is a text parameter, the
    sender is one of them, handed on as it came, and there are three
    parameters for a transaction and two otherwise. *)
Theorem sender_is_always_a_parameter (U : unicode_db)
    (message_type : MessageType) (sender content : pystr) :
  let parameters := render_template_params U message_type sender content in
  Forall (fun p => param_type p = py "text") parameters
  /\ text_param sender ∈ parameters
  /\ length parameters
     = if decide (message_type = TRANSACTION) then 3%nat else 2%nat.
Proof.
  destruct message_type; simpl;
    (split; [repeat constructor |]);
    (split; [set_solver | reflexivity]).
Qed.

(** ** whatsapp_service.py *)

(** A message that stays UNKNOWN goes out under the OTP template, to the
    configured recipient, with the first 200 characters of its text,
    unmasked, in the place of the code. *)
Theorem unknown_goes_out_as_otp_template (U : unicode_db)
    (settings : Settings) (content sender : pystr) :
  build_payload U settings content sender UNKNOWN
  = {| payload_to := whatsapp_recipient_number settings;
       payload_template := whatsapp_template_otp settings;
       payload_parameters :=
         [text_param sender; text_param (take 200 content)] |}.
Proof.
  unfold build_payload. simpl. unfold _render_generic_params.
  by rewrite take_200.
Qed.

(** ** Patterns on text without digits *)

Section MustConsume.
Variable U : unicode_db.
Variable ic : bool.
Variable P : N -> bool.

Lemma rep_loop_fails_without body g lo hi k :
  (forall k', fails_without P k' -> fails_without P (body k')) ->
  fails_without P k ->
  forall fuel n, fails_without P (rep_loop body g lo hi k fuel n).
Proof.
  intros Hbody Hk fuel.
  induction fuel as [| fuel IH]; intros n prev s Hfree; [reflexivity |].
  cbn [rep_loop].
  assert (Hmore :
    (if below n hi
     then body (fun p' s' =>
                  if (length s' <? length s)%nat
                  then rep_loop body g lo hi k fuel (S n) p' s' else None)
            prev s
     else None) = None).
  { destruct (below n hi); [| reflexivity].
    apply Hbody; [| done].
    intros p' s' Hfree'. destruct (_ <? _)%nat; [| reflexivity].
    by apply IH. }
  assert (Hstop : (if (lo <=? n)%nat then k prev s else None) = None).
  { destruct (lo <=? n)%nat; [by apply Hk | reflexivity]. }
  destruct g; by rewrite Hmore, Hstop.
Qed.

(** A pattern fails on text free of [P] when it must consume a [P], or
    when what follows it fails there. *)
Lemma rmatch_fails_without r : forall k,
  must_consume U ic P r \/ fails_without P k ->
  fails_without P (rmatch U ic r k).
Proof.
  induction r as [| cs | | a IHa b IHb | a IHa b IHb | g lo hi r IHr];
    intros k Hwhy prev s Hfree; cbn [rmatch].
  - destruct Hwhy as [[] | Hk]. by apply Hk.
  - destruct s as [| c s]; [reflexivity |].
    apply Forall_cons in Hfree as [Hc Hfree].
    destruct (cset_match U ic cs c) eqn:Hm; [| reflexivity].
    destruct Hwhy as [Hmust | Hk]; [| by apply Hk].
    simpl in Hmust. rewrite (Hmust c Hm) in Hc. discriminate.
  - destruct Hwhy as [[] | Hk].
    destruct (at_boundary U prev s); [by apply Hk | reflexivity].
  - apply IHa; [| done].
    destruct Hwhy as [[Ha | Hb] | Hk]; [by left | right..].
    + apply IHb. by left.
    + apply IHb. by right.
  - rewrite IHa, IHb; [reflexivity | | done | | done].
    + destruct Hwhy as [[_ Hb] | Hk]; [by left | by right].
    + destruct Hwhy as [[Ha _] | Hk]; [by left | by right].
  - destruct Hwhy as [[Hlo Hmust] | Hk].
    + (* the first iteration already fails, and none is not enough *)
      cbn [rep_loop].
      assert (Hmore : forall k',
                (if below O hi then rmatch U ic r k' prev s else None)
                = None).
      { intros k'. destruct (below O hi); [| reflexivity].
        apply IHr; [by left | done]. }
      rewrite Hmore.
      destruct lo as [| lo]; [lia |]. cbn [Nat.leb].
      by destruct g.
    + apply rep_loop_fails_without; [| done | done].
      intros k' Hk'. apply IHr. by right.
Qed.

Lemma search_from_without r :
  must_consume U ic P r ->
  forall s prev, free_of P s -> search_from U ic r prev s = None.
Proof.
  intros Hmust s.
  induction s as [| c s IH]; intros prev Hfree; cbn [search_from];
    unfold match_at;
    rewrite (rmatch_fails_without r accept (or_introl Hmust) prev _ Hfree).
  - reflexivity.
  - apply Forall_cons in Hfree as [_ Hfree]. by apply IH.
Qed.

End MustConsume.

Lemma sub_from_without U P r repl :
  must_consume U false P r ->
  forall s prev, free_of P s -> sub_from U r repl O prev s = s.
Proof.
  intros Hmust s.
  induction s as [| c s IH]; intros prev Hfree; cbn [sub_from];
    rewrite (rmatch_fails_without U false P r accept (or_introl Hmust)
               prev _ Hfree).
  - reflexivity.
  - apply Forall_cons in Hfree as [_ Hfree]. by rewrite IH.
Qed.

(** Walks down a sequence to the repetition that needs the character. *)
Ltac find_must leaf :=
  first [ solve [leaf] | left; find_must leaf | right; find_must leaf ].

Ltac digit_leaf :=
  split; [lia | intros ? Hc; exact Hc].

Ltac digit_or_comma_leaf :=
  split;
  [lia
  | intros c Hc; unfold digit_or_comma; cbn [cset_match] in Hc;
    rewrite ?(N.eqb_sym 44) in Hc; first [exact Hc | by rewrite Hc]].

Lemma OTP_PATTERNS_need_digit U pattern :
  pattern ∈ OTP_PATTERNS -> must_consume U true (isdigit U) pattern.
Proof.
  unfold OTP_PATTERNS. intros Hin.
  repeat (apply elem_of_cons in Hin as [-> | Hin]);
    [| | | by apply elem_of_nil in Hin];
    cbv -[cset_match isdigit Nat.le]; find_must digit_leaf.
Qed.

Lemma otp_digits_need_digit U :
  must_consume U false (isdigit U) otp_digits.
Proof. cbv -[cset_match isdigit Nat.le]. find_must digit_leaf. Qed.

Lemma mask_patterns_need_digit_or_comma U :
  must_consume U false (digit_or_comma U)
    (seq [currency; star space; number])
  /\ must_consume U false (digit_or_comma U) masked_account
  /\ must_consume U false (digit_or_comma U) large_number.
Proof.
  repeat split; cbv -[cset_match isdigit digit_or_comma Nat.le N.eqb];
    find_must digit_or_comma_leaf.
Qed.

Lemma free_of_forallb (P : N -> bool) (s : pystr) :
  forallb (fun c => negb (P c)) s = true -> free_of P s.
Proof.
  unfold free_of. induction s as [| c s IH]; simpl; [constructor |].
  intros H. apply andb_true_iff in H as [Hc Hs].
  constructor; [by apply negb_true_iff | by apply IH].
Qed.

(** A message without any digit is never classified as an OTP, and the
    OTP template rendered for it carries the placeholder in place of a
    code. *)
Theorem no_digit_no_otp (U : unicode_db) (body sender : pystr) :
  free_of (isdigit U) body ->
  message_type (classify U body sender) <> OTP
  /\ _render_otp_params U sender body
     = [text_param sender; text_param (py "******")].
Proof.
  intros Hfree.
  assert (Hdigits : re_search U false otp_digits body = None).
  { apply (search_from_without U false (isdigit U));
      [apply otp_digits_need_digit | done]. }
  assert (Hotp : _check_otp U body (lower U body) = None).
  { unfold _check_otp.
    assert (Hpat : existsb (fun pattern => re_found U true pattern body)
                     OTP_PATTERNS = false).
    { apply not_true_iff_false. intros Hex.
      apply existsb_exists in Hex as (pattern & Hin & Hfound).
      apply list_elem_of_In in Hin.
      unfold re_found, re_search in Hfound.
      rewrite (search_from_without U true (isdigit U) pattern
                 (OTP_PATTERNS_need_digit U pattern Hin) body None Hfree)
        in Hfound.
      discriminate. }
    rewrite Hpat. unfold re_found. by rewrite Hdigits. }
  split.
  - unfold classify. rewrite Hotp.
    destruct (_check_transaction U body (lower U body)) as [r |] eqn:Ht.
    { by rewrite (_check_transaction_type U _ _ _ Ht). }
    destruct (_check_security_alert U body (lower U body)) as [r |] eqn:Hs.
    { by rewrite (_check_security_alert_type U _ _ _ Hs). }
    destruct (_check_bill U body (lower U body)) as [r |] eqn:Hb.
    { by rewrite (_check_bill_type U _ _ _ Hb). }
    discriminate.
  - unfold _render_otp_params. by rewrite Hdigits.
Qed.

Lemma no_digit_no_otp_witness :
  message_type
    (classify ascii_only (py "Your OTP code is on its way") (py "BANK"))
  <> OTP
  /\ _render_otp_params ascii_only (py "BANK")
       (py "Your OTP code is on its way")
     = [text_param (py "BANK"); text_param (py "******")].
Proof.
  apply (no_digit_no_otp ascii_only (py "Your OTP code is on its way")
           (py "BANK")).
  apply free_of_forallb. vm_compute. reflexivity.
Defined.

(** On a text with neither a digit nor a comma the masking pass replaces
    nothing: the summary is the text itself, cut to 197 characters and
    "..." when it is longer than 200. *)
Theorem mask_without_digits_is_identity (U : unicode_db) (text : pystr) :
  free_of (digit_or_comma U) text ->
  _mask_sensitive_data U text
  = if (200 <? length text)%nat then take 197 text ++ py "..." else text.
Proof.
  intros Hfree.
  destruct (mask_patterns_need_digit_or_comma U) as (Hamount & Hacc & Hbig).
  unfold _mask_sensitive_data, re_sub.
  rewrite (sub_from_without U _ _ _ Hamount text None Hfree).
  rewrite (sub_from_without U _ _ _ Hacc text None Hfree).
  rewrite (sub_from_without U _ _ _ Hbig text None Hfree).
  reflexivity.
Qed.

Lemma mask_without_digits_is_identity_witness :
  _mask_sensitive_data ascii_only (py "Payment received. Thank you")
  = py "Payment received. Thank you".
Proof.
  apply (mask_without_digits_is_identity ascii_only
           (py "Payment received. Thank you")).
  apply free_of_forallb. vm_compute. reflexivity.
Defined.

(** ** The code put into the OTP template *)

Lemma startswith_app (w post : pystr) : startswith w (w ++ post) = true.
Proof.
  induction w as [| c w IH]; simpl; [by destruct post |].
  by rewrite N.eqb_refl, IH.
Qed.

Lemma contains_startswith (w s : pystr) :
  startswith w s = true -> contains w s = true.
Proof. intros H. destruct s; simpl; by rewrite H. Qed.

Lemma contains_app (pre w post : pystr) :
  contains w (pre ++ w ++ post) = true.
Proof.
  induction pre as [| c pre IH].
  - change ([] ++ w ++ post) with (w ++ post).
    apply contains_startswith, startswith_app.
  - change ((c :: pre) ++ w ++ post) with (c :: (pre ++ w ++ post)).
    cbn [contains]. rewrite IH. apply orb_true_r.
Qed.

Section DigitLoop.
Variable U : unicode_db.

Lemma orelse_None {A : Type} (o : option A) :
  match o with Some y => Some y | None => None end = o.
Proof. by destruct o. Qed.

Lemma digit_body k prev s :
  rmatch U false digit k prev s
  = match s with
    | c :: s' => if isdigit U c then k (Some c) s' else None
    | [] => None
    end.
Proof. reflexivity. Qed.

(** What a bounded digit loop consumes before it hands over to [k]. *)
Lemma digit_loop_shape g lo h k fuel : forall n prev s x,
  (n <= h)%nat ->
  rep_loop (rmatch U false digit) g lo (Some h) k fuel n prev s = Some x ->
  exists w t p,
    s = w ++ t
    /\ Forall (fun c => isdigit U c = true) w
    /\ (lo <= n + length w)%nat
    /\ (n + length w <= h)%nat
    /\ k p t = Some x.
Proof.
  induction fuel as [| fuel IH]; intros n prev s x Hn Hloop;
    [discriminate |].
  cbn [rep_loop below] in Hloop. rewrite digit_body in Hloop.
  assert (Hstop :
    (if (lo <=? n)%nat then k prev s else None) = Some x ->
    exists w t p,
      s = w ++ t /\ Forall (fun c => isdigit U c = true) w
      /\ (lo <= n + length w)%nat /\ (n + length w <= h)%nat
      /\ k p t = Some x).
  { destruct (lo <=? n)%nat eqn:Hlo; [| discriminate].
    apply Nat.leb_le in Hlo. intros Hk.
    exists [], s, prev. simpl. repeat split; [constructor | lia | lia | done]. }
  assert (Hmore : forall c s',
    s = c :: s' -> isdigit U c = true -> (n < h)%nat ->
    rep_loop (rmatch U false digit) g lo (Some h) k fuel (S n) (Some c) s'
    = Some x ->
    exists w t p,
      s = w ++ t /\ Forall (fun c => isdigit U c = true) w
      /\ (lo <= n + length w)%nat /\ (n + length w <= h)%nat
      /\ k p t = Some x).
  { intros c s' -> Hc Hlt Hrec.
    apply IH in Hrec as (w & t & p & -> & Hw & Hlo & Hhi & Hk); [| lia].
    exists (c :: w), t, p. simpl.
    repeat split; [by constructor | lia | lia | done]. }
  destruct (n <? h)%nat eqn:Hlt;
    [apply Nat.ltb_lt in Hlt
    | destruct g; rewrite ?orelse_None in Hloop; by apply Hstop].
  destruct s as [| c s'];
    [destruct g; rewrite ?orelse_None in Hloop; by apply Hstop |].
  destruct (isdigit U c) eqn:Hc;
    [| destruct g; rewrite ?orelse_None in Hloop; by apply Hstop].
  destruct (length s' <? length (c :: s'))%nat;
    [| destruct g; rewrite ?orelse_None in Hloop; by apply Hstop].
  destruct g.
  - destruct (rep_loop _ _ _ _ _ fuel (S n) (Some c) s') eqn:Hrec.
    + inversion Hloop; subst. by eapply Hmore.
    + by apply Hstop.
  - destruct (if (lo <=? n)%nat then _ else None) eqn:Hs.
    + inversion Hloop; subst. by apply Hstop.
    + by eapply Hmore.
Qed.

(** A match of [otp_digits] is a run of four to eight digits. *)
Lemma otp_digits_match prev s rest :
  rmatch U false otp_digits accept prev s = Some rest ->
  exists w,
    s = w ++ rest
    /\ Forall (fun c => isdigit U c = true) w
    /\ (4 <= length w <= 8)%nat.
Proof.
  change (rmatch U false otp_digits accept prev s)
    with (if at_boundary U prev s
          then rep_loop (rmatch U false digit) true 4 (Some 8%nat)
                 (closing U) (S (length s)) O prev s
          else None).
  destruct (at_boundary U prev s); [| discriminate].
  intros Hloop.
  apply digit_loop_shape in Hloop as (w & t & p & -> & Hw & Hlo & Hhi & Hk);
    [| lia].
  rewrite closing_eq in Hk.
  destruct (at_boundary U p t); [| discriminate].
  inversion Hk. subst t. exists w. repeat split; [done | lia | lia].
Qed.

Lemma otp_digits_search s : forall prev code,
  search_from U false otp_digits prev s = Some code ->
  Forall (fun c => isdigit U c = true) code
  /\ (4 <= length code <= 8)%nat
  /\ exists pre rest, s = pre ++ code ++ rest.
Proof.
  induction s as [| c s IH]; intros prev code; cbn [search_from];
    unfold match_at.
  - destruct (rmatch U false otp_digits accept prev []) as [rest |] eqn:Hm;
      [| discriminate].
    apply otp_digits_match in Hm as (w & Heq & _ & Hlen & _).
    symmetry in Heq. apply app_eq_nil in Heq as [-> _]. simpl in Hlen. lia.
  - destruct (rmatch U false otp_digits accept prev (c :: s)) as [rest |]
      eqn:Hm.
    + apply otp_digits_match in Hm as (w & Heq & Hw & Hlen).
      intros H. injection H as <-.
      assert (Hl : (length (c :: s) - length rest)%nat = length w).
      { rewrite Heq, length_app. lia. }
      cbn [length] in Hl. rewrite Hl, Heq, take_app_length.
      split; [done |]. split; [done |]. by exists [], rest.
    + intros Hlater. apply IH in Hlater as (Hw & Hlen & pre & rest & ->).
      split; [done |]. split; [done |]. by exists (c :: pre), rest.
Qed.

End DigitLoop.

(** The second parameter of the OTP template is either the placeholder
    "******", when the text has no stand-alone run of four to eight
    digits, or a run of four to eight digits that occurs in the text. *)
Theorem otp_code_is_a_digit_run (U : unicode_db) (sender content : pystr) :
  exists code,
    _render_otp_params U sender content
    = [text_param sender; text_param code]
    /\ ((code = py "******"
         /\ re_search U false otp_digits content = None)
        \/ (Forall (fun c => isdigit U c = true) code
            /\ (4 <= length code <= 8)%nat
            /\ contains code content = true)).
Proof.
  unfold _render_otp_params.
  destruct (re_search U false otp_digits content) as [code |] eqn:Hsearch.
  - exists code. split; [reflexivity |]. right.
    apply otp_digits_search in Hsearch as (Hw & Hlen & pre & rest & ->).
    split; [done |]. split; [done |]. apply contains_app.
  - exists (py "******"). split; [reflexivity |]. by left.
Qed.

(** ** config.py *)

Lemma filter_all_kept (keep : N -> bool) (l : pystr) :
  Forall (fun c => keep c = true) l -> List.filter keep l = l.
Proof.
  induction 1 as [| c l Hc _ IH]; simpl; [reflexivity |].
  by rewrite Hc, IH.
Qed.

Lemma filter_kept (keep : N -> bool) (l : pystr) :
  Forall (fun c => keep c = true) (List.filter keep l).
Proof.
  induction l as [| c l IH]; simpl; [constructor |].
  destruct (keep c) eqn:Hc; [by constructor | done].
Qed.

Lemma filter_is_sublist (keep : N -> bool) (l : pystr) :
  sublist (List.filter keep l) l.
Proof.
  induction l as [| c l IH]; simpl; [constructor |].
  destruct (keep c); by constructor.
Qed.



Lemma verify_hmac_accepts_only_the_mac_witness :
  verify_hmac toy_lib (py "000000000000Your code is 1234!")
    (py "mac:000000000000Your code is 1234!") = true.
Proof.
  apply (verify_hmac_accepts_only_the_mac toy_lib).
  split; vm_compute; reflexivity.
Defined.

Lemma classify_results_are_fixed_witness :
  (confidence (classify ascii_only (py "hello world") (py "BANK")) == 0)%Q.
Proof.
  apply (classify_results_are_fixed ascii_only (py "hello world")
           (py "BANK")).
  vm_compute. reflexivity.
Defined.

(** ** Health check *)

Lemma storage_health_check_true self ping :
  storage_health_check self ping = true
  <-> (redis self = true -> exists u, ping = Ok u).
Proof.
  unfold storage_health_check.
  destruct (redis self), ping as [u | e]; split; try done; eauto.
  intros H. by destruct (H eq_refl).
Qed.

Lemma whatsapp_health_check_true probe :
  whatsapp_health_check probe = true <-> exists id, probe = Response 200 id.
Proof.
  unfold whatsapp_health_check. destruct probe as [code id |].
  - rewrite Z.eqb_eq. split; [intros ->; eauto |].
    intros [id' H]. by inversion H.
  - split; [done |]. by intros [id H].
Qed.

(** Without Redis the health check reports redis_connected = true
    whatever the ping would say, and the status is "healthy" exactly when
    the WhatsApp probe answers 200; with Redis it is "healthy" exactly
    when the ping succeeds and the probe answers 200. *)
Theorem health_status (self : StorageService) (ping : result unit)
    (probe : http_outcome) :
  let response := health_check self ping probe in
  (redis self = false -> redis_connected response = true)
  /\ (status response = py "healthy"
      <-> (redis self = true -> exists u, ping = Ok u)
          /\ exists id, probe = Response 200 id)
  /\ (status response = py "healthy" \/ status response = py "degraded").
Proof.
  cbv zeta. unfold health_check. cbn [status redis_connected].
  split; [unfold storage_health_check; by intros -> |]. split.
  - rewrite <- storage_health_check_true, <- whatsapp_health_check_true.
    rewrite <- andb_true_iff.
    destruct (_ && _); split; (done || discriminate).
  - destruct (_ && _); [by left | by right].
Qed.

Lemma health_status_witness :
  redis_connected
    (health_check (memory_service ∅) (Raise OtherException)
       (Response 503 None)) = true.
Proof.
  apply (health_status (memory_service ∅) (Raise OtherException)
           (Response 503 None)).
  reflexivity.
Defined.
